(** * STL_Comparinator: mesh normalisation and comparative metrics

    A shallow embedding of [src/compare.js] and of the orientation and
    normalisation code of [src/viewer.js], together with the parts of the
    three.js classes they call ([Vector3], [Box3], [Matrix4],
    [BufferGeometry]).

    Numbers.  A JavaScript number is modelled as a real number or one of the
    three special values [Infinity], [-Infinity] and [NaN].  Arithmetic on
    finite values is exact: rounding, overflow and the sign of zero are not
    part of the model.  Division by zero and the arithmetic of the special
    values follow IEEE 754 with every zero read as [+0].

    Objects.  Geometries are mutable objects shared between the viewer's
    variables and its meshes, so the viewer state carries a store of
    geometries addressed by location. *)

From Stdlib Require Import Reals Lra Lia String List.
From stdpp Require Import gmap.

Local Open Scope R_scope.

(* ================================================================== *)
(** * JavaScript numbers *)
(* ================================================================== *)

#[global] Instance Rlt_decision (a b : R) : Decision (a < b) := Rlt_dec a b.
#[global] Instance Req_decision : EqDecision R := Req_dec_T.

Module JS.

Inductive number : Type :=
| Num (r : R)
| Infinity
| NegInfinity
| NaN.

(** The sign of a finite value; zero is its own class. *)
Definition sign (r : R) : comparison :=
  if decide (0 < r) then Gt else if decide (r < 0) then Lt else Eq.

(** Unary minus. *)
Definition neg (a : number) : number :=
  match a with
  | Num r => Num (- r)
  | Infinity => NegInfinity
  | NegInfinity => Infinity
  | NaN => NaN
  end.

(** [a + b] *)
Definition add (a b : number) : number :=
  match a, b with
  | NaN, _ | _, NaN => NaN
  | Num r, Num s => Num (r + s)
  | Infinity, NegInfinity | NegInfinity, Infinity => NaN
  | Infinity, _ | _, Infinity => Infinity
  | NegInfinity, _ | _, NegInfinity => NegInfinity
  end.

(** [a - b] *)
Definition sub (a b : number) : number :=
  match a, b with
  | NaN, _ | _, NaN => NaN
  | Num r, Num s => Num (r - s)
  | Infinity, Infinity | NegInfinity, NegInfinity => NaN
  | Infinity, _ | _, NegInfinity => Infinity
  | NegInfinity, _ | _, Infinity => NegInfinity
  end.

(** An infinity of the sign of [r] times the sign [pos] of the infinite
    operand; [0 * Infinity] is [NaN]. *)
Definition signed_infinity (r : R) (pos : bool) : number :=
  match sign r with
  | Gt => if pos then Infinity else NegInfinity
  | Lt => if pos then NegInfinity else Infinity
  | Eq => NaN
  end.

(** [a * b] *)
Definition mul (a b : number) : number :=
  match a, b with
  | NaN, _ | _, NaN => NaN
  | Num r, Num s => Num (r * s)
  | Num r, Infinity | Infinity, Num r => signed_infinity r true
  | Num r, NegInfinity | NegInfinity, Num r => signed_infinity r false
  | Infinity, Infinity | NegInfinity, NegInfinity => Infinity
  | Infinity, NegInfinity | NegInfinity, Infinity => NegInfinity
  end.

(** [a / b].  A finite value over zero is an infinity of the sign of the
    numerator, [0 / 0] is [NaN], a finite value over an infinity is zero. *)
Definition div (a b : number) : number :=
  match a, b with
  | NaN, _ | _, NaN => NaN
  | Num r, Num s =>
      if decide (s = 0) then signed_infinity r true else Num (r / s)
  | Num _, Infinity | Num _, NegInfinity => Num 0
  | Infinity, Num s => if decide (s < 0) then NegInfinity else Infinity
  | NegInfinity, Num s => if decide (s < 0) then Infinity else NegInfinity
  | _, _ => NaN
  end.

(** [a < b]; every comparison with [NaN] is false. *)
Definition lt (a b : number) : bool :=
  match a, b with
  | NaN, _ | _, NaN => false
  | Num r, Num s => bool_decide (r < s)
  | _, NegInfinity => false
  | Infinity, _ => false
  | NegInfinity, _ => true
  | Num _, Infinity => true
  end.

(** [a > b] *)
Definition gt (a b : number) : bool := lt b a.

(** [a === b] on numbers. *)
Definition strict_eq (a b : number) : bool :=
  match a, b with
  | Num r, Num s => bool_decide (r = s)
  | Infinity, Infinity | NegInfinity, NegInfinity => true
  | _, _ => false
  end.

(** [Math.abs] *)
Definition abs (a : number) : number :=
  match a with
  | Num r => Num (Rabs r)
  | Infinity | NegInfinity => Infinity
  | NaN => NaN
  end.

(** [Math.min] of two arguments. *)
Definition min (a b : number) : number :=
  match a, b with
  | NaN, _ | _, NaN => NaN
  | Num r, Num s => Num (Rmin r s)
  | NegInfinity, _ | _, NegInfinity => NegInfinity
  | Infinity, c | c, Infinity => c
  end.

(** [Math.max] of two arguments. *)
Definition max (a b : number) : number :=
  match a, b with
  | NaN, _ | _, NaN => NaN
  | Num r, Num s => Num (Rmax r s)
  | Infinity, _ | _, Infinity => Infinity
  | NegInfinity, c | c, NegInfinity => c
  end.

(** [Math.max] of three arguments. *)
Definition max3 (a b c : number) : number := max (max a b) c.

(** [Math.cos] and [Math.sin]. *)
Definition cos (a : number) : number :=
  match a with Num r => Num (Rtrigo_def.cos r) | _ => NaN end.

Definition sin (a : number) : number :=
  match a with Num r => Num (Rtrigo_def.sin r) | _ => NaN end.

(** [Math.PI] *)
Definition PI : number := Num Rtrigo1.PI.

Definition is_finite (a : number) : Prop :=
  match a with Num _ => True | _ => False end.

(** What a function call produces: a value, or a thrown error (for an
    [async] function, the rejection of its promise). *)
Inductive error : Type :=
| TypeError
| Error (message : string).

Inductive completion (A : Type) : Type :=
| Return (a : A)
| Throw (e : error).

Arguments Return {A} a.
Arguments Throw {A} e.

End JS.

Declare Scope js_scope.
Delimit Scope js_scope with js.
Bind Scope js_scope with JS.number.
Infix "+" := JS.add : js_scope.
Infix "-" := JS.sub : js_scope.
Infix "*" := JS.mul : js_scope.
Infix "/" := JS.div : js_scope.
Notation "- a" := (JS.neg a) : js_scope.

(* ================================================================== *)
(** * The three.js classes used by the program *)
(* ================================================================== *)

Module THREE.

Import JS.

(** ** Vector3 *)

Record Vector3 : Type := mkVector3 { x : number; y : number; z : number }.

(** [v.dot(w)] *)
Definition dot (v w : Vector3) : number :=
  (x v * x w + y v * y w + z v * z w)%js.

(** [v.cross(w)] *)
Definition cross (v w : Vector3) : Vector3 :=
  {| x := (y v * z w - z v * y w)%js;
     y := (z v * x w - x v * z w)%js;
     z := (x v * y w - y v * x w)%js |}.

(** [v.min(w)] and [v.max(w)], componentwise. *)
Definition vmin (v w : Vector3) : Vector3 :=
  {| x := min (x v) (x w); y := min (y v) (y w); z := min (z v) (z w) |}.

Definition vmax (v w : Vector3) : Vector3 :=
  {| x := max (x v) (x w); y := max (y v) (y w); z := max (z v) (z w) |}.

(** [target.subVectors(a, b)] and [target.addVectors(a, b)] *)
Definition subVectors (a b : Vector3) : Vector3 :=
  {| x := (x a - x b)%js; y := (y a - y b)%js; z := (z a - z b)%js |}.

Definition addVectors (a b : Vector3) : Vector3 :=
  {| x := (x a + x b)%js; y := (y a + y b)%js; z := (z a + z b)%js |}.

(** [v.multiplyScalar(s)] *)
Definition multiplyScalar (v : Vector3) (s : number) : Vector3 :=
  {| x := (x v * s)%js; y := (y v * s)%js; z := (z v * s)%js |}.

(** ** BufferAttribute (item size 3)

    The position attribute is a sequence of whole vertices; [count] is their
    number.  Reading a vertex past the end yields [undefined] components,
    which every arithmetic use turns into [NaN]: the model reads [NaN]. *)

Definition BufferAttribute : Type := list Vector3.

Definition count (attribute : BufferAttribute) : nat := length attribute.

Definition undefined_vertex : Vector3 := {| x := NaN; y := NaN; z := NaN |}.

(** [v.fromBufferAttribute(attribute, i)] *)
Definition fromBufferAttribute (attribute : BufferAttribute) (i : nat) : Vector3 :=
  nth i attribute undefined_vertex.

(** ** Box3 *)

Record Box3 : Type := mkBox3 { bmin : Vector3; bmax : Vector3 }.

(** [new THREE.Box3()] and [box.makeEmpty()]: min at +Infinity, max at
    -Infinity. *)
Definition makeEmpty : Box3 :=
  {| bmin := {| x := Infinity; y := Infinity; z := Infinity |};
     bmax := {| x := NegInfinity; y := NegInfinity; z := NegInfinity |} |}.

(** [box.expandByPoint(p)] *)
Definition expandByPoint (box : Box3) (p : Vector3) : Box3 :=
  {| bmin := vmin (bmin box) p; bmax := vmax (bmax box) p |}.

(** [box.setFromBufferAttribute(attribute)]: empty the box, then expand it
    by every vertex in order. *)
Definition setFromBufferAttribute (attribute : BufferAttribute) : Box3 :=
  fold_left expandByPoint attribute makeEmpty.

(** [box.isEmpty()] *)
Definition isEmpty (box : Box3) : bool :=
  lt (x (bmax box)) (x (bmin box))
  || lt (y (bmax box)) (y (bmin box))
  || lt (z (bmax box)) (z (bmin box)).

Definition zero_vector : Vector3 := {| x := Num 0; y := Num 0; z := Num 0 |}.

(** [box.getSize(target)] *)
Definition getSize (box : Box3) : Vector3 :=
  if isEmpty box then zero_vector else subVectors (bmax box) (bmin box).

(** [box.getCenter(target)] *)
Definition getCenter (box : Box3) : Vector3 :=
  if isEmpty box then zero_vector
  else multiplyScalar (addVectors (bmin box) (bmax box)) (Num (1 / 2)).

(** ** Matrix4, entries named by row and column as in [Matrix4.set]. *)

Record Matrix4 : Type := mkMatrix4 {
  n11 : number; n12 : number; n13 : number; n14 : number;
  n21 : number; n22 : number; n23 : number; n24 : number;
  n31 : number; n32 : number; n33 : number; n34 : number;
  n41 : number; n42 : number; n43 : number; n44 : number }.

(** [new THREE.Matrix4()] and [m.identity()] *)
Definition identity : Matrix4 :=
  mkMatrix4 (Num 1) (Num 0) (Num 0) (Num 0)
            (Num 0) (Num 1) (Num 0) (Num 0)
            (Num 0) (Num 0) (Num 1) (Num 0)
            (Num 0) (Num 0) (Num 0) (Num 1).

(** [m.makeRotationX(theta)] *)
Definition makeRotationX (theta : number) : Matrix4 :=
  let c := cos theta in
  let s := sin theta in
  mkMatrix4 (Num 1) (Num 0) (Num 0) (Num 0)
            (Num 0) c       (- s)%js (Num 0)
            (Num 0) s       c        (Num 0)
            (Num 0) (Num 0) (Num 0)  (Num 1).

(** [m.makeRotationY(theta)] *)
Definition makeRotationY (theta : number) : Matrix4 :=
  let c := cos theta in
  let s := sin theta in
  mkMatrix4 c        (Num 0) s       (Num 0)
            (Num 0)  (Num 1) (Num 0) (Num 0)
            (- s)%js (Num 0) c       (Num 0)
            (Num 0)  (Num 0) (Num 0) (Num 1).

(** [m.makeTranslation(tx, ty, tz)] *)
Definition makeTranslation (tx ty tz : number) : Matrix4 :=
  mkMatrix4 (Num 1) (Num 0) (Num 0) tx
            (Num 0) (Num 1) (Num 0) ty
            (Num 0) (Num 0) (Num 1) tz
            (Num 0) (Num 0) (Num 0) (Num 1).

(** [m.makeScale(sx, sy, sz)] *)
Definition makeScale (sx sy sz : number) : Matrix4 :=
  mkMatrix4 sx      (Num 0) (Num 0) (Num 0)
            (Num 0) sy      (Num 0) (Num 0)
            (Num 0) (Num 0) sz      (Num 0)
            (Num 0) (Num 0) (Num 0) (Num 1).

(** [target.multiplyMatrices(a, b)]: the product [a · b]. *)
Definition multiplyMatrices (a b : Matrix4) : Matrix4 :=
  mkMatrix4
    (n11 a * n11 b + n12 a * n21 b + n13 a * n31 b + n14 a * n41 b)%js
    (n11 a * n12 b + n12 a * n22 b + n13 a * n32 b + n14 a * n42 b)%js
    (n11 a * n13 b + n12 a * n23 b + n13 a * n33 b + n14 a * n43 b)%js
    (n11 a * n14 b + n12 a * n24 b + n13 a * n34 b + n14 a * n44 b)%js
    (n21 a * n11 b + n22 a * n21 b + n23 a * n31 b + n24 a * n41 b)%js
    (n21 a * n12 b + n22 a * n22 b + n23 a * n32 b + n24 a * n42 b)%js
    (n21 a * n13 b + n22 a * n23 b + n23 a * n33 b + n24 a * n43 b)%js
    (n21 a * n14 b + n22 a * n24 b + n23 a * n34 b + n24 a * n44 b)%js
    (n31 a * n11 b + n32 a * n21 b + n33 a * n31 b + n34 a * n41 b)%js
    (n31 a * n12 b + n32 a * n22 b + n33 a * n32 b + n34 a * n42 b)%js
    (n31 a * n13 b + n32 a * n23 b + n33 a * n33 b + n34 a * n43 b)%js
    (n31 a * n14 b + n32 a * n24 b + n33 a * n34 b + n34 a * n44 b)%js
    (n41 a * n11 b + n42 a * n21 b + n43 a * n31 b + n44 a * n41 b)%js
    (n41 a * n12 b + n42 a * n22 b + n43 a * n32 b + n44 a * n42 b)%js
    (n41 a * n13 b + n42 a * n23 b + n43 a * n33 b + n44 a * n43 b)%js
    (n41 a * n14 b + n42 a * n24 b + n43 a * n34 b + n44 a * n44 b)%js.

(** [a.multiply(b)]: [a] becomes [a · b] and is returned. *)
Definition multiply (a b : Matrix4) : Matrix4 := multiplyMatrices a b.

(** [v.applyMatrix4(m)], with its perspective divide. *)
Definition applyMatrix4 (v : Vector3) (m : Matrix4) : Vector3 :=
  let w := (Num 1 / (n41 m * x v + n42 m * y v + n43 m * z v + n44 m))%js in
  {| x := ((n11 m * x v + n12 m * y v + n13 m * z v + n14 m) * w)%js;
     y := ((n21 m * x v + n22 m * y v + n23 m * z v + n24 m) * w)%js;
     z := ((n31 m * x v + n32 m * y v + n33 m * z v + n34 m) * w)%js |}.

(** ** BufferGeometry

    Only the position attribute is kept; it may be absent.  Normals are
    derived data that no function below reads.  The cached bounding box is
    left out: every function below that reads a box recomputes it from the
    position attribute first. *)

Record BufferGeometry : Type := mkGeometry {
  position : option BufferAttribute }.

(** [geometry.getAttribute('position')] *)
Definition getAttribute_position (geometry : BufferGeometry) : option BufferAttribute :=
  position geometry.

(** [geometry.applyMatrix4(m)]: transforms every vertex of the position
    attribute, if there is one. *)
Definition geometry_applyMatrix4 (geometry : BufferGeometry) (m : Matrix4) : BufferGeometry :=
  match position geometry with
  | Some attribute =>
      {| position := Some (map (fun v => applyMatrix4 v m) attribute) |}
  | None => geometry
  end.

(** [geometry.translate(tx, ty, tz)] *)
Definition translate (geometry : BufferGeometry) (tx ty tz : number) : BufferGeometry :=
  geometry_applyMatrix4 geometry (makeTranslation tx ty tz).

(** [geometry.scale(sx, sy, sz)] *)
Definition scale (geometry : BufferGeometry) (sx sy sz : number) : BufferGeometry :=
  geometry_applyMatrix4 geometry (makeScale sx sy sz).

(** [geometry.computeBoundingBox()], as the box it stores: the box of the
    position attribute, or the empty box when there is none. *)
Definition geometry_boundingBox (geometry : BufferGeometry) : Box3 :=
  match position geometry with
  | Some attribute => setFromBufferAttribute attribute
  | None => makeEmpty
  end.

End THREE.

(* ================================================================== *)
(** * src/compare.js *)
(* ================================================================== *)

Module Compare.

Import JS THREE.

Record BoundingBox : Type := mkBoundingBox {
  box : Box3; size : Vector3; min : Vector3; max : Vector3 }.

(** [new THREE.Box3().setFromBufferAttribute(attribute)] where [attribute]
    may be [undefined]: reading [attribute.count] then throws. *)
Definition box_of_attribute (attribute : option BufferAttribute) : completion Box3 :=
  match attribute with
  | Some a => Return (setFromBufferAttribute a)
  | None => Throw TypeError
  end.

Definition computeBoundingBox (geometry : BufferGeometry) : completion BoundingBox :=
  match box_of_attribute (getAttribute_position geometry) with
  | Return b =>
      Return {| box := b; size := getSize b; min := bmin b; max := bmax b |}
  | Throw e => Throw e
  end.

Definition computeTriangleCount (geometry : BufferGeometry) : number :=
  match getAttribute_position geometry with
  | None => Num 0
  | Some position => (Num (INR (count position)) / Num 3)%js
  end.

(** The [for] loop of [computeApproxVolume]: [i] advances by 3 while
    [i < position.count].  [fuel] bounds the number of iterations;
    [position.count] iterations always suffice. *)
Fixpoint volume_loop (fuel : nat) (position : BufferAttribute) (i : nat)
    (volume : number) : number :=
  match fuel with
  | O => volume
  | S fuel' =>
      if (i <? count position)%nat then
        let p1 := fromBufferAttribute position i in
        let p2 := fromBufferAttribute position (i + 1) in
        let p3 := fromBufferAttribute position (i + 2) in
        volume_loop fuel' position (i + 3)
          (volume + dot p1 (cross p2 p3) / Num 6)%js
      else volume
  end.

Definition computeApproxVolume (geometry : BufferGeometry) : number :=
  match getAttribute_position geometry with
  | None => Num 0
  | Some position =>
      if (count position <? 3)%nat then Num 0
      else abs (volume_loop (count position) position 0 (Num 0))
  end.

Definition percentDifference (baseline student : number) : number :=
  if strict_eq baseline (Num 0) then
    (if strict_eq student (Num 0) then Num 0 else Infinity)
  else ((student - baseline) / baseline * Num 100)%js.

Record Measure : Type := mkMeasure {
  m_baseline : number; m_student : number; m_percentDifference : number }.

Definition measure (baseline student : number) : Measure :=
  {| m_baseline := baseline; m_student := student;
     m_percentDifference := percentDifference baseline student |}.

Record Report : Type := mkReport {
  boundingBoxes : BoundingBox * BoundingBox;
  triangleCounts : Measure;
  volumes : Measure;
  dimensions : Measure * Measure * Measure }.

Definition compareModels (baselineGeometry studentGeometry : BufferGeometry)
    : completion Report :=
  match computeBoundingBox baselineGeometry with
  | Throw e => Throw e
  | Return baselineBox =>
      match computeBoundingBox studentGeometry with
      | Throw e => Throw e
      | Return studentBox =>
          let baselineTriangles := computeTriangleCount baselineGeometry in
          let studentTriangles := computeTriangleCount studentGeometry in
          let baselineVolume := computeApproxVolume baselineGeometry in
          let studentVolume := computeApproxVolume studentGeometry in
          Return
            {| boundingBoxes := (baselineBox, studentBox);
               triangleCounts := measure baselineTriangles studentTriangles;
               volumes := measure baselineVolume studentVolume;
               dimensions :=
                 (measure (x (size baselineBox)) (x (size studentBox)),
                  measure (y (size baselineBox)) (y (size studentBox)),
                  measure (z (size baselineBox)) (z (size studentBox))) |}
      end
  end.

End Compare.

(* ================================================================== *)
(** * src/viewer.js *)
(* ================================================================== *)

Module Viewer.

Import JS THREE.

(** Geometries are objects: the viewer's variables and its meshes hold
    references to them. *)
Definition loc : Type := positive.

(** A [THREE.Mesh], as far as the program uses it. *)
Record Mesh : Type := mkMesh {
  geometry : loc;
  matrix : Matrix4;
  matrixAutoUpdate : bool;
  matrixWorldNeedsUpdate : bool }.

(** The two model meshes a scene can hold. *)
Inductive slot : Type := Baseline | Student.

#[global] Instance slot_eq_dec : EqDecision slot.
Proof. solve_decision. Defined.

(** The module-level variables of [viewer.js] and the store of geometry
    objects.  [scene] is [None] until [initViewer] has run; of its children
    only the model meshes are kept.  Camera, renderer and orbit controls are
    written by the rendering code only and are left out. *)
Record state : Type := mkState {
  heap : gmap loc BufferGeometry;
  scene : option (list slot);
  baselineMesh : option Mesh;
  studentMesh : option Mesh;
  baselineGeometry : option loc;
  studentGeometry : option loc;
  studentTransform : Matrix4 }.

(** The state when the module has been loaded. *)
Definition initial : state :=
  {| heap := ∅; scene := None;
     baselineMesh := None; studentMesh := None;
     baselineGeometry := None; studentGeometry := None;
     studentTransform := identity |}.

Definition set_heap (h : gmap loc BufferGeometry) (st : state) : state :=
  mkState h (scene st) (baselineMesh st) (studentMesh st)
          (baselineGeometry st) (studentGeometry st) (studentTransform st).

Definition set_scene (s : option (list slot)) (st : state) : state :=
  mkState (heap st) s (baselineMesh st) (studentMesh st)
          (baselineGeometry st) (studentGeometry st) (studentTransform st).

Definition set_baselineMesh (m : option Mesh) (st : state) : state :=
  mkState (heap st) (scene st) m (studentMesh st)
          (baselineGeometry st) (studentGeometry st) (studentTransform st).

Definition set_studentMesh (m : option Mesh) (st : state) : state :=
  mkState (heap st) (scene st) (baselineMesh st) m
          (baselineGeometry st) (studentGeometry st) (studentTransform st).

Definition set_baselineGeometry (g : option loc) (st : state) : state :=
  mkState (heap st) (scene st) (baselineMesh st) (studentMesh st)
          g (studentGeometry st) (studentTransform st).

Definition set_studentGeometry (g : option loc) (st : state) : state :=
  mkState (heap st) (scene st) (baselineMesh st) (studentMesh st)
          (baselineGeometry st) g (studentTransform st).

Definition set_studentTransform (t : Matrix4) (st : state) : state :=
  mkState (heap st) (scene st) (baselineMesh st) (studentMesh st)
          (baselineGeometry st) (studentGeometry st) t.

(** ** Computations over the viewer state that may throw *)

Definition M (A : Type) : Type := state -> completion A * state.

Definition ret {A} (a : A) : M A := fun st => (Return a, st).

Definition throw {A} (e : error) : M A := fun st => (Throw e, st).

Definition bind {A B} (m : M A) (k : A -> M B) : M B :=
  fun st =>
    match m st with
    | (Return a, st') => k a st'
    | (Throw e, st') => (Throw e, st')
    end.

Definition get : M state := fun st => (Return st, st).

Definition modify (f : state -> state) : M unit := fun st => (Return tt, f st).

Definition lift {A} (c : completion A) : M A := fun st => (c, st).

#[global] Instance M_ret : MRet M := @ret.
#[global] Instance M_bind : MBind M := fun A B k m => bind m k.

(** A new geometry object. *)
Definition alloc (g : BufferGeometry) : M loc :=
  fun st =>
    let l := fresh (dom (heap st)) in
    (Return l, set_heap (<[l := g]> (heap st)) st).

(** Reading through a reference.  A reference held by the program always
    points to an object; on a state where it does not, the read throws. *)
Definition read (l : loc) : M BufferGeometry :=
  fun st =>
    match heap st !! l with
    | Some g => (Return g, st)
    | None => (Throw TypeError, st)
    end.

(** In-place update of the object at [l]. *)
Definition update (l : loc) (f : BufferGeometry -> BufferGeometry) : M unit :=
  modify (fun st => set_heap (alter f l (heap st)) st).

(** [scene.remove(mesh)] and [scene.add(mesh)] *)
Definition scene_remove (s : slot) : M unit :=
  modify (fun st =>
    set_scene (option_map (filter (fun c => c <> s)) (scene st)) st).

Definition scene_add (s : slot) : M unit :=
  modify (fun st =>
    set_scene (option_map (fun cs => cs ++ [s]) (scene st)) st).

(** [initViewer]: a new scene (its lights, the camera, the renderer and the
    animation loop belong to rendering). *)
Definition initViewer : M unit :=
  modify (set_scene (Some [])).

(** [loadGeometryFromSource(source)].  What the STL loader makes of a source
    is an input of the model: a decoded geometry, or a failure.  A decoded
    geometry is a new object. *)
Definition loadGeometryFromSource (source : completion BufferGeometry) : M loc :=
  match source with
  | Return g => alloc g
  | Throw e => throw e
  end.

(** The effect of [centerGeometry(geometry)] on the geometry object. *)
Definition centerGeometry (g : BufferGeometry) : BufferGeometry :=
  let box := geometry_boundingBox g in
  let center := getCenter box in
  translate g (- x center)%js (- y center)%js (- z center)%js.

Definition computeMaxDimension (g : BufferGeometry) : completion number :=
  match Compare.box_of_attribute (getAttribute_position g) with
  | Return box =>
      let size := getSize box in
      Return (max3 (x size) (y size) (z size))
  | Throw e => Throw e
  end.

(** [buildMesh(geometry, material)]: a new mesh has the identity as local
    matrix and updates it automatically. *)
Definition buildMesh (geometry : loc) : Mesh :=
  {| geometry := geometry; matrix := identity;
     matrixAutoUpdate := true; matrixWorldNeedsUpdate := false |}.

(** [fitCameraToModels()] reads the meshes and writes the camera and the
    orbit controls only. *)
Definition fitCameraToModels : M unit := ret tt.

(** In the two loaders, [geometry.dispose()], [computeVertexNormals()] and
    the materials touch nothing the state keeps and are not written out. *)
Definition loadBaseline (source : completion BufferGeometry) : M loc :=
  st ← get;
  match scene st with
  | None => throw (Error "Viewer not initialized.")
  | Some _ =>
      (match baselineMesh st with
       | Some _ => scene_remove Baseline
       | None => ret tt
       end);;
      geometry ← loadGeometryFromSource source;
      update geometry centerGeometry;;
      modify (set_baselineMesh (Some (buildMesh geometry)));;
      modify (set_baselineGeometry (Some geometry));;
      scene_add Baseline;;
      fitCameraToModels;;
      ret geometry
  end.

Definition loadStudent (source : completion BufferGeometry) : M loc :=
  st ← get;
  match scene st with
  | None => throw (Error "Viewer not initialized.")
  | Some _ =>
      match baselineGeometry st with
      | None => throw (Error "Load the baseline before loading a student model.")
      | Some baseline =>
          (match studentMesh st with
           | Some _ => scene_remove Student
           | None => ret tt
           end);;
          geometry ← loadGeometryFromSource source;
          update geometry centerGeometry;;
          b ← read baseline;
          baselineMax ← lift (computeMaxDimension b);
          g ← read geometry;
          studentMax ← lift (computeMaxDimension g);
          let scale :=
            if gt studentMax (Num 0) then (baselineMax / studentMax)%js
            else Num 1 in
          update geometry (fun g => THREE.scale g scale scale scale);;
          modify (set_studentGeometry (Some geometry));;
          modify (set_studentTransform identity);;
          modify (fun st =>
            set_studentMesh
              (Some {| geometry := geometry;
                       matrix := studentTransform st;
                       matrixAutoUpdate := false;
                       matrixWorldNeedsUpdate := false |}) st);;
          scene_add Student;;
          fitCameraToModels;;
          ret geometry
      end
  end.

(** The rotation matrix [rotateStudent] builds, if the axis is one it
    knows. *)
Definition rotation_for (axis : string) (angle : number) : option Matrix4 :=
  if decide (axis = "x"%string) then Some (makeRotationX angle)
  else if decide (axis = "y"%string) then Some (makeRotationY angle)
  else None.

Definition rotateStudent (axis : string) (direction : number) : M unit :=
  st ← get;
  match studentMesh st, studentGeometry st with
  | Some mesh, Some _ =>
      let angle :=
        if gt direction (Num 0) then (PI / Num 2)%js else (- PI / Num 2)%js in
      match rotation_for axis angle with
      | None => ret tt
      | Some rotation =>
          modify (set_studentTransform (multiply rotation (studentTransform st)));;
          modify (fun st =>
            set_studentMesh
              (Some {| geometry := geometry mesh;
                       matrix := studentTransform st;
                       matrixAutoUpdate := matrixAutoUpdate mesh;
                       matrixWorldNeedsUpdate := true |}) st);;
          fitCameraToModels
      end
  | _, _ => ret tt
  end.

Definition resetStudentOrientation : M unit :=
  st ← get;
  match studentMesh st with
  | None => ret tt
  | Some mesh =>
      modify (set_studentTransform identity);;
      modify (fun st =>
        set_studentMesh
          (Some {| geometry := geometry mesh;
                   matrix := studentTransform st;
                   matrixAutoUpdate := matrixAutoUpdate mesh;
                   matrixWorldNeedsUpdate := true |}) st);;
      fitCameraToModels
  end.

(** The object [getNormalizedGeometries] returns; [None] is [null]. *)
Record Normalized : Type := mkNormalized { baseline : loc; student : loc }.

Definition getNormalizedGeometries : M (option Normalized) :=
  st ← get;
  match baselineGeometry st, studentGeometry st with
  | Some b, Some s =>
      g ← read s;
      studentClone ← alloc g;
      update studentClone (fun c => geometry_applyMatrix4 c (studentTransform st));;
      ret (Some {| baseline := b; student := studentClone |})
  | _, _ => ret None
  end.

(** ** Calls from the page *)

Inductive call : Type :=
| CallInitViewer
| CallLoadBaseline (source : completion BufferGeometry)
| CallLoadStudent (source : completion BufferGeometry)
| CallRotateStudent (axis : string) (direction : number)
| CallResetStudentOrientation
| CallGetNormalizedGeometries.

(** The state a call leaves behind.  Calls run one at a time: a loader
    finishes before the next call starts. *)
Definition exec (c : call) (st : state) : state :=
  match c with
  | CallInitViewer => snd (initViewer st)
  | CallLoadBaseline source => snd (loadBaseline source st)
  | CallLoadStudent source => snd (loadStudent source st)
  | CallRotateStudent axis direction => snd (rotateStudent axis direction st)
  | CallResetStudentOrientation => snd (resetStudentOrientation st)
  | CallGetNormalizedGeometries => snd (getNormalizedGeometries st)
  end.

Definition run (cs : list call) (st : state) : state :=
  fold_left (fun s c => exec c s) cs st.

(** The states the program can be in. *)
Definition reachable (st : state) : Prop :=
  exists cs, st = run cs initial.

End Viewer.

(* ================================================================== *)
(** * The page script appended to src/viewer.js (main.js) *)
(* ================================================================== *)

Module Page.

Import JS THREE Viewer.

(** What the status line shows: a fixed text, or the template
    [`Failed to load STL: ${err.message}`] filled with an error. *)
Inductive status_text : Type :=
| Text (s : string)
| FailedToLoad (e : error).

(** The metrics table: as the document has it, the text
    ['No metrics available yet.'], or the table rendered from a report.  The
    formatting of the numbers is left out: the table is kept as the report it
    was rendered from. *)
Inductive table : Type :=
| Untouched
| NoMetrics
| Rendered (r : Compare.Report).

(** The viewer together with the two elements of the page the script
    writes: the status line, with its error colouring, and the metrics
    table. *)
Record page : Type := mkPage {
  viewer : Viewer.state;
  status : status_text * bool;
  metricsTable : table }.

Definition set_viewer (v : Viewer.state) (pg : page) : page :=
  mkPage v (status pg) (metricsTable pg).

(** [setStatus(message, isError = false)] *)
Definition setStatus (message : status_text) (isError : bool) (pg : page) : page :=
  mkPage (viewer pg) (message, isError) (metricsTable pg).

(** [renderMetricsTable(result)]; [None] is a falsy argument. *)
Definition renderMetricsTable (result : option Compare.Report) (pg : page) : page :=
  match result with
  | None => mkPage (viewer pg) (status pg) NoMetrics
  | Some r => mkPage (viewer pg) (status pg) (Rendered r)
  end.

(** [updateMetrics()].  The two geometries it passes to [compareModels] are
    read through the references [getNormalizedGeometries] returned. *)
Definition updateMetrics (pg : page) : completion unit * page :=
  match getNormalizedGeometries (viewer pg) with
  | (Throw e, v) => (Throw e, set_viewer v pg)
  | (Return None, v) => (Return tt, set_viewer v pg)
  | (Return (Some geometries), v) =>
      match heap v !! baseline geometries, heap v !! student geometries with
      | Some b, Some s =>
          match Compare.compareModels b s with
          | Return result =>
              (Return tt, renderMetricsTable (Some result) (set_viewer v pg))
          | Throw e => (Throw e, set_viewer v pg)
          end
      | _, _ => (Throw TypeError, set_viewer v pg)
      end
  end.

(** [handleLoadModels()].  What the loader makes of the two chosen inputs is
    given; every failure inside the [try] block ends in the [catch] block. *)
Definition handleLoadModels (baselineSource studentSource : completion BufferGeometry)
    (pg : page) : page :=
  let pg1 := setStatus (Text "Loading baseline…") false pg in
  match loadBaseline baselineSource (viewer pg1) with
  | (Throw e, v) => setStatus (FailedToLoad e) true (set_viewer v pg1)
  | (Return _, v) =>
      let pg2 := setStatus (Text "Loading student model…") false (set_viewer v pg1) in
      match loadStudent studentSource (viewer pg2) with
      | (Throw e, v') => setStatus (FailedToLoad e) true (set_viewer v' pg2)
      | (Return _, v') =>
          match updateMetrics (set_viewer v' pg2) with
          | (Throw e, pg3) => setStatus (FailedToLoad e) true pg3
          | (Return _, pg3) =>
              setStatus (Text "Models loaded. Use the orientation controls if needed.")
                false pg3
          end
      end
  end.

(** The click handler [rotateAndReport(axis, direction)]; a failure of
    [updateMetrics] escapes it. *)
Definition rotateAndReport (axis : string) (direction : number) (pg : page)
    : completion unit * page :=
  let v := snd (rotateStudent axis direction (viewer pg)) in
  match updateMetrics (set_viewer v pg) with
  | (Throw e, pg') => (Throw e, pg')
  | (Return _, pg') =>
      (Return tt, setStatus (Text "Student orientation adjusted. Metrics refreshed.") false pg')
  end.

(** The click handler of the reset button. *)
Definition resetAndReport (pg : page) : completion unit * page :=
  let v := snd (resetStudentOrientation (viewer pg)) in
  match updateMetrics (set_viewer v pg) with
  | (Throw e, pg') => (Throw e, pg')
  | (Return _, pg') =>
      (Return tt, setStatus (Text "Student orientation reset to default.") false pg')
  end.

(** [main()]: the viewer is initialised and the status line says so. *)
Definition main : page :=
  {| viewer := snd (initViewer Viewer.initial);
     status := (Text "Ready. Load the models to begin.", false);
     metricsTable := Untouched |}.

(** ** The event log of version 1.1.0 *)

Definition LOG_LIMIT : nat := 30.

(** A list item of the log: the level its badge is classed with, and the
    time of day and the message its text is made of. *)
Record LogItem : Type := mkLogItem {
  level : string;
  time : string;
  message : string }.

(** [trimLog(list)]: while the list has more than [LOG_LIMIT] children, its
    first child is removed. *)
Fixpoint trimLog (children : list LogItem) : list LogItem :=
  match children with
  | [] => []
  | _ :: rest =>
      if (LOG_LIMIT <? length children)%nat then trimLog rest else children
  end.

(** [appendEventLog(message, level = 'info')] on the log element, at the
    time of day [now]. *)
Definition appendEventLog (now : string) (message level : string)
    (eventLog : list LogItem) : list LogItem :=
  trimLog (eventLog ++ [ {| level := level; time := now; message := message |} ]).

End Page.

(* ================================================================== *)
(** * Real-valued meshes *)
(* ================================================================== *)

(** The meshes of the data model: vertex positions with three real
    components each.  The definitions of this part are the vocabulary of
    the statements below; none of them is used by the program. *)

Module RMesh.

Import JS THREE.

Record point : Type := pt { px : R; py : R; pz : R }.

(** A point as a [Vector3]. *)
Definition vnum (p : point) : Vector3 :=
  {| x := Num (px p); y := Num (py p); z := Num (pz p) |}.

(** The geometry whose position attribute holds the given points. *)
Definition geometry_of (vs : list point) : BufferGeometry :=
  {| position := Some (map vnum vs) |}.

Definition rdot (p q : point) : R :=
  px p * px q + py p * py q + pz p * pz q.

Definition rcross (p q : point) : point :=
  {| px := py p * pz q - pz p * py q;
     py := pz p * px q - px p * pz q;
     pz := px p * py q - py p * px q |}.

(** Signed volume of the tetrahedron spanned by the origin and a triangle:
    [p1 · (p2 × p3) / 6]. *)
Definition tetrahedron (p1 p2 p3 : point) : R := rdot p1 (rcross p2 p3) / 6.

(** The sum of the signed tetrahedron volumes over consecutive triangles. *)
Fixpoint signed_volume (vs : list point) : R :=
  match vs with
  | p1 :: p2 :: p3 :: rest => tetrahedron p1 p2 p3 + signed_volume rest
  | _ => 0
  end.

(** The same triangles with the opposite winding. *)
Fixpoint flip_winding (vs : list point) : list point :=
  match vs with
  | p1 :: p2 :: p3 :: rest => p1 :: p3 :: p2 :: flip_winding rest
  | _ => vs
  end.

(** Uniform scaling of a point. *)
Definition scale_point (s : R) (p : point) : point :=
  {| px := s * px p; py := s * py p; pz := s * pz p |}.

(** Componentwise order. *)
Definition point_le (p q : point) : Prop :=
  px p <= px q /\ py p <= py q /\ pz p <= pz q.

(** Least and greatest value of a coordinate [f] over the points [vs],
    starting from [a]. *)
Definition least (f : point -> R) (a : R) (vs : list point) : R :=
  fold_left (fun m p => Rmin m (f p)) vs a.

Definition greatest (f : point -> R) (a : R) (vs : list point) : R :=
  fold_left (fun m p => Rmax m (f p)) vs a.

(** The corners of the axis-aligned box of the non-empty list [v :: vs]. *)
Definition lower_corner (v : point) (vs : list point) : point :=
  {| px := least px (px v) vs; py := least py (py v) vs; pz := least pz (pz v) vs |}.

Definition upper_corner (v : point) (vs : list point) : point :=
  {| px := greatest px (px v) vs; py := greatest py (py v) vs;
     pz := greatest pz (pz v) vs |}.

Definition psub (p q : point) : point :=
  {| px := px p - px q; py := py p - py q; pz := pz p - pz q |}.

(** The largest side of the box of a list of points; [0] for no points. *)
Definition max_extent (vs : list point) : R :=
  match vs with
  | [] => 0
  | v :: vs' =>
      let d := psub (upper_corner v vs') (lower_corner v vs') in
      Rmax (Rmax (px d) (py d)) (pz d)
  end.

(** The centre of the box of a list of points; the origin for no points. *)
Definition box_centre (vs : list point) : point :=
  match vs with
  | [] => pt 0 0 0
  | v :: vs' =>
      let lo := lower_corner v vs' in
      let hi := upper_corner v vs' in
      {| px := (px lo + px hi) * (1 / 2);
         py := (py lo + py hi) * (1 / 2);
         pz := (pz lo + pz hi) * (1 / 2) |}
  end.

(** The points moved so that the centre of their box is the origin. *)
Definition centred (vs : list point) : list point :=
  map (fun p => psub p (box_centre vs)) vs.

(** Every entry of a matrix is a finite number. *)
Definition finite_matrix (m : Matrix4) : Prop :=
  is_finite (n11 m) /\ is_finite (n12 m) /\ is_finite (n13 m) /\ is_finite (n14 m) /\
  is_finite (n21 m) /\ is_finite (n22 m) /\ is_finite (n23 m) /\ is_finite (n24 m) /\
  is_finite (n31 m) /\ is_finite (n32 m) /\ is_finite (n33 m) /\ is_finite (n34 m) /\
  is_finite (n41 m) /\ is_finite (n42 m) /\ is_finite (n43 m) /\ is_finite (n44 m).

(** The four quarter turns, written out. *)
Definition quarter_x_pos : Matrix4 :=
  mkMatrix4 (Num 1) (Num 0) (Num 0)    (Num 0)
            (Num 0) (Num 0) (Num (-1)) (Num 0)
            (Num 0) (Num 1) (Num 0)    (Num 0)
            (Num 0) (Num 0) (Num 0)    (Num 1).

Definition quarter_x_neg : Matrix4 :=
  mkMatrix4 (Num 1) (Num 0)    (Num 0) (Num 0)
            (Num 0) (Num 0)    (Num 1) (Num 0)
            (Num 0) (Num (-1)) (Num 0) (Num 0)
            (Num 0) (Num 0)    (Num 0) (Num 1).

(** The half turn about X. *)
Definition half_x : Matrix4 :=
  mkMatrix4 (Num 1) (Num 0)    (Num 0)    (Num 0)
            (Num 0) (Num (-1)) (Num 0)    (Num 0)
            (Num 0) (Num 0)    (Num (-1)) (Num 0)
            (Num 0) (Num 0)    (Num 0)    (Num 1).

Definition quarter_y_pos : Matrix4 :=
  mkMatrix4 (Num 0)    (Num 0) (Num 1) (Num 0)
            (Num 0)    (Num 1) (Num 0) (Num 0)
            (Num (-1)) (Num 0) (Num 0) (Num 0)
            (Num 0)    (Num 0) (Num 0) (Num 1).

Definition quarter_y_neg : Matrix4 :=
  mkMatrix4 (Num 0) (Num 0) (Num (-1)) (Num 0)
            (Num 0) (Num 1) (Num 0)    (Num 0)
            (Num 1) (Num 0) (Num 0)    (Num 0)
            (Num 0) (Num 0) (Num 0)    (Num 1).

(** ** Vocabulary for the viewer *)

(** The direction test of [rotateStudent]: the angle it turns by. *)
Definition quarter_angle (direction : number) : number :=
  if gt direction (Num 0) then (PI / Num 2)%js else (- PI / Num 2)%js.

(** The mesh object after its matrix has been overwritten by [t]. *)
Definition with_matrix (t : Matrix4) (mesh : Viewer.Mesh) : Viewer.Mesh :=
  {| Viewer.geometry := Viewer.geometry mesh;
     Viewer.matrix := t;
     Viewer.matrixAutoUpdate := Viewer.matrixAutoUpdate mesh;
     Viewer.matrixWorldNeedsUpdate := true |}.

(** The state once the orientation has been set to [t] on a loaded student
    mesh. *)
Definition oriented (t : Matrix4) (mesh : Viewer.Mesh) (st : Viewer.state) : Viewer.state :=
  Viewer.set_studentMesh (Some (with_matrix t mesh)) (Viewer.set_studentTransform t st).

(** The calls of the orientation composer. *)
Definition orientation_call (c : Viewer.call) : Prop :=
  match c with
  | Viewer.CallRotateStudent _ _ | Viewer.CallResetStudentOrientation => True
  | _ => False
  end.

(** What holds of the orientation in every state the program reaches: its
    entries are finite, and it is the identity while no student is loaded. *)
Definition orientation_invariant (st : Viewer.state) : Prop :=
  finite_matrix (Viewer.studentTransform st) /\
  (Viewer.studentMesh st = None -> Viewer.studentTransform st = identity).

(** A small session used to instantiate the statements below: a triangle
    as baseline, the same triangle twice as large and off centre as
    student. *)
Definition sample_baseline : list point := [pt 0 0 0; pt 2 0 0; pt 0 1 0].

Definition sample_student : list point := [pt 1 1 1; pt 5 1 1; pt 1 3 1].

Definition baseline_session : list Viewer.call :=
  [Viewer.CallInitViewer;
   Viewer.CallLoadBaseline (Return (geometry_of sample_baseline))].

Definition student_session : list Viewer.call :=
  baseline_session ++ [Viewer.CallLoadStudent (Return (geometry_of sample_student))].

(** A few orientation calls in a row. *)
Definition sample_turns : list Viewer.call :=
  [Viewer.CallRotateStudent "x" (Num 1); Viewer.CallResetStudentOrientation;
   Viewer.CallRotateStudent "y" (Num (-1)); Viewer.CallRotateStudent "x" (Num 1)].

(** Position attributes whose vertex count is, and is not, a multiple of
    three. *)
Definition four_vertices : BufferAttribute := map vnum (sample_baseline ++ [pt 1 1 1]).

Definition six_vertices : BufferAttribute := map vnum (sample_baseline ++ sample_student).

(** The scale factor [loadStudent] applies, on real extents. *)
Definition scale_factor (baselineMax studentMax : R) : R :=
  if decide (0 < studentMax) then baselineMax / studentMax else 1.

End RMesh.

(* ================================================================== *)
(** * Further vocabulary *)
(* ================================================================== *)

(** Definitions used by the statements of the later parts; none of them is
    used by the program. *)

Module Derived.

Import JS THREE RMesh.

(** ** Reports on real meshes *)

(** The size of the box of a list of points; zero for no points. *)
Definition box_size (vs : list point) : point :=
  match vs with
  | [] => pt 0 0 0
  | v :: vs' => psub (upper_corner v vs') (lower_corner v vs')
  end.

(** The percent difference of two real measures. *)
Definition score (b c : R) : number :=
  if decide (b = 0) then (if decide (c = 0) then Num 0 else Infinity)
  else Num ((c - b) / b * 100).

(** A line of the report that holds the real measures [b] and [c] and
    their score. *)
Definition real_measure (m : Compare.Measure) (b c : R) : Prop :=
  m = {| Compare.m_baseline := Num b; Compare.m_student := Num c;
         Compare.m_percentDifference := score b c |}.

(** The percent differences of a report, in the order triangle count,
    volume, x, y, z. *)
Definition scores (r : Compare.Report) : list number :=
  [Compare.m_percentDifference (Compare.triangleCounts r);
   Compare.m_percentDifference (Compare.volumes r);
   Compare.m_percentDifference (fst (fst (Compare.dimensions r)));
   Compare.m_percentDifference (snd (fst (Compare.dimensions r)));
   Compare.m_percentDifference (snd (Compare.dimensions r))].

(** ** The viewer's variables *)

(** How the variables of [viewer.js] hang together. *)
Record well_formed (st : Viewer.state) : Prop := mkWellFormed {
  wf_baseline_stored :
    forall b, Viewer.baselineGeometry st = Some b -> is_Some (Viewer.heap st !! b);
  wf_student_stored :
    forall s, Viewer.studentGeometry st = Some s ->
      exists g, Viewer.heap st !! s = Some g /\ is_Some (position g);
  wf_student_mesh :
    match Viewer.studentMesh st with
    | Some m =>
        Viewer.studentGeometry st = Some (Viewer.geometry m) /\
        Viewer.matrix m = Viewer.studentTransform st
    | None => Viewer.studentGeometry st = None
    end;
  wf_baseline_mesh :
    match Viewer.baselineMesh st with
    | Some m => Viewer.baselineGeometry st = Some (Viewer.geometry m)
    | None => Viewer.baselineGeometry st = None
    end;
  wf_student_after_baseline :
    is_Some (Viewer.studentGeometry st) -> is_Some (Viewer.baselineGeometry st);
  wf_baseline_after_init :
    is_Some (Viewer.baselineGeometry st) -> is_Some (Viewer.scene st);
  wf_distinct :
    forall b s, Viewer.baselineGeometry st = Some b ->
      Viewer.studentGeometry st = Some s -> b <> s }.

(** The store only grows: every object of [h] is in [h'], unchanged. *)
Definition store_extends (h h' : gmap Viewer.loc BufferGeometry) : Prop :=
  forall l g, h !! l = Some g -> h' !! l = Some g.

(** ** Quarter turns on real points *)

Inductive turn : Type := TurnXPos | TurnXNeg | TurnYPos | TurnYNeg.

(** The matrix [rotateStudent] multiplies by for each turn. *)
Definition quarter_matrix (t : turn) : Matrix4 :=
  match t with
  | TurnXPos => quarter_x_pos
  | TurnXNeg => quarter_x_neg
  | TurnYPos => quarter_y_pos
  | TurnYNeg => quarter_y_neg
  end.

(** A quarter turn as a map on points. *)
Definition turn_point (t : turn) (p : point) : point :=
  match t with
  | TurnXPos => pt (px p) (- pz p) (py p)
  | TurnXNeg => pt (px p) (pz p) (- py p)
  | TurnYPos => pt (pz p) (py p) (- px p)
  | TurnYNeg => pt (- pz p) (py p) (px p)
  end.

(** Turns in a row; the head of the list is the one made last. *)
Definition turns (ts : list turn) (p : point) : point :=
  fold_right turn_point p ts.

(** What a quarter turn does to the sides of a box: about X it exchanges
    the Y and Z sides, about Y the X and Z sides. *)
Definition turn_size (t : turn) (s : point) : point :=
  match t with
  | TurnXPos | TurnXNeg => pt (px s) (pz s) (py s)
  | TurnYPos | TurnYNeg => pt (pz s) (py s) (px s)
  end.

(** A real 3 by 3 matrix. *)
Record matrix3 : Type := mkMatrix3 {
  a11 : R; a12 : R; a13 : R;
  a21 : R; a22 : R; a23 : R;
  a31 : R; a32 : R; a33 : R }.

Definition identity3 : matrix3 := mkMatrix3 1 0 0 0 1 0 0 0 1.

(** The 4 by 4 matrix of a linear map: no translation, no perspective. *)
Definition homogeneous (a : matrix3) : Matrix4 :=
  mkMatrix4 (Num (a11 a)) (Num (a12 a)) (Num (a13 a)) (Num 0)
            (Num (a21 a)) (Num (a22 a)) (Num (a23 a)) (Num 0)
            (Num (a31 a)) (Num (a32 a)) (Num (a33 a)) (Num 0)
            (Num 0)       (Num 0)       (Num 0)       (Num 1).

Definition apply3 (a : matrix3) (p : point) : point :=
  pt (a11 a * px p + a12 a * py p + a13 a * pz p)
     (a21 a * px p + a22 a * py p + a23 a * pz p)
     (a31 a * px p + a32 a * py p + a33 a * pz p).

(** The product of the matrix of a quarter turn with [a]: the rows of [a],
    exchanged and negated. *)
Definition turn_rows (t : turn) (a : matrix3) : matrix3 :=
  match t with
  | TurnXPos =>
      mkMatrix3 (a11 a) (a12 a) (a13 a)
                (- a31 a) (- a32 a) (- a33 a)
                (a21 a) (a22 a) (a23 a)
  | TurnXNeg =>
      mkMatrix3 (a11 a) (a12 a) (a13 a)
                (a31 a) (a32 a) (a33 a)
                (- a21 a) (- a22 a) (- a23 a)
  | TurnYPos =>
      mkMatrix3 (a31 a) (a32 a) (a33 a)
                (a21 a) (a22 a) (a23 a)
                (- a11 a) (- a12 a) (- a13 a)
  | TurnYNeg =>
      mkMatrix3 (- a31 a) (- a32 a) (- a33 a)
                (a21 a) (a22 a) (a23 a)
                (a11 a) (a12 a) (a13 a)
  end.

(** The matrix of turns in a row. *)
Definition turns_matrix (ts : list turn) : matrix3 :=
  fold_right turn_rows identity3 ts.

(** Rows of length one, at right angles to each other. *)
Definition orthonormal (a : matrix3) : Prop :=
  a11 a * a11 a + a12 a * a12 a + a13 a * a13 a = 1 /\
  a21 a * a21 a + a22 a * a22 a + a23 a * a23 a = 1 /\
  a31 a * a31 a + a32 a * a32 a + a33 a * a33 a = 1 /\
  a11 a * a21 a + a12 a * a22 a + a13 a * a23 a = 0 /\
  a11 a * a31 a + a12 a * a32 a + a13 a * a33 a = 0 /\
  a21 a * a31 a + a22 a * a32 a + a23 a * a33 a = 0.

Definition determinant (a : matrix3) : R :=
  a11 a * (a22 a * a33 a - a23 a * a32 a)
  - a12 a * (a21 a * a33 a - a23 a * a31 a)
  + a13 a * (a21 a * a32 a - a22 a * a31 a).

(** Every entry is [-1], [0] or [1]. *)
Definition axis_aligned (a : matrix3) : Prop :=
  Forall (fun e => e = -1 \/ e = 0 \/ e = 1)
    [a11 a; a12 a; a13 a; a21 a; a22 a; a23 a; a31 a; a32 a; a33 a].

(** Four quarter turns about X, as calls. *)
Definition four_turns (axis : string) : list Viewer.call :=
  [Viewer.CallRotateStudent axis (Num 1); Viewer.CallRotateStudent axis (Num 1);
   Viewer.CallRotateStudent axis (Num 1); Viewer.CallRotateStudent axis (Num 1)].

(** The orientation is the matrix of some turns in a row. *)
Definition turned (st : Viewer.state) : Prop :=
  exists ts : list turn, Viewer.studentTransform st = homogeneous (turns_matrix ts).

(** The size [computeBoundingBox] reports for a geometry is the real
    vector [s]. *)
Definition box_size_is (g : BufferGeometry) (s : point) : Prop :=
  exists bb : Compare.BoundingBox,
    Compare.computeBoundingBox g = Return bb /\ Compare.size bb = vnum s.

(** ** Copies of a mesh at another size and place *)

(** The point [p] scaled by [k] and moved by [d]. *)
Definition affine_point (k : R) (d p : point) : point :=
  pt (k * px p + px d) (k * py p + py d) (k * pz p + pz d).

End Derived.

(* ================================================================== *)
(** * Arithmetic on finite numbers *)
(* ================================================================== *)

Import JS THREE RMesh.

Section FiniteArithmetic.

Lemma div_num (r s : R) : s <> 0 -> (Num r / Num s)%js = Num (r / s).
Proof. intros Hs. unfold div. destruct (decide (s = 0)); [ contradiction | reflexivity ]. Qed.

Lemma strict_eq_num (r s : R) : strict_eq (Num r) (Num s) = bool_decide (r = s).
Proof. reflexivity. Qed.

Lemma lt_num (r s : R) : lt (Num r) (Num s) = bool_decide (r < s).
Proof. reflexivity. Qed.

Lemma dot_vnum (p q : point) : dot (vnum p) (vnum q) = Num (rdot p q).
Proof. reflexivity. Qed.

Lemma cross_vnum (p q : point) : cross (vnum p) (vnum q) = vnum (rcross p q).
Proof. reflexivity. Qed.

Lemma tetrahedron_vnum (p1 p2 p3 : point) :
  (dot (vnum p1) (cross (vnum p2) (vnum p3)) / Num 6)%js = Num (tetrahedron p1 p2 p3).
Proof. rewrite cross_vnum, dot_vnum, div_num by lra. reflexivity. Qed.

End FiniteArithmetic.

(* ================================================================== *)
(** * compare.js: percent difference and triangle count *)
(* ================================================================== *)

Section PercentDifference.

Import Compare.

Lemma percentDifference_real_cases (b c : R) :
  (b = 0 -> c = 0 -> percentDifference (Num b) (Num c) = Num 0) /\
  (b = 0 -> c <> 0 -> percentDifference (Num b) (Num c) = Infinity) /\
  (b <> 0 -> percentDifference (Num b) (Num c) = Num ((c - b) / b * 100)).
Proof.
  unfold percentDifference. rewrite !strict_eq_num.
  repeat split.
  - intros -> ->. rewrite bool_decide_eq_true_2 by reflexivity. reflexivity.
  - intros -> Hc. rewrite bool_decide_eq_true_2 by reflexivity.
    rewrite bool_decide_eq_false_2 by assumption. reflexivity.
  - intros Hb. rewrite bool_decide_eq_false_2 by assumption.
    cbn [sub]. rewrite div_num by assumption. reflexivity.
Qed.

(** C1.  On real inputs [percentDifference baseline student] is [0] when both
    are [0], [Infinity] when only the baseline is [0], and
    [(student - baseline) / baseline * 100] otherwise; in particular it is
    [0] on equal inputs, zero included. *)
Theorem percentDifference_real (b c : R) :
  (b = 0 -> c = 0 -> percentDifference (Num b) (Num c) = Num 0) /\
  (b = 0 -> c <> 0 -> percentDifference (Num b) (Num c) = Infinity) /\
  (b <> 0 -> percentDifference (Num b) (Num c) = Num ((c - b) / b * 100)) /\
  percentDifference (Num b) (Num b) = Num 0.
Proof.
  destruct (percentDifference_real_cases b c) as (Hzero & Hinf & Hrel).
  repeat split; try assumption.
  destruct (Req_dec_T b 0) as [-> | Hb].
  - apply (percentDifference_real_cases 0 0); reflexivity.
  - rewrite (proj2 (proj2 (percentDifference_real_cases b b))) by assumption.
    f_equal. field. assumption.
Qed.

Lemma percentDifference_real_witness :
  percentDifference (Num 0) (Num 0) = Num 0 /\
  percentDifference (Num 0) (Num 5) = Infinity /\
  percentDifference (Num 4) (Num 5) = Num ((5 - 4) / 4 * 100).
Proof.
  split; [ | split ].
  - apply (percentDifference_real 0 0); reflexivity.
  - apply (percentDifference_real 0 5); [ reflexivity | lra ].
  - apply (percentDifference_real 4 5); lra.
Defined.

(** Twice as many triangles as the baseline is a difference of 100
    percent. *)
Example percentDifference_doubled :
  percentDifference (Num 12) (Num 24) = Num 100.
Proof.
  rewrite (proj2 (proj2 (percentDifference_real_cases 12 24))) by lra.
  f_equal. lra.
Qed.

End PercentDifference.

Section TriangleCount.

Import Compare.

(** C10.  A geometry without a position attribute has triangle count [0];
    [computeTriangleCount] returns a number and raises nothing. *)
Theorem computeTriangleCount_no_position :
  computeTriangleCount {| position := None |} = Num 0.
Proof. reflexivity. Qed.

Lemma computeTriangleCount_position (vs : BufferAttribute) :
  computeTriangleCount {| position := Some vs |} = Num (INR (length vs) / 3).
Proof.
  unfold computeTriangleCount, getAttribute_position, count. cbn [position].
  apply div_num. lra.
Qed.

Lemma four_thirds_not_integer (k : Z) : 4 / 3 <> IZR k.
Proof.
  intros H.
  assert (H3 : IZR (3 * k) = IZR 4) by (rewrite mult_IZR; lra).
  apply eq_IZR in H3. lia.
Qed.

(** C3, refuted as stated.  On four vertices, a count that is not a multiple
    of three, [computeTriangleCount] returns the number [4 / 3]: no failure,
    and not an integer. *)
Lemma computeTriangleCount_four_vertices :
  computeTriangleCount {| position := Some four_vertices |} = Num (4 / 3) /\
  ~ (exists k : Z, computeTriangleCount {| position := Some four_vertices |} = Num (IZR k)).
Proof.
  rewrite computeTriangleCount_position.
  replace (INR (length four_vertices)) with 4 by (simpl; lra).
  split; [ reflexivity | ].
  intros [k Hk]. injection Hk as Hk. exact (four_thirds_not_integer k Hk).
Qed.

(** C3, amended.  [computeTriangleCount] does not validate its input: for
    a position attribute of [n] vertices it returns the quotient [n / 3],
    which is the integer [k] whenever [n = 3 * k]. *)
Theorem computeTriangleCount_quotient (vs : BufferAttribute) :
  computeTriangleCount {| position := Some vs |} = Num (INR (length vs) / 3) /\
  (forall k : nat, length vs = (3 * k)%nat ->
     computeTriangleCount {| position := Some vs |} = Num (INR k)).
Proof.
  split; [ apply computeTriangleCount_position | ].
  intros k Hk. rewrite computeTriangleCount_position, Hk, mult_INR.
  f_equal. simpl. field.
Qed.

Lemma computeTriangleCount_quotient_witness :
  computeTriangleCount {| position := Some six_vertices |} = Num (INR 2).
Proof.
  apply (proj2 (computeTriangleCount_quotient six_vertices) 2%nat).
  reflexivity.
Defined.

End TriangleCount.

(* ================================================================== *)
(** * compare.js: approximate volume *)
(* ================================================================== *)

Section ApproxVolume.

Import Compare.

Lemma fromBufferAttribute_app (pre suf : list point) (j : nat) :
  fromBufferAttribute (map vnum (pre ++ suf)) (length pre + j) =
  fromBufferAttribute (map vnum suf) j.
Proof.
  unfold fromBufferAttribute.
  rewrite map_app, app_nth2 by (rewrite length_map; lia).
  rewrite length_map. f_equal. lia.
Qed.

Lemma fromBufferAttribute_app_0 (pre suf : list point) :
  fromBufferAttribute (map vnum (pre ++ suf)) (length pre) =
  fromBufferAttribute (map vnum suf) 0.
Proof.
  rewrite <- (fromBufferAttribute_app pre suf 0). f_equal. lia.
Qed.

(** The loop, started at the [i]-th vertex with whole triangles left, adds
    their signed volumes to the accumulator; one unit of fuel per triangle is
    enough. *)
Lemma volume_loop_triangles (k : nat) :
  forall (pre suf : list point) (acc : R) (fuel : nat),
    length suf = (3 * k)%nat -> (k <= fuel)%nat ->
    volume_loop fuel (map vnum (pre ++ suf)) (length pre) (Num acc) =
    Num (acc + signed_volume suf).
Proof.
  induction k as [ | k IH ]; intros pre suf acc fuel Hlen Hfuel.
  - destruct suf; [ | discriminate ].
    assert (Hi : (length pre <? count (map vnum (pre ++ [])))%nat = false).
    { apply Nat.ltb_ge. unfold count. rewrite length_map, length_app. simpl. lia. }
    destruct fuel; simpl; [ | rewrite Hi ]; f_equal; lra.
  - destruct fuel as [ | fuel ]; [ lia | ].
    destruct suf as [ | p1 [ | p2 [ | p3 rest ] ] ]; try (simpl in Hlen; lia).
    cbn [volume_loop].
    assert (Hi : (length pre <? count (map vnum (pre ++ p1 :: p2 :: p3 :: rest)))%nat = true).
    { apply Nat.ltb_lt. unfold count. rewrite length_map, length_app. simpl. lia. }
    rewrite Hi.
    rewrite !fromBufferAttribute_app, fromBufferAttribute_app_0.
    cbn [fromBufferAttribute map nth].
    rewrite tetrahedron_vnum. cbn [add].
    replace (pre ++ p1 :: p2 :: p3 :: rest) with ((pre ++ [p1; p2; p3]) ++ rest)
      by (rewrite <- app_assoc; reflexivity).
    replace (length pre + 3)%nat with (length (pre ++ [p1; p2; p3]))
      by (rewrite length_app; reflexivity).
    rewrite IH by (simpl in Hlen; lia).
    f_equal. cbn [signed_volume]. lra.
Qed.

Lemma computeApproxVolume_short (g : BufferGeometry) (vs : BufferAttribute) :
  position g = Some vs -> (length vs < 3)%nat -> computeApproxVolume g = Num 0.
Proof.
  intros Hp Hlen. unfold computeApproxVolume, getAttribute_position.
  rewrite Hp. unfold count.
  destruct (Nat.ltb_spec (length vs) 3); [ reflexivity | lia ].
Qed.

Lemma computeApproxVolume_triangles (vs : list point) :
  (length vs mod 3 = 0)%nat ->
  computeApproxVolume (geometry_of vs) = Num (Rabs (signed_volume vs)).
Proof.
  intros Hmod.
  destruct (Nat.ltb_spec (length vs) 3) as [Hshort | Hlong].
  - rewrite (computeApproxVolume_short _ (map vnum vs))
      by (rewrite ?length_map; trivial).
    destruct vs as [ | p1 [ | p2 [ | p3 rest ] ] ]; simpl in *; try lia;
      try discriminate; rewrite ?Rabs_R0; reflexivity.
  - unfold computeApproxVolume, geometry_of, getAttribute_position.
    cbn [position]. unfold count at 1. rewrite length_map.
    destruct (Nat.ltb_spec (length vs) 3) as [ | _ ]; [ lia | ].
    apply Nat.Div0.div_exact in Hmod.
    pose proof (volume_loop_triangles (length vs / 3) [] vs 0
                  (count (map vnum vs)) Hmod) as Hloop.
    cbn [app length] in Hloop. rewrite Hloop.
    + cbn [abs]. do 2 f_equal. lra.
    + unfold count. rewrite length_map. apply Nat.Div0.div_le_upper_bound. lia.
Qed.

(** Swapping two vertices of every triangle negates the signed sum. *)
Lemma signed_volume_flip (k : nat) :
  forall vs : list point, length vs = (3 * k)%nat ->
    signed_volume (flip_winding vs) = - signed_volume vs.
Proof.
  induction k as [ | k IH ]; intros vs Hlen.
  - destruct vs; [ simpl; lra | discriminate ].
  - destruct vs as [ | p1 [ | p2 [ | p3 rest ] ] ]; try (simpl in Hlen; lia).
    cbn [flip_winding signed_volume].
    rewrite IH by (simpl in Hlen; lia).
    unfold tetrahedron, rdot, rcross. cbn [px py pz]. field.
Qed.

Lemma flip_winding_length (k : nat) :
  forall vs : list point, length vs = (3 * k)%nat ->
    length (flip_winding vs) = length vs.
Proof.
  induction k as [ | k IH ]; intros vs Hlen.
  - destruct vs; [ reflexivity | discriminate ].
  - destruct vs as [ | p1 [ | p2 [ | p3 rest ] ] ]; try (simpl in Hlen; lia).
    cbn [flip_winding length]. rewrite IH by (simpl in Hlen; lia). reflexivity.
Qed.

Lemma computeApproxVolume_degenerate (g : BufferGeometry) :
  match position g with
  | Some a => (length a < 3)%nat
  | None => True
  end ->
  computeApproxVolume g = Num 0.
Proof.
  destruct (position g) as [ a | ] eqn:Hp; intros Hlen.
  - exact (computeApproxVolume_short g a Hp Hlen).
  - unfold computeApproxVolume, getAttribute_position. rewrite Hp. reflexivity.
Qed.

(** C2.  For a mesh (real vertices, a whole number of triangles)
    [computeApproxVolume] returns the absolute value of the sum of the signed
    tetrahedron volumes [p1 · (p2 × p3) / 6] over consecutive triangles: a
    real number that is never negative, and the same for the opposite
    winding.  A geometry with fewer than three vertices gives [0]. *)
Theorem computeApproxVolume_mesh (vs : list point) :
  (length vs mod 3 = 0)%nat ->
  (exists r : R,
     computeApproxVolume (geometry_of vs) = Num r /\
     r = Rabs (signed_volume vs) /\
     0 <= r) /\
  computeApproxVolume (geometry_of (flip_winding vs)) = computeApproxVolume (geometry_of vs) /\
  (forall g : BufferGeometry,
     match position g with
     | Some a => (length a < 3)%nat
     | None => True
     end ->
     computeApproxVolume g = Num 0).
Proof.
  intros Hmod. split; [ | split ].
  - exists (Rabs (signed_volume vs)).
    split; [ apply computeApproxVolume_triangles, Hmod | ].
    split; [ reflexivity | apply Rabs_pos ].
  - pose proof Hmod as Hdiv. apply Nat.Div0.div_exact in Hdiv.
    rewrite !computeApproxVolume_triangles.
    + rewrite (signed_volume_flip _ vs Hdiv), Rabs_Ropp. reflexivity.
    + exact Hmod.
    + rewrite (flip_winding_length _ vs Hdiv). exact Hmod.
  - apply computeApproxVolume_degenerate.
Qed.

(** One triangle; the tetrahedron it spans with the origin has volume
    [1/6]. *)
Lemma computeApproxVolume_mesh_witness :
  exists r : R,
    computeApproxVolume (geometry_of [pt 1 0 0; pt 0 1 0; pt 0 0 1]) = Num r /\
    r = Rabs (signed_volume [pt 1 0 0; pt 0 1 0; pt 0 0 1]) /\
    0 <= r.
Proof.
  apply (computeApproxVolume_mesh [pt 1 0 0; pt 0 1 0; pt 0 0 1]).
  reflexivity.
Defined.

Example unit_tetrahedron_volume :
  computeApproxVolume (geometry_of [pt 1 0 0; pt 0 1 0; pt 0 0 1]) = Num (1 / 6).
Proof.
  rewrite computeApproxVolume_triangles by reflexivity.
  f_equal. cbn [signed_volume]. unfold tetrahedron, rdot, rcross. cbn [px py pz].
  rewrite Rabs_right; lra.
Qed.

(** Outside the mesh invariant the loop reads past the end: four vertices
    make the second triangle undefined and the volume [NaN]. *)
Example computeApproxVolume_four_vertices :
  computeApproxVolume
    (geometry_of [pt 1 0 0; pt 0 1 0; pt 0 0 1; pt 1 1 1]) = NaN.
Proof.
  unfold computeApproxVolume, geometry_of, getAttribute_position.
  cbn [position map count length Nat.ltb Nat.leb volume_loop
       fromBufferAttribute nth Nat.add].
  rewrite tetrahedron_vnum. reflexivity.
Qed.

End ApproxVolume.

(* ================================================================== *)
(** * The box of a list of real points *)
(* ================================================================== *)

Section Extremes.

Variable f : point -> R.

Lemma least_le_init (vs : list point) (a : R) : least f a vs <= a.
Proof.
  revert a. induction vs as [ | p vs IH ]; intros a; cbn.
  - lra.
  - etransitivity; [ apply IH | apply Rmin_l ].
Qed.

Lemma least_le_in (vs : list point) (a : R) (p : point) :
  In p vs -> least f a vs <= f p.
Proof.
  revert a. induction vs as [ | q vs IH ]; intros a Hin; [ contradiction | ].
  cbn. destruct Hin as [-> | Hin].
  - etransitivity; [ apply least_le_init | apply Rmin_r ].
  - apply IH, Hin.
Qed.

Lemma least_attained (vs : list point) (a : R) :
  least f a vs = a \/ exists p, In p vs /\ least f a vs = f p.
Proof.
  revert a. induction vs as [ | q vs IH ]; intros a; cbn; [ left; reflexivity | ].
  destruct (IH (Rmin a (f q))) as [Heq | (p & Hin & Heq)].
  - unfold least in Heq. rewrite Heq.
    destruct (Rmin_case a (f q) (fun m => m = a \/ m = f q)) as [Hm | Hm]; auto.
    right. exists q. split; [ left; reflexivity | assumption ].
  - right. exists p. split; [ right; assumption | assumption ].
Qed.

Lemma greatest_ge_init (vs : list point) (a : R) : a <= greatest f a vs.
Proof.
  revert a. induction vs as [ | p vs IH ]; intros a; cbn.
  - lra.
  - etransitivity; [ apply Rmax_l | apply IH ].
Qed.

Lemma greatest_ge_in (vs : list point) (a : R) (p : point) :
  In p vs -> f p <= greatest f a vs.
Proof.
  revert a. induction vs as [ | q vs IH ]; intros a Hin; [ contradiction | ].
  cbn. destruct Hin as [-> | Hin].
  - etransitivity; [ apply Rmax_r | apply greatest_ge_init ].
  - apply IH, Hin.
Qed.

Lemma greatest_attained (vs : list point) (a : R) :
  greatest f a vs = a \/ exists p, In p vs /\ greatest f a vs = f p.
Proof.
  revert a. induction vs as [ | q vs IH ]; intros a; cbn; [ left; reflexivity | ].
  destruct (IH (Rmax a (f q))) as [Heq | (p & Hin & Heq)].
  - unfold greatest in Heq. rewrite Heq.
    destruct (Rmax_case a (f q) (fun m => m = a \/ m = f q)) as [Hm | Hm]; auto.
    right. exists q. split; [ left; reflexivity | assumption ].
  - right. exists p. split; [ right; assumption | assumption ].
Qed.

Lemma least_le_greatest (vs : list point) (a : R) : least f a vs <= greatest f a vs.
Proof.
  etransitivity; [ apply least_le_init | apply greatest_ge_init ].
Qed.

End Extremes.

Section BoxOfPoints.

(** Expanding a finite box by real points keeps it finite and folds [Rmin]
    and [Rmax] over each coordinate. *)
Lemma expand_fold (vs : list point) :
  forall lo hi : point,
    fold_left expandByPoint (map vnum vs) (mkBox3 (vnum lo) (vnum hi)) =
    mkBox3 (vnum (lower_corner lo vs)) (vnum (upper_corner hi vs)).
Proof.
  induction vs as [ | p vs IH ]; intros lo hi.
  - destruct lo, hi. reflexivity.
  - cbn [map fold_left].
    change (expandByPoint (mkBox3 (vnum lo) (vnum hi)) (vnum p))
      with (mkBox3 (vnum (pt (Rmin (px lo) (px p)) (Rmin (py lo) (py p)) (Rmin (pz lo) (pz p))))
                   (vnum (pt (Rmax (px hi) (px p)) (Rmax (py hi) (py p)) (Rmax (pz hi) (pz p))))).
    rewrite IH. reflexivity.
Qed.

Lemma setFromBufferAttribute_points (v : point) (vs : list point) :
  setFromBufferAttribute (map vnum (v :: vs)) =
  mkBox3 (vnum (lower_corner v vs)) (vnum (upper_corner v vs)).
Proof.
  unfold setFromBufferAttribute. cbn [map fold_left].
  change (expandByPoint makeEmpty (vnum v)) with (mkBox3 (vnum v) (vnum v)).
  apply expand_fold.
Qed.

Lemma isEmpty_points (v : point) (vs : list point) :
  isEmpty (mkBox3 (vnum (lower_corner v vs)) (vnum (upper_corner v vs))) = false.
Proof.
  unfold isEmpty. cbn [bmin bmax vnum x y z lower_corner upper_corner px py pz].
  rewrite !lt_num.
  rewrite !bool_decide_eq_false_2; [ reflexivity | | | ];
    apply Rle_not_lt, least_le_greatest.
Qed.

Lemma getSize_points (v : point) (vs : list point) :
  getSize (mkBox3 (vnum (lower_corner v vs)) (vnum (upper_corner v vs))) =
  vnum (psub (upper_corner v vs) (lower_corner v vs)).
Proof. unfold getSize. rewrite isEmpty_points. reflexivity. Qed.

Lemma lower_corner_bound (v : point) (vs : list point) (p : point) :
  In p (v :: vs) -> point_le (lower_corner v vs) p.
Proof.
  intros [<- | Hin]; unfold point_le, lower_corner; cbn [px py pz];
    auto using least_le_init, least_le_in.
Qed.

Lemma upper_corner_bound (v : point) (vs : list point) (p : point) :
  In p (v :: vs) -> point_le p (upper_corner v vs).
Proof.
  intros [<- | Hin]; unfold point_le, upper_corner; cbn [px py pz];
    auto using greatest_ge_init, greatest_ge_in.
Qed.

Lemma least_touches (f : point -> R) (v : point) (vs : list point) :
  exists p, In p (v :: vs) /\ f p = least f (f v) vs.
Proof.
  destruct (least_attained f vs (f v)) as [Heq | (p & Hin & Heq)].
  - exists v. split; [ left; reflexivity | symmetry; assumption ].
  - exists p. split; [ right; assumption | symmetry; assumption ].
Qed.

Lemma greatest_touches (f : point -> R) (v : point) (vs : list point) :
  exists p, In p (v :: vs) /\ f p = greatest f (f v) vs.
Proof.
  destruct (greatest_attained f vs (f v)) as [Heq | (p & Hin & Heq)].
  - exists v. split; [ left; reflexivity | symmetry; assumption ].
  - exists p. split; [ right; assumption | symmetry; assumption ].
Qed.

End BoxOfPoints.

(* ================================================================== *)
(** * compare.js: bounding box *)
(* ================================================================== *)

Section BoundingBox.

Import Compare.

(** C4, refuted as stated.  On a position attribute with no vertices
    [computeBoundingBox] does not fail: it returns the empty box, with
    corners at the infinities and size zero. *)
Lemma computeBoundingBox_no_vertices :
  computeBoundingBox {| position := Some [] |} =
  Return {| box := makeEmpty;
            size := {| x := Num 0; y := Num 0; z := Num 0 |};
            min := {| x := Infinity; y := Infinity; z := Infinity |};
            max := {| x := NegInfinity; y := NegInfinity; z := NegInfinity |} |}.
Proof. reflexivity. Qed.

(** C4, amended.  [computeBoundingBox] has no empty-mesh failure: with no
    vertices it returns the empty box (min at [Infinity], max at
    [-Infinity], size zero).  For a non-empty mesh it returns the
    axis-aligned box of the vertices: [min] and [max] bound every vertex,
    each of their coordinates is the coordinate of some vertex, every size
    component is at least [0], and [min + size = max]. *)
Theorem computeBoundingBox_extents :
  computeBoundingBox (geometry_of []) =
    Return {| box := makeEmpty;
              size := {| x := Num 0; y := Num 0; z := Num 0 |};
              min := {| x := Infinity; y := Infinity; z := Infinity |};
              max := {| x := NegInfinity; y := NegInfinity; z := NegInfinity |} |} /\
  forall (v : point) (vs : list point),
  exists lo hi sz : point,
    computeBoundingBox (geometry_of (v :: vs)) =
      Return {| box := mkBox3 (vnum lo) (vnum hi);
                size := vnum sz; min := vnum lo; max := vnum hi |} /\
    Forall (fun p => point_le lo p /\ point_le p hi) (v :: vs) /\
    Exists (fun p => px p = px lo) (v :: vs) /\
    Exists (fun p => py p = py lo) (v :: vs) /\
    Exists (fun p => pz p = pz lo) (v :: vs) /\
    Exists (fun p => px p = px hi) (v :: vs) /\
    Exists (fun p => py p = py hi) (v :: vs) /\
    Exists (fun p => pz p = pz hi) (v :: vs) /\
    0 <= px sz /\ 0 <= py sz /\ 0 <= pz sz /\
    px lo + px sz = px hi /\ py lo + py sz = py hi /\ pz lo + pz sz = pz hi.
Proof.
  split; [ reflexivity | ].
  intros v vs.
  exists (lower_corner v vs), (upper_corner v vs),
         (psub (upper_corner v vs) (lower_corner v vs)).
  split.
  { unfold computeBoundingBox, geometry_of, getAttribute_position, box_of_attribute.
    cbn [position]. rewrite setFromBufferAttribute_points, getSize_points.
    reflexivity. }
  split.
  { apply List.Forall_forall. intros p Hp.
    split; [ apply lower_corner_bound | apply upper_corner_bound ]; exact Hp. }
  repeat split;
    try (apply List.Exists_exists; cbn [lower_corner upper_corner px py pz];
         first [ apply least_touches | apply greatest_touches ]);
    cbn [psub lower_corner upper_corner px py pz];
    try (pose proof (least_le_greatest px vs (px v));
         pose proof (least_le_greatest py vs (py v));
         pose proof (least_le_greatest pz vs (pz v)); lra).
Qed.

End BoundingBox.

(* ================================================================== *)
(** * viewer.js: the orientation composer *)
(* ================================================================== *)

Import Viewer.

(** Unfolds the sequencing of viewer computations. *)
Ltac unfold_M :=
  unfold mbind, M_bind, bind, get, modify, ret, throw, lift,
    scene_remove, scene_add, fitCameraToModels, loadGeometryFromSource.

Section QuarterTurns.

Lemma quarter_angle_cases (direction : number) :
  quarter_angle direction = Num (Rtrigo1.PI / 2) \/
  quarter_angle direction = Num (- (Rtrigo1.PI / 2)).
Proof.
  unfold quarter_angle. destruct (gt direction (Num 0)).
  - left. apply div_num. lra.
  - right. cbn [PI neg]. rewrite div_num by lra. f_equal. lra.
Qed.

Lemma quarter_angle_pos : quarter_angle (Num 1) = Num (Rtrigo1.PI / 2).
Proof.
  unfold quarter_angle, gt. rewrite lt_num, bool_decide_eq_true_2 by lra.
  apply div_num. lra.
Qed.

Lemma quarter_angle_neg : quarter_angle (Num (-1)) = Num (- (Rtrigo1.PI / 2)).
Proof.
  unfold quarter_angle, gt. rewrite lt_num, bool_decide_eq_false_2 by lra.
  cbn [PI neg]. rewrite div_num by lra. f_equal. lra.
Qed.

Lemma makeRotationX_quarter_pos : makeRotationX (Num (Rtrigo1.PI / 2)) = quarter_x_pos.
Proof.
  unfold makeRotationX, quarter_x_pos. cbn [cos sin neg].
  rewrite cos_PI2, sin_PI2. reflexivity.
Qed.

Lemma makeRotationX_quarter_neg : makeRotationX (Num (- (Rtrigo1.PI / 2))) = quarter_x_neg.
Proof.
  unfold makeRotationX, quarter_x_neg. cbn [cos sin neg].
  rewrite cos_neg, sin_neg, cos_PI2, sin_PI2, Ropp_involutive. reflexivity.
Qed.

Lemma makeRotationY_quarter_pos : makeRotationY (Num (Rtrigo1.PI / 2)) = quarter_y_pos.
Proof.
  unfold makeRotationY, quarter_y_pos. cbn [cos sin neg].
  rewrite cos_PI2, sin_PI2. reflexivity.
Qed.

Lemma makeRotationY_quarter_neg : makeRotationY (Num (- (Rtrigo1.PI / 2))) = quarter_y_neg.
Proof.
  unfold makeRotationY, quarter_y_neg. cbn [cos sin neg].
  rewrite cos_neg, sin_neg, cos_PI2, sin_PI2, Ropp_involutive. reflexivity.
Qed.

Lemma rotation_for_x (angle : number) : rotation_for "x" angle = Some (makeRotationX angle).
Proof. reflexivity. Qed.

Lemma rotation_for_y (angle : number) : rotation_for "y" angle = Some (makeRotationY angle).
Proof. reflexivity. Qed.

Lemma rotation_for_other (axis : string) (angle : number) :
  axis <> "x"%string -> axis <> "y"%string -> rotation_for axis angle = None.
Proof.
  intros Hx Hy. unfold rotation_for.
  destruct (decide (axis = "x"%string)); [ contradiction | ].
  destruct (decide (axis = "y"%string)); [ contradiction | reflexivity ].
Qed.

End QuarterTurns.

Section Rotate.

(** What [rotateStudent] does, by cases on its guards. *)
Lemma rotateStudent_unfold (axis : string) (direction : number) (st : state) :
  rotateStudent axis direction st =
  match studentMesh st, studentGeometry st with
  | Some mesh, Some _ =>
      match rotation_for axis (quarter_angle direction) with
      | Some rotation =>
          (Return tt, oriented (multiply rotation (studentTransform st)) mesh st)
      | None => (Return tt, st)
      end
  | _, _ => (Return tt, st)
  end.
Proof.
  unfold rotateStudent. unfold_M. fold (quarter_angle direction).
  destruct (studentMesh st) as [ mesh | ]; [ | reflexivity ].
  destruct (studentGeometry st); [ | reflexivity ].
  destruct (rotation_for axis (quarter_angle direction)); reflexivity.
Qed.

Lemma resetStudentOrientation_unfold (st : state) :
  resetStudentOrientation st =
  match studentMesh st with
  | Some mesh => (Return tt, oriented identity mesh st)
  | None => (Return tt, st)
  end.
Proof.
  unfold resetStudentOrientation. unfold_M.
  destruct (studentMesh st); reflexivity.
Qed.

(** C5.  With a student loaded, [rotateStudent] on axis [x] or [y] with
    direction [+1] or [-1] replaces the transform [T] by [R · T], where [R]
    is the quarter turn about that axis, by +90 degrees for [+1] and by -90
    degrees for [-1]; on any other axis the call returns normally and leaves
    the whole state unchanged. *)
Theorem rotateStudent_left_multiplies (st : state) (mesh : Viewer.Mesh) (g : loc) :
  studentMesh st = Some mesh ->
  studentGeometry st = Some g ->
  let T := studentTransform st in
  (fst (rotateStudent "x" (Num 1) st) = Return tt /\
   studentTransform (snd (rotateStudent "x" (Num 1) st)) = multiplyMatrices quarter_x_pos T) /\
  (fst (rotateStudent "x" (Num (-1)) st) = Return tt /\
   studentTransform (snd (rotateStudent "x" (Num (-1)) st)) = multiplyMatrices quarter_x_neg T) /\
  (fst (rotateStudent "y" (Num 1) st) = Return tt /\
   studentTransform (snd (rotateStudent "y" (Num 1) st)) = multiplyMatrices quarter_y_pos T) /\
  (fst (rotateStudent "y" (Num (-1)) st) = Return tt /\
   studentTransform (snd (rotateStudent "y" (Num (-1)) st)) = multiplyMatrices quarter_y_neg T) /\
  (forall (axis : string) (direction : number),
     axis <> "x"%string -> axis <> "y"%string ->
     rotateStudent axis direction st = (Return tt, st)).
Proof.
  intros Hmesh Hgeom T.
  repeat split;
    try (rewrite rotateStudent_unfold, Hmesh, Hgeom;
         rewrite ?rotation_for_x, ?rotation_for_y; reflexivity).
  - rewrite rotateStudent_unfold, Hmesh, Hgeom, rotation_for_x, quarter_angle_pos,
      makeRotationX_quarter_pos. reflexivity.
  - rewrite rotateStudent_unfold, Hmesh, Hgeom, rotation_for_x, quarter_angle_neg,
      makeRotationX_quarter_neg. reflexivity.
  - rewrite rotateStudent_unfold, Hmesh, Hgeom, rotation_for_y, quarter_angle_pos,
      makeRotationY_quarter_pos. reflexivity.
  - rewrite rotateStudent_unfold, Hmesh, Hgeom, rotation_for_y, quarter_angle_neg,
      makeRotationY_quarter_neg. reflexivity.
  - intros axis direction Hx Hy.
    rewrite rotateStudent_unfold, Hmesh, Hgeom, rotation_for_other by assumption.
    reflexivity.
Qed.

End Rotate.

(* ================================================================== *)
(** * viewer.js: the orientation in reachable states *)
(* ================================================================== *)

Section OrientationInvariant.

(** Turns the finiteness of matrix entries into entries of the form
    [Num r]. *)
Ltac finite_entries :=
  repeat match goal with
  | H : is_finite ?n |- _ =>
      destruct n; cbn [is_finite] in H; [ clear H | contradiction .. ]
  end.

Lemma finite_matrix_identity : finite_matrix identity.
Proof. repeat split. Qed.

Lemma finite_matrix_multiply (a b : Matrix4) :
  finite_matrix a -> finite_matrix b -> finite_matrix (multiply a b).
Proof.
  destruct a, b. unfold finite_matrix, multiply, multiplyMatrices.
  cbn [n11 n12 n13 n14 n21 n22 n23 n24 n31 n32 n33 n34 n41 n42 n43 n44].
  intros Ha Hb.
  repeat match goal with H : _ /\ _ |- _ => destruct H end.
  finite_entries. repeat split.
Qed.

Lemma finite_matrix_rotation (axis : string) (direction : number) (rotation : Matrix4) :
  rotation_for axis (quarter_angle direction) = Some rotation -> finite_matrix rotation.
Proof.
  unfold rotation_for. intros H.
  destruct (quarter_angle_cases direction) as [Ha | Ha]; rewrite Ha in H;
    repeat case_decide; inversion H; subst; repeat split.
Qed.

Lemma loadBaseline_orientation (source : completion BufferGeometry) (st : state) :
  studentMesh (snd (loadBaseline source st)) = studentMesh st /\
  studentTransform (snd (loadBaseline source st)) = studentTransform st.
Proof.
  unfold loadBaseline. unfold_M. unfold update, alloc. unfold_M.
  destruct (scene st); [ | split; reflexivity ].
  destruct (baselineMesh st), source; split; reflexivity.
Qed.

(** [loadStudent], flattened: its guards, the failures it can pass on, and
    the state it builds. *)
Lemma loadStudent_unfold (source : completion BufferGeometry) (st : state) :
  loadStudent source st =
  match scene st with
  | None => (Throw (Error "Viewer not initialized."), st)
  | Some children =>
    match baselineGeometry st with
    | None => (Throw (Error "Load the baseline before loading a student model."), st)
    | Some bl =>
      let st1 :=
        match studentMesh st with
        | Some _ => set_scene (Some (filter (fun c => c <> Student) children)) st
        | None => st
        end in
      match source with
      | Throw e => (Throw e, st1)
      | Return g0 =>
        let l := fresh (dom (heap st)) in
        let g1 := centerGeometry g0 in
        let h2 := <[l := g1]> (heap st) in
        let st2 := set_heap h2 st1 in
        match h2 !! bl with
        | None => (Throw TypeError, st2)
        | Some b =>
          match computeMaxDimension b with
          | Throw e => (Throw e, st2)
          | Return baselineMax =>
            match computeMaxDimension g1 with
            | Throw e => (Throw e, st2)
            | Return studentMax =>
              let s :=
                if gt studentMax (Num 0) then (baselineMax / studentMax)%js
                else Num 1 in
              (Return l,
               {| heap := <[l := scale g1 s s s]> (heap st);
                  scene := option_map (fun cs => cs ++ [Student]) (scene st1);
                  baselineMesh := baselineMesh st;
                  studentMesh :=
                    Some {| geometry := l; matrix := identity;
                            matrixAutoUpdate := false;
                            matrixWorldNeedsUpdate := false |};
                  baselineGeometry := baselineGeometry st;
                  studentGeometry := Some l;
                  studentTransform := identity |})
            end
          end
        end
      end
    end
  end.
Proof.
  unfold loadStudent. unfold_M. unfold update, alloc, read. unfold_M.
  destruct (scene st) as [ children | ] eqn:Hscene; [ | reflexivity ].
  destruct (baselineGeometry st) as [ bl | ] eqn:Hbl; [ | reflexivity ].
  destruct (studentMesh st) eqn:Hmesh, source as [ g0 | e ];
    cbn [heap scene baselineMesh studentMesh baselineGeometry studentGeometry
         studentTransform set_heap set_scene set_studentMesh set_studentGeometry
         set_studentTransform fst snd option_map];
    rewrite ?Hscene; cbn [option_map];
    try reflexivity;
    rewrite alter_insert_eq;
    (destruct (<[fresh (dom (heap st)) := centerGeometry g0]> (heap st) !! bl) as [ b | ];
       [ | reflexivity ]);
    (destruct (computeMaxDimension b); [ | reflexivity ]);
    cbn [heap scene baselineMesh studentMesh baselineGeometry studentGeometry
         studentTransform set_heap set_scene set_studentMesh set_studentGeometry
         set_studentTransform fst snd option_map];
    rewrite lookup_insert_eq;
    (destruct (computeMaxDimension (centerGeometry g0)); [ | reflexivity ]);
    cbn [heap scene baselineMesh studentMesh baselineGeometry studentGeometry
         studentTransform set_heap set_scene set_studentMesh set_studentGeometry
         set_studentTransform fst snd option_map];
    rewrite alter_insert_eq;
    unfold set_scene, set_studentMesh, set_studentTransform, set_studentGeometry,
      set_heap;
    cbn [heap scene baselineMesh studentMesh baselineGeometry studentGeometry
         studentTransform];
    rewrite ?Hscene, ?Hbl; reflexivity.
Qed.

Lemma loadStudent_orientation (source : completion BufferGeometry) (st : state) :
  (studentMesh (snd (loadStudent source st)) = studentMesh st /\
   studentTransform (snd (loadStudent source st)) = studentTransform st) \/
  (studentTransform (snd (loadStudent source st)) = identity).
Proof.
  rewrite loadStudent_unfold.
  destruct (scene st); [ | left; split; reflexivity ].
  destruct (baselineGeometry st); [ | left; split; reflexivity ].
  cbv zeta.
  assert (Hframe : forall h e,
    studentMesh (snd (Throw (A := loc) e, set_heap h
      match studentMesh st with
      | Some _ => set_scene (Some (filter (fun c => c <> Student) l)) st
      | None => st
      end)) = studentMesh st /\
    studentTransform (snd (Throw (A := loc) e, set_heap h
      match studentMesh st with
      | Some _ => set_scene (Some (filter (fun c => c <> Student) l)) st
      | None => st
      end)) = studentTransform st).
  { intros h e. destruct (studentMesh st) eqn:Hm; cbn; rewrite ?Hm; split; reflexivity. }
  destruct source as [ g0 | e ].
  - destruct (_ !! _) as [ b | ]; [ | left; apply Hframe ].
    destruct (computeMaxDimension b); [ | left; apply Hframe ].
    destruct (computeMaxDimension (centerGeometry g0)); [ | left; apply Hframe ].
    right. reflexivity.
  - left. destruct (studentMesh st) eqn:Hm; cbn; rewrite ?Hm; split; reflexivity.
Qed.

Lemma getNormalizedGeometries_orientation (st : state) :
  studentMesh (snd (getNormalizedGeometries st)) = studentMesh st /\
  studentTransform (snd (getNormalizedGeometries st)) = studentTransform st.
Proof.
  unfold getNormalizedGeometries. unfold_M. unfold update, alloc, read. unfold_M.
  repeat (case_match; cbn [fst snd] in *; simplify_eq); split; reflexivity.
Qed.

(** Preserve: every call keeps the invariant. *)
Lemma exec_orientation_invariant (c : call) (st : state) :
  orientation_invariant st -> orientation_invariant (exec c st).
Proof.
  intros Hinv. pose proof Hinv as [Hfin Hid].
  destruct c as [ | source | source | axis direction | | ]; cbn [exec].
  - exact Hinv.
  - destruct (loadBaseline_orientation source st) as [Hm Ht].
    unfold orientation_invariant. rewrite Hm, Ht. exact Hinv.
  - destruct (loadStudent_orientation source st) as [[Hm Ht] | Ht];
      unfold orientation_invariant; rewrite Ht.
    + rewrite Hm. exact Hinv.
    + split; [ apply finite_matrix_identity | reflexivity ].
  - rewrite rotateStudent_unfold.
    destruct (studentMesh st) as [ mesh | ]; [ | exact Hinv ].
    destruct (studentGeometry st); [ | exact Hinv ].
    destruct (rotation_for axis (quarter_angle direction)) as [ rotation | ] eqn:Hrot;
      [ | exact Hinv ].
    split; cbn.
    + apply finite_matrix_multiply; [ | assumption ].
      eapply finite_matrix_rotation, Hrot.
    + discriminate.
  - rewrite resetStudentOrientation_unfold.
    destruct (studentMesh st); [ | exact Hinv ].
    split; cbn; [ apply finite_matrix_identity | reflexivity ].
  - destruct (getNormalizedGeometries_orientation st) as [Hm Ht].
    unfold orientation_invariant. rewrite Hm, Ht. exact Hinv.
Qed.

Lemma run_orientation_invariant (cs : list call) (st : state) :
  orientation_invariant st -> orientation_invariant (run cs st).
Proof.
  revert st. induction cs as [ | c cs IH ]; intros st Hinv; [ exact Hinv | ].
  cbn. apply IH, exec_orientation_invariant, Hinv.
Qed.

(** Establish and use: the invariant holds in every reachable state. *)
Lemma reachable_orientation_invariant (st : state) :
  reachable st -> orientation_invariant st.
Proof.
  intros [cs ->]. apply run_orientation_invariant.
  split; [ apply finite_matrix_identity | reflexivity ].
Qed.

Lemma reachable_exec (c : call) (st : state) : reachable st -> reachable (exec c st).
Proof.
  intros [cs ->]. exists (cs ++ [c]). unfold run. rewrite fold_left_app. reflexivity.
Qed.

(** Products of matrices with explicit real entries. *)
Ltac matrix_product :=
  unfold multiply, multiplyMatrices;
  cbn [n11 n12 n13 n14 n21 n22 n23 n24 n31 n32 n33 n34 n41 n42 n43 n44 add mul];
  f_equal; f_equal; lra.

Lemma quarter_x_once : multiply quarter_x_pos identity = quarter_x_pos.
Proof. unfold quarter_x_pos, identity. matrix_product. Qed.

Lemma quarter_x_twice : multiply quarter_x_pos quarter_x_pos = half_x.
Proof. unfold quarter_x_pos, half_x. matrix_product. Qed.

Lemma quarter_x_thrice : multiply quarter_x_pos half_x = quarter_x_neg.
Proof. unfold quarter_x_pos, half_x, quarter_x_neg. matrix_product. Qed.

Lemma quarter_x_fourth : multiply quarter_x_pos quarter_x_neg = identity.
Proof. unfold quarter_x_pos, quarter_x_neg, identity. matrix_product. Qed.

Lemma four_quarter_turns_x :
  multiply quarter_x_pos (multiply quarter_x_pos
    (multiply quarter_x_pos (multiply quarter_x_pos identity))) = identity.
Proof.
  rewrite quarter_x_once, quarter_x_twice, quarter_x_thrice. apply quarter_x_fourth.
Qed.

Lemma quarter_x_back (t : Matrix4) :
  finite_matrix t -> multiply quarter_x_neg (multiply quarter_x_pos t) = t.
Proof.
  destruct t. unfold finite_matrix, multiply, multiplyMatrices, quarter_x_pos, quarter_x_neg.
  cbn [n11 n12 n13 n14 n21 n22 n23 n24 n31 n32 n33 n34 n41 n42 n43 n44].
  intros H. repeat match goal with H : _ /\ _ |- _ => destruct H end.
  finite_entries. cbn [add mul]. f_equal; f_equal; lra.
Qed.

Lemma quarter_y_back (t : Matrix4) :
  finite_matrix t -> multiply quarter_y_neg (multiply quarter_y_pos t) = t.
Proof.
  destruct t. unfold finite_matrix, multiply, multiplyMatrices, quarter_y_pos, quarter_y_neg.
  cbn [n11 n12 n13 n14 n21 n22 n23 n24 n31 n32 n33 n34 n41 n42 n43 n44].
  intros H. repeat match goal with H : _ /\ _ |- _ => destruct H end.
  finite_entries. cbn [add mul]. f_equal; f_equal; lra.
Qed.

End OrientationInvariant.

(* ================================================================== *)
(** * viewer.js: composing quarter turns *)
(* ================================================================== *)

Section GroupAction.

Lemma exec_rotate_loaded (st : state) (mesh : Viewer.Mesh) (g : loc)
    (axis : string) (direction : number) (rotation : Matrix4) :
  studentMesh st = Some mesh ->
  studentGeometry st = Some g ->
  rotation_for axis (quarter_angle direction) = Some rotation ->
  exec (CallRotateStudent axis direction) st =
  oriented (multiply rotation (studentTransform st)) mesh st.
Proof.
  intros Hmesh Hgeom Hrot. cbn [exec].
  rewrite rotateStudent_unfold, Hmesh, Hgeom, Hrot. reflexivity.
Qed.

Lemma exec_rotate_not_loaded (st : state) (axis : string) (direction : number) :
  studentMesh st = None \/ studentGeometry st = None ->
  exec (CallRotateStudent axis direction) st = st.
Proof.
  intros H. cbn [exec]. rewrite rotateStudent_unfold.
  destruct (studentMesh st); [ | reflexivity ].
  destruct (studentGeometry st); [ | reflexivity ].
  destruct H; discriminate.
Qed.

Lemma rotation_x_pos : rotation_for "x" (quarter_angle (Num 1)) = Some quarter_x_pos.
Proof. rewrite rotation_for_x, quarter_angle_pos, makeRotationX_quarter_pos. reflexivity. Qed.

Lemma rotation_x_neg : rotation_for "x" (quarter_angle (Num (-1))) = Some quarter_x_neg.
Proof. rewrite rotation_for_x, quarter_angle_neg, makeRotationX_quarter_neg. reflexivity. Qed.

Lemma rotation_y_pos : rotation_for "y" (quarter_angle (Num 1)) = Some quarter_y_pos.
Proof. rewrite rotation_for_y, quarter_angle_pos, makeRotationY_quarter_pos. reflexivity. Qed.

Lemma rotation_y_neg : rotation_for "y" (quarter_angle (Num (-1))) = Some quarter_y_neg.
Proof. rewrite rotation_for_y, quarter_angle_neg, makeRotationY_quarter_neg. reflexivity. Qed.

(** One rotation of a loaded student: the student stays loaded and the
    transform is multiplied from the left. *)
Lemma exec_rotate_step (st : state) (mesh : Viewer.Mesh) (g : loc)
    (axis : string) (direction : number) (rotation : Matrix4) :
  studentMesh st = Some mesh ->
  studentGeometry st = Some g ->
  rotation_for axis (quarter_angle direction) = Some rotation ->
  studentMesh (exec (CallRotateStudent axis direction) st) =
    Some (with_matrix (multiply rotation (studentTransform st)) mesh) /\
  studentGeometry (exec (CallRotateStudent axis direction) st) = Some g /\
  studentTransform (exec (CallRotateStudent axis direction) st) =
    multiply rotation (studentTransform st).
Proof.
  intros Hmesh Hgeom Hrot.
  rewrite (exec_rotate_loaded st mesh g axis direction rotation Hmesh Hgeom Hrot).
  cbn [oriented studentMesh studentGeometry studentTransform set_studentMesh
       set_studentTransform].
  auto.
Qed.

Lemma exec_reset_step (st : state) (mesh : Viewer.Mesh) :
  studentMesh st = Some mesh ->
  studentMesh (exec CallResetStudentOrientation st) = Some (with_matrix identity mesh) /\
  studentGeometry (exec CallResetStudentOrientation st) = studentGeometry st /\
  studentTransform (exec CallResetStudentOrientation st) = identity.
Proof.
  intros Hmesh. cbn [exec]. rewrite resetStudentOrientation_unfold, Hmesh.
  cbn [snd oriented studentMesh studentGeometry studentTransform set_studentMesh
       set_studentTransform].
  auto.
Qed.

Lemma exec_reset_not_loaded (st : state) :
  studentMesh st = None -> exec CallResetStudentOrientation st = st.
Proof.
  intros Hmesh. cbn [exec]. rewrite resetStudentOrientation_unfold, Hmesh. reflexivity.
Qed.

(** Two rotations in a row on a loaded student. *)
Lemma rotate_twice_loaded (st : state) (mesh : Viewer.Mesh) (g : loc)
    (a1 a2 : string) (d1 d2 : number) (r1 r2 : Matrix4) :
  studentMesh st = Some mesh ->
  studentGeometry st = Some g ->
  rotation_for a1 (quarter_angle d1) = Some r1 ->
  rotation_for a2 (quarter_angle d2) = Some r2 ->
  studentTransform (run [CallRotateStudent a1 d1; CallRotateStudent a2 d2] st) =
  multiply r2 (multiply r1 (studentTransform st)).
Proof.
  intros Hmesh Hgeom H1 H2. cbn [run fold_left].
  destruct (exec_rotate_step st mesh g a1 d1 r1 Hmesh Hgeom H1) as (Hm1 & Hg1 & Ht1).
  destruct (exec_rotate_step _ _ g a2 d2 r2 Hm1 Hg1 H2) as (_ & _ & Ht2).
  rewrite Ht2, Ht1. reflexivity.
Qed.

Lemma reset_then_four_x (st : state) (mesh : Viewer.Mesh) (g : loc) :
  studentMesh st = Some mesh ->
  studentGeometry st = Some g ->
  studentTransform
    (run [CallResetStudentOrientation;
          CallRotateStudent "x" (Num 1); CallRotateStudent "x" (Num 1);
          CallRotateStudent "x" (Num 1); CallRotateStudent "x" (Num 1)] st) = identity.
Proof.
  intros Hmesh Hgeom. cbn [run fold_left].
  destruct (exec_reset_step st mesh Hmesh) as (Hm0 & Hg0 & Ht0).
  rewrite Hgeom in Hg0.
  destruct (exec_rotate_step _ _ g "x" (Num 1) _ Hm0 Hg0 rotation_x_pos) as (Hm1 & Hg1 & Ht1).
  destruct (exec_rotate_step _ _ g "x" (Num 1) _ Hm1 Hg1 rotation_x_pos) as (Hm2 & Hg2 & Ht2).
  destruct (exec_rotate_step _ _ g "x" (Num 1) _ Hm2 Hg2 rotation_x_pos) as (Hm3 & Hg3 & Ht3).
  destruct (exec_rotate_step _ _ g "x" (Num 1) _ Hm3 Hg3 rotation_x_pos) as (_ & _ & Ht4).
  rewrite Ht4, Ht3, Ht2, Ht1, Ht0. apply four_quarter_turns_x.
Qed.

(** C6.  In every state the program reaches: resetting the orientation
    and then turning four times by +90 degrees about X leaves the identity
    transform, and on either axis a turn by +90 degrees followed by a turn by
    -90 degrees restores the transform held before. *)
Theorem quarter_turns_compose (st : state) :
  reachable st ->
  studentTransform
    (run [CallResetStudentOrientation;
          CallRotateStudent "x" (Num 1); CallRotateStudent "x" (Num 1);
          CallRotateStudent "x" (Num 1); CallRotateStudent "x" (Num 1)] st) = identity /\
  studentTransform
    (run [CallRotateStudent "x" (Num 1); CallRotateStudent "x" (Num (-1))] st) =
    studentTransform st /\
  studentTransform
    (run [CallRotateStudent "y" (Num 1); CallRotateStudent "y" (Num (-1))] st) =
    studentTransform st.
Proof.
  intros Hreach.
  destruct (reachable_orientation_invariant st Hreach) as [Hfin Hid].
  destruct (studentMesh st) as [ mesh | ] eqn:Hmesh.
  - destruct (studentGeometry st) as [ g | ] eqn:Hgeom.
    + split; [ | split ].
      * eapply reset_then_four_x; eassumption.
      * rewrite (rotate_twice_loaded st mesh g _ _ _ _ _ _ Hmesh Hgeom
                   rotation_x_pos rotation_x_neg).
        apply quarter_x_back, Hfin.
      * rewrite (rotate_twice_loaded st mesh g _ _ _ _ _ _ Hmesh Hgeom
                   rotation_y_pos rotation_y_neg).
        apply quarter_y_back, Hfin.
    + destruct (exec_reset_step st mesh Hmesh) as (_ & Hg0 & Ht0).
      rewrite Hgeom in Hg0.
      split; [ | split ]; cbn [run fold_left].
      * rewrite !(exec_rotate_not_loaded (exec CallResetStudentOrientation st))
          by (right; exact Hg0).
        exact Ht0.
      * rewrite !(exec_rotate_not_loaded st) by (right; exact Hgeom). reflexivity.
      * rewrite !(exec_rotate_not_loaded st) by (right; exact Hgeom). reflexivity.
  - split; [ | split ]; cbn [run fold_left].
    + rewrite (exec_reset_not_loaded st Hmesh).
      rewrite !(exec_rotate_not_loaded st) by (left; exact Hmesh). auto.
    + rewrite !(exec_rotate_not_loaded st) by (left; exact Hmesh). reflexivity.
    + rewrite !(exec_rotate_not_loaded st) by (left; exact Hmesh). reflexivity.
Qed.

End GroupAction.

(* ================================================================== *)
(** * Translating and scaling real points *)
(* ================================================================== *)

Section ShiftAndScale.

Lemma Rmin_shift (a b t : R) : Rmin (a + t) (b + t) = Rmin a b + t.
Proof. unfold Rmin. repeat destruct (Rle_dec _ _); lra. Qed.

Lemma Rmax_shift (a b t : R) : Rmax (a + t) (b + t) = Rmax a b + t.
Proof. unfold Rmax. repeat destruct (Rle_dec _ _); lra. Qed.

Lemma Rmin_scale (a b s : R) : 0 <= s -> Rmin (s * a) (s * b) = s * Rmin a b.
Proof. intros Hs. unfold Rmin. repeat destruct (Rle_dec _ _); nra. Qed.

Lemma Rmax_scale (a b s : R) : 0 <= s -> Rmax (s * a) (s * b) = s * Rmax a b.
Proof. intros Hs. unfold Rmax. repeat destruct (Rle_dec _ _); nra. Qed.

Variable f : point -> R.
Variable move : point -> point.

Lemma least_shift (t : R) (vs : list point) (a : R) :
  (forall p, f (move p) = f p + t) ->
  least f (a + t) (map move vs) = least f a vs + t.
Proof.
  intros Hmove. revert a. induction vs as [ | p vs IH ]; intros a; cbn; [ reflexivity | ].
  rewrite Hmove, Rmin_shift. apply IH.
Qed.

Lemma greatest_shift (t : R) (vs : list point) (a : R) :
  (forall p, f (move p) = f p + t) ->
  greatest f (a + t) (map move vs) = greatest f a vs + t.
Proof.
  intros Hmove. revert a. induction vs as [ | p vs IH ]; intros a; cbn; [ reflexivity | ].
  rewrite Hmove, Rmax_shift. apply IH.
Qed.

Lemma least_scale (s : R) (vs : list point) (a : R) :
  0 <= s -> (forall p, f (move p) = s * f p) ->
  least f (s * a) (map move vs) = s * least f a vs.
Proof.
  intros Hs Hmove. revert a. induction vs as [ | p vs IH ]; intros a; cbn; [ reflexivity | ].
  rewrite Hmove, Rmin_scale by assumption. apply IH.
Qed.

Lemma greatest_scale (s : R) (vs : list point) (a : R) :
  0 <= s -> (forall p, f (move p) = s * f p) ->
  greatest f (s * a) (map move vs) = s * greatest f a vs.
Proof.
  intros Hs Hmove. revert a. induction vs as [ | p vs IH ]; intros a; cbn; [ reflexivity | ].
  rewrite Hmove, Rmax_scale by assumption. apply IH.
Qed.

End ShiftAndScale.

Section MaxExtent.

Lemma max_extent_nonneg (vs : list point) : 0 <= max_extent vs.
Proof.
  destruct vs as [ | v vs ]; cbn; [ lra | ].
  pose proof (least_le_greatest px vs (px v)).
  etransitivity; [ | apply Rmax_l ]. etransitivity; [ | apply Rmax_l ]. lra.
Qed.

Lemma least_psub (f : point -> R) (c : point) (vs : list point) (a : R) :
  (forall p, f (psub p c) = f p - f c) ->
  least f (a - f c) (map (fun p => psub p c) vs) = least f a vs - f c.
Proof. intros Hf. apply (least_shift f (fun p => psub p c) (- f c)). exact Hf. Qed.

Lemma greatest_psub (f : point -> R) (c : point) (vs : list point) (a : R) :
  (forall p, f (psub p c) = f p - f c) ->
  greatest f (a - f c) (map (fun p => psub p c) vs) = greatest f a vs - f c.
Proof. intros Hf. apply (greatest_shift f (fun p => psub p c) (- f c)). exact Hf. Qed.

Lemma max_extent_shift (c : point) (vs : list point) :
  max_extent (map (fun p => psub p c) vs) = max_extent vs.
Proof.
  destruct vs as [ | v vs ]; [ reflexivity | ].
  cbn [map max_extent psub upper_corner lower_corner px py pz].
  rewrite (least_psub px), (least_psub py), (least_psub pz),
    (greatest_psub px), (greatest_psub py), (greatest_psub pz) by reflexivity.
  f_equal; [ f_equal | ]; lra.
Qed.

Lemma max_extent_centred (vs : list point) : max_extent (centred vs) = max_extent vs.
Proof. apply max_extent_shift. Qed.

Lemma max_extent_scale (s : R) (vs : list point) :
  0 <= s -> max_extent (map (scale_point s) vs) = s * max_extent vs.
Proof.
  intros Hs. destruct vs as [ | v vs ]; [ cbn; lra | ].
  cbn [map max_extent psub upper_corner lower_corner px py pz scale_point].
  rewrite (least_scale px (scale_point s)), (least_scale py (scale_point s)),
    (least_scale pz (scale_point s)), (greatest_scale px (scale_point s)),
    (greatest_scale py (scale_point s)), (greatest_scale pz (scale_point s))
    by (assumption || reflexivity).
  rewrite <- !Rmult_minus_distr_l, !Rmax_scale by assumption. reflexivity.
Qed.

End MaxExtent.

(* ================================================================== *)
(** * viewer.js: centring and scaling a geometry *)
(* ================================================================== *)

Section Normalizer.

Lemma applyMatrix4_translation (p : point) (a b c : R) :
  applyMatrix4 (vnum p) (makeTranslation (Num a) (Num b) (Num c)) =
  vnum (pt (px p + a) (py p + b) (pz p + c)).
Proof.
  unfold applyMatrix4, makeTranslation, vnum.
  cbn [n11 n12 n13 n14 n21 n22 n23 n24 n31 n32 n33 n34 n41 n42 n43 n44 x y z
       px py pz add mul].
  rewrite div_num by lra. cbn [mul]. f_equal; f_equal; field; lra.
Qed.

Lemma applyMatrix4_scale (p : point) (s : R) :
  applyMatrix4 (vnum p) (makeScale (Num s) (Num s) (Num s)) = vnum (scale_point s p).
Proof.
  unfold applyMatrix4, makeScale, vnum, scale_point.
  cbn [n11 n12 n13 n14 n21 n22 n23 n24 n31 n32 n33 n34 n41 n42 n43 n44 x y z
       px py pz add mul].
  rewrite div_num by lra. cbn [mul]. f_equal; f_equal; field; lra.
Qed.

Lemma scale_points (vs : list point) (s : R) :
  scale (geometry_of vs) (Num s) (Num s) (Num s) = geometry_of (map (scale_point s) vs).
Proof.
  unfold scale, geometry_applyMatrix4, geometry_of. cbn [position].
  rewrite !map_map. do 2 f_equal.
  apply map_ext. intros p. apply applyMatrix4_scale.
Qed.

Lemma getCenter_points (vs : list point) :
  getCenter (geometry_boundingBox (geometry_of vs)) = vnum (box_centre vs).
Proof.
  unfold geometry_boundingBox, geometry_of. cbn [position].
  destruct vs as [ | v vs ]; [ reflexivity | ].
  rewrite setFromBufferAttribute_points. unfold getCenter.
  rewrite isEmpty_points. reflexivity.
Qed.

(** Centring real points: every vertex is moved by the centre of the box. *)
Lemma centerGeometry_points (vs : list point) :
  centerGeometry (geometry_of vs) = geometry_of (centred vs).
Proof.
  unfold centerGeometry. rewrite getCenter_points.
  unfold translate, geometry_applyMatrix4, geometry_of, centred.
  cbn [position vnum x y z neg].
  rewrite !map_map. do 2 f_equal.
  apply map_ext. intros p. rewrite applyMatrix4_translation. reflexivity.
Qed.

(** The largest box dimension of real points. *)
Lemma computeMaxDimension_points (vs : list point) :
  computeMaxDimension (geometry_of vs) = Return (Num (max_extent vs)).
Proof.
  unfold computeMaxDimension, geometry_of, getAttribute_position, Compare.box_of_attribute.
  cbn [position].
  destruct vs as [ | v vs ].
  - change (Return (Num (Rmax (Rmax 0 0) 0)) = Return (Num 0)).
    do 2 f_equal. unfold Rmax. repeat destruct (Rle_dec _ _); lra.
  - rewrite setFromBufferAttribute_points, getSize_points. reflexivity.
Qed.

Lemma scale_point_one (vs : list point) : map (scale_point 1) vs = vs.
Proof.
  rewrite <- (map_id vs) at 2. apply map_ext.
  intros [a b c]. unfold scale_point. cbn. f_equal; lra.
Qed.

Lemma fresh_not_allocated (h : gmap loc BufferGeometry) (l : loc) (g : BufferGeometry) :
  h !! l = Some g -> l <> fresh (dom h).
Proof.
  intros Hl Heq. apply (is_fresh (dom h)). rewrite <- Heq.
  apply elem_of_dom. eauto.
Qed.

(** [loadStudent] on real points, with a baseline of real points in the
    store: the call succeeds and this is the state it leaves. *)
Lemma loadStudent_points (st : state) (children : list slot) (bl : loc)
    (bvs vs : list point) :
  scene st = Some children ->
  baselineGeometry st = Some bl ->
  heap st !! bl = Some (geometry_of bvs) ->
  let l := fresh (dom (heap st)) in
  let s := scale_factor (max_extent bvs) (max_extent vs) in
  loadStudent (Return (geometry_of vs)) st =
  (Return l,
   {| heap := <[l := geometry_of (map (scale_point s) (centred vs))]> (heap st);
      scene :=
        Some (match studentMesh st with
              | Some _ => filter (fun c => c <> Student) children
              | None => children
              end ++ [Student]);
      baselineMesh := baselineMesh st;
      studentMesh :=
        Some {| geometry := l; matrix := identity;
                matrixAutoUpdate := false; matrixWorldNeedsUpdate := false |};
      baselineGeometry := Some bl;
      studentGeometry := Some l;
      studentTransform := identity |}).
Proof.
  intros Hscene Hbl Hheap l s.
  pose proof (fresh_not_allocated _ _ _ Hheap) as Hfresh.
  rewrite loadStudent_unfold, Hscene, Hbl. cbv zeta.
  rewrite lookup_insert_ne by (symmetry; exact Hfresh).
  rewrite Hheap, centerGeometry_points, !computeMaxDimension_points, max_extent_centred.
  unfold gt. rewrite lt_num.
  assert (Hs : (if bool_decide (0 < max_extent vs)
                then (Num (max_extent bvs) / Num (max_extent vs))%js
                else Num 1) = Num s).
  { unfold s, scale_factor. case_bool_decide as Hpos.
    - rewrite decide_True by assumption. apply div_num. lra.
    - rewrite decide_False by assumption. reflexivity. }
  rewrite Hs, scale_points.
  destruct (studentMesh st); cbn [scene set_scene option_map]; rewrite ?Hscene;
    reflexivity.
Qed.

(** C7.  On a viewer with a baseline of real points, loading a student of
    real points succeeds and stores the centred student scaled uniformly by
    [max_extent baseline / max_extent student]; its largest box dimension is
    then that of the baseline.  When the student's largest dimension is [0]
    the scale is [1] and the centred vertices are stored as they are. *)
Theorem loadStudent_matches_scale (st : state) (children : list slot) (bl : loc)
    (bvs vs : list point) :
  scene st = Some children ->
  baselineGeometry st = Some bl ->
  heap st !! bl = Some (geometry_of bvs) ->
  exists (l : loc) (st' : state) (g' : BufferGeometry),
    loadStudent (Return (geometry_of vs)) st = (Return l, st') /\
    studentGeometry st' = Some l /\
    heap st' !! l = Some g' /\
    heap st' !! bl = Some (geometry_of bvs) /\
    computeMaxDimension (geometry_of bvs) = Return (Num (max_extent bvs)) /\
    computeMaxDimension (centerGeometry (geometry_of vs)) = Return (Num (max_extent vs)) /\
    (0 < max_extent vs ->
       g' = geometry_of (map (scale_point (max_extent bvs / max_extent vs)) (centred vs)) /\
       computeMaxDimension g' = Return (Num (max_extent bvs))) /\
    (max_extent vs = 0 -> g' = geometry_of (centred vs)).
Proof.
  intros Hscene Hbl Hheap.
  pose proof (fresh_not_allocated _ _ _ Hheap) as Hfresh.
  eexists _, _, _.
  split; [ apply (loadStudent_points st children bl bvs vs); assumption | ].
  cbn [studentGeometry heap].
  split; [ reflexivity | ].
  split; [ apply lookup_insert_eq | ].
  split; [ rewrite lookup_insert_ne by (symmetry; exact Hfresh); exact Hheap | ].
  split; [ apply computeMaxDimension_points | ].
  split; [ rewrite centerGeometry_points, computeMaxDimension_points;
           f_equal; f_equal; apply max_extent_centred | ].
  unfold scale_factor. split.
  - intros Hpos. rewrite decide_True by assumption.
    split; [ reflexivity | ].
    rewrite computeMaxDimension_points, max_extent_scale, max_extent_centred.
    + do 2 f_equal. field. lra.
    + apply Rmult_le_pos; [ apply max_extent_nonneg | ].
      left. apply Rinv_0_lt_compat, Hpos.
  - intros Hzero. rewrite decide_False by lra.
    rewrite scale_point_one. reflexivity.
Qed.

End Normalizer.

(* ================================================================== *)
(** * viewer.js: loading, and handing out geometries *)
(* ================================================================== *)

Section Loading.

(** [loadBaseline], flattened. *)
Lemma loadBaseline_unfold (source : completion BufferGeometry) (st : state) :
  loadBaseline source st =
  match scene st with
  | None => (Throw (Error "Viewer not initialized."), st)
  | Some children =>
      let st1 :=
        match baselineMesh st with
        | Some _ => set_scene (Some (filter (fun c => c <> Baseline) children)) st
        | None => st
        end in
      match source with
      | Throw e => (Throw e, st1)
      | Return g0 =>
          let l := fresh (dom (heap st)) in
          (Return l,
           {| heap := <[l := centerGeometry g0]> (heap st);
              scene := option_map (fun cs => cs ++ [Baseline]) (scene st1);
              baselineMesh := Some (buildMesh l);
              studentMesh := studentMesh st;
              baselineGeometry := Some l;
              studentGeometry := studentGeometry st;
              studentTransform := studentTransform st |})
      end
  end.
Proof.
  unfold loadBaseline. unfold_M. unfold update, alloc. unfold_M.
  destruct (scene st) as [ children | ] eqn:Hscene; [ | reflexivity ].
  destruct (baselineMesh st) eqn:Hmesh, source as [ g0 | e ];
    cbn [heap scene baselineMesh studentMesh baselineGeometry studentGeometry
         studentTransform set_heap set_scene set_baselineMesh set_baselineGeometry
         fst snd option_map];
    rewrite ?Hscene; cbn [option_map];
    try reflexivity;
    rewrite alter_insert_eq;
    unfold set_scene, set_baselineMesh, set_baselineGeometry, set_heap;
    cbn [heap scene baselineMesh studentMesh baselineGeometry studentGeometry
         studentTransform];
    rewrite ?Hscene; reflexivity.
Qed.

(** [getNormalizedGeometries], flattened. *)
Lemma getNormalizedGeometries_unfold (st : state) :
  getNormalizedGeometries st =
  match baselineGeometry st, studentGeometry st with
  | Some b, Some s =>
      match heap st !! s with
      | Some g =>
          let c := fresh (dom (heap st)) in
          (Return (Some {| baseline := b; student := c |}),
           set_heap (<[c := geometry_applyMatrix4 g (studentTransform st)]> (heap st)) st)
      | None => (Throw TypeError, st)
      end
  | _, _ => (Return None, st)
  end.
Proof.
  unfold getNormalizedGeometries. unfold_M. unfold update, alloc, read. unfold_M.
  destruct (baselineGeometry st); [ | reflexivity ].
  destruct (studentGeometry st) as [ s | ]; [ | reflexivity ].
  destruct (heap st !! s); [ | reflexivity ].
  cbn [heap set_heap fst snd studentTransform].
  rewrite alter_insert_eq.
  unfold set_heap. cbn [heap scene baselineMesh studentMesh baselineGeometry
                        studentGeometry studentTransform].
  reflexivity.
Qed.

(** The baseline session leaves an initialised viewer whose baseline is the
    centred triangle. *)
Lemma baseline_session_state :
  let st := run baseline_session initial in
  scene st = Some [Baseline] /\
  baselineGeometry st = Some (fresh (dom (∅ : gmap loc BufferGeometry))) /\
  heap st !! fresh (dom (∅ : gmap loc BufferGeometry)) =
    Some (geometry_of (centred sample_baseline)).
Proof.
  cbn [baseline_session run fold_left exec].
  rewrite loadBaseline_unfold.
  cbn [initViewer modify snd scene set_scene initial baselineMesh heap option_map app
       baselineGeometry].
  split; [ reflexivity | ]. split; [ reflexivity | ].
  rewrite lookup_insert_eq, centerGeometry_points. reflexivity.
Qed.

(** The student session leaves a student loaded. *)
Lemma student_session_state :
  exists (mesh : Viewer.Mesh) (g : loc),
    studentMesh (run student_session initial) = Some mesh /\
    studentGeometry (run student_session initial) = Some g.
Proof.
  destruct baseline_session_state as (Hscene & Hbl & Hheap).
  unfold student_session, run. rewrite fold_left_app. cbn [fold_left exec].
  fold (run baseline_session initial).
  rewrite (loadStudent_points _ _ _ _ sample_student Hscene Hbl Hheap).
  cbn [snd studentMesh studentGeometry]. eauto.
Qed.

Lemma student_session_reachable : reachable (run student_session initial).
Proof. exists student_session. reflexivity. Qed.

(** C8.  While no baseline is loaded, [loadStudent] fails: its result is
    a thrown error, carried by the rejected promise, and the state is left
    exactly as it was, so no student is established.  On an initialised
    viewer the error is the one asking for the baseline. *)
Theorem loadStudent_needs_baseline (source : completion BufferGeometry) (st : state) :
  baselineGeometry st = None ->
  exists e : error,
    loadStudent source st = (Throw e, st) /\
    (is_Some (scene st) ->
     e = Error "Load the baseline before loading a student model.").
Proof.
  intros Hbl. rewrite loadStudent_unfold, Hbl.
  destruct (scene st) as [ children | ].
  - eexists. split; [ reflexivity | ]. reflexivity.
  - eexists. split; [ reflexivity | ]. intros [? Hs]. discriminate.
Qed.

Lemma loadStudent_needs_baseline_witness :
  exists e : error,
    loadStudent (Return (geometry_of sample_student)) (snd (initViewer initial)) =
      (Throw e, snd (initViewer initial)) /\
    (is_Some (scene (snd (initViewer initial))) ->
     e = Error "Load the baseline before loading a student model.").
Proof.
  apply (loadStudent_needs_baseline (Return (geometry_of sample_student))
           (snd (initViewer initial))).
  reflexivity.
Defined.

Lemma loadStudent_matches_scale_witness :
  exists (l : loc) (st' : state) (g' : BufferGeometry),
    loadStudent (Return (geometry_of sample_student)) (run baseline_session initial) =
      (Return l, st') /\
    studentGeometry st' = Some l /\
    heap st' !! l = Some g' /\
    computeMaxDimension g' = Return (Num (max_extent (centred sample_baseline))).
Proof.
  destruct baseline_session_state as (Hscene & Hbl & Hheap).
  destruct (loadStudent_matches_scale (run baseline_session initial) [Baseline]
              (fresh (dom (∅ : gmap loc BufferGeometry)))
              (centred sample_baseline) sample_student Hscene Hbl Hheap)
    as (l & st' & g' & Hload & Hgeom & Hl & _ & _ & _ & Hpos & _).
  exists l, st', g'. repeat split; try assumption.
  apply Hpos. cbn. rewrite !Rmax_left by (unfold Rmin, Rmax; repeat destruct (Rle_dec _ _); lra).
  unfold Rmin, Rmax; repeat destruct (Rle_dec _ _); lra.
Defined.

End Loading.

(* ================================================================== *)
(** * viewer.js: orientation calls and the stored geometry *)
(* ================================================================== *)

Section Frame.

(** An orientation call leaves the state as it is or sets the orientation
    of the loaded student. *)
Lemma exec_orientation_cases (c : call) (st : state) :
  orientation_call c ->
  exec c st = st \/ exists t mesh, exec c st = oriented t mesh st.
Proof.
  destruct c as [ | source | source | axis direction | | ]; cbn [orientation_call];
    try contradiction; intros _; cbn [exec].
  - rewrite rotateStudent_unfold.
    destruct (studentMesh st); [ | left; reflexivity ].
    destruct (studentGeometry st); [ | left; reflexivity ].
    destruct (rotation_for axis (quarter_angle direction));
      [ right; eauto | left; reflexivity ].
  - rewrite resetStudentOrientation_unfold.
    destruct (studentMesh st); [ right; eauto | left; reflexivity ].
Qed.

Lemma exec_orientation_frame (c : call) (st : state) :
  orientation_call c ->
  heap (exec c st) = heap st /\
  studentGeometry (exec c st) = studentGeometry st /\
  baselineGeometry (exec c st) = baselineGeometry st.
Proof.
  intros Hc.
  destruct (exec_orientation_cases c st Hc) as [-> | (t & mesh & ->)];
    repeat split.
Qed.

Lemma run_orientation_frame (cs : list call) :
  forall st : state,
    Forall orientation_call cs ->
    heap (run cs st) = heap st /\
    studentGeometry (run cs st) = studentGeometry st /\
    baselineGeometry (run cs st) = baselineGeometry st.
Proof.
  induction cs as [ | c cs IH ]; intros st Hcs; [ repeat split | ].
  inversion Hcs as [ | ? ? Hc Hrest ]; subst.
  cbn [run fold_left]. fold (run cs (exec c st)).
  destruct (IH (exec c st) Hrest) as (Hh & Hs & Hb).
  destruct (exec_orientation_frame c st Hc) as (Hh' & Hs' & Hb').
  rewrite Hh, Hs, Hb. auto.
Qed.

(** C9.  After any sequence of [rotateStudent] and
    [resetStudentOrientation] calls the store of geometries is what it was,
    and so is the geometry the student variable refers to.  The geometry
    [getNormalizedGeometries] then hands out for the student is a new object:
    the copy of the stored one with the transform applied to every vertex;
    the stored geometry itself is still in the store, unchanged. *)
Theorem orientation_keeps_stored_geometry (cs : list call) (st : state) :
  Forall orientation_call cs ->
  heap (run cs st) = heap st /\
  studentGeometry (run cs st) = studentGeometry st /\
  forall (b s : loc) (g : BufferGeometry),
    baselineGeometry st = Some b ->
    studentGeometry st = Some s ->
    heap st !! s = Some g ->
    exists c : loc,
      fst (getNormalizedGeometries (run cs st)) =
        Return (Some {| baseline := b; student := c |}) /\
      heap st !! c = None /\
      c <> s /\
      heap (snd (getNormalizedGeometries (run cs st))) !! c =
        Some (geometry_applyMatrix4 g (studentTransform (run cs st))) /\
      heap (snd (getNormalizedGeometries (run cs st))) !! s = Some g /\
      studentGeometry (snd (getNormalizedGeometries (run cs st))) = Some s.
Proof.
  intros Hcs. destruct (run_orientation_frame cs st Hcs) as (Hh & Hs & Hb).
  split; [ exact Hh | ]. split; [ exact Hs | ].
  intros b s g Hbl Hst Hg.
  rewrite getNormalizedGeometries_unfold, Hb, Hs, Hbl, Hst, Hh, Hg. cbv zeta.
  pose proof (fresh_not_allocated _ _ _ Hg) as Hfresh.
  exists (fresh (dom (heap st))). cbn [fst snd heap set_heap studentGeometry].
  split; [ reflexivity | ].
  split; [ apply not_elem_of_dom, is_fresh | ].
  split; [ congruence | ].
  split; [ apply lookup_insert_eq | ].
  split; [ rewrite lookup_insert_ne by congruence; exact Hg | ].
  rewrite Hs. exact Hst.
Qed.

Lemma orientation_keeps_stored_geometry_witness :
  heap (run sample_turns (run student_session initial)) =
    heap (run student_session initial) /\
  studentGeometry (run sample_turns (run student_session initial)) =
    studentGeometry (run student_session initial).
Proof.
  assert (Hcs : Forall orientation_call sample_turns) by (repeat constructor).
  destruct (orientation_keeps_stored_geometry sample_turns
              (run student_session initial) Hcs) as (Hh & Hs & _).
  split; assumption.
Defined.

Lemma rotateStudent_left_multiplies_witness :
  studentTransform (snd (rotateStudent "x" (Num 1) (run student_session initial))) =
    multiplyMatrices quarter_x_pos (studentTransform (run student_session initial)) /\
  rotateStudent "z" (Num 1) (run student_session initial) =
    (Return tt, run student_session initial).
Proof.
  destruct student_session_state as (mesh & g & Hmesh & Hgeom).
  destruct (rotateStudent_left_multiplies (run student_session initial) mesh g Hmesh Hgeom)
    as ((_ & Hx) & _ & _ & _ & Hother).
  split; [ exact Hx | ].
  apply Hother; discriminate.
Defined.

Lemma quarter_turns_compose_witness :
  studentTransform
    (run [CallRotateStudent "x" (Num 1); CallRotateStudent "x" (Num (-1))]
       (exec (CallRotateStudent "y" (Num 1)) (run student_session initial))) =
  studentTransform (exec (CallRotateStudent "y" (Num 1)) (run student_session initial)).
Proof.
  pose proof (reachable_exec (CallRotateStudent "y" (Num 1)) _ student_session_reachable)
    as Hreach.
  revert Hreach.
  generalize (exec (CallRotateStudent "y" (Num 1)) (run student_session initial)).
  intros st Hreach.
  exact (proj1 (proj2 (quarter_turns_compose st Hreach))).
Defined.

End Frame.

(* ================================================================== *)
(** * compare.js: the report *)
(* ================================================================== *)

Import Derived.

Section Report.

Import Compare.

Lemma percentDifference_score (b c : R) :
  percentDifference (Num b) (Num c) = score b c.
Proof.
  unfold score.
  destruct (percentDifference_real_cases b c) as (Hzero & Hinf & Hrel).
  destruct (decide (b = 0)) as [Hb | Hb].
  - destruct (decide (c = 0)) as [Hc | Hc]; auto.
  - auto.
Qed.

Lemma measure_real (b c : R) : real_measure (measure (Num b) (Num c)) b c.
Proof. unfold real_measure, measure. rewrite percentDifference_score. reflexivity. Qed.

Lemma computeBoundingBox_points (vs : list point) :
  exists bb : BoundingBox,
    computeBoundingBox (geometry_of vs) = Return bb /\ size bb = vnum (box_size vs).
Proof.
  unfold computeBoundingBox, geometry_of, getAttribute_position, box_of_attribute.
  cbn [position].
  destruct vs as [ | v vs ].
  - eexists. split; reflexivity.
  - rewrite setFromBufferAttribute_points, getSize_points.
    eexists. split; reflexivity.
Qed.

Lemma box_size_nonneg (vs : list point) :
  0 <= px (box_size vs) /\ 0 <= py (box_size vs) /\ 0 <= pz (box_size vs).
Proof.
  destruct vs as [ | v vs ]; cbn [box_size psub upper_corner lower_corner px py pz].
  - lra.
  - pose proof (least_le_greatest px vs (px v)).
    pose proof (least_le_greatest py vs (py v)).
    pose proof (least_le_greatest pz vs (pz v)).
    lra.
Qed.

(** The loop never reads a vertex when it starts at or past the end. *)
Lemma volume_loop_done (fuel : nat) (position : BufferAttribute) (i : nat) (volume : number) :
  (count position <= i)%nat -> volume_loop fuel position i volume = volume.
Proof.
  intros Hi. destruct fuel; [ reflexivity | ]. cbn [volume_loop].
  destruct (Nat.ltb_spec i (count position)); [ lia | reflexivity ].
Qed.

(** The report on two meshes of real points, line by line. *)
Lemma compareModels_points (bvs cvs : list point) :
  (length bvs mod 3 = 0)%nat ->
  (length cvs mod 3 = 0)%nat ->
  exists r : Report,
    compareModels (geometry_of bvs) (geometry_of cvs) = Return r /\
    real_measure (triangleCounts r) (INR (length bvs) / 3) (INR (length cvs) / 3) /\
    real_measure (volumes r) (Rabs (signed_volume bvs)) (Rabs (signed_volume cvs)) /\
    real_measure (fst (fst (dimensions r))) (px (box_size bvs)) (px (box_size cvs)) /\
    real_measure (snd (fst (dimensions r))) (py (box_size bvs)) (py (box_size cvs)) /\
    real_measure (snd (dimensions r)) (pz (box_size bvs)) (pz (box_size cvs)).
Proof.
  intros Hb Hc. unfold compareModels.
  destruct (computeBoundingBox_points bvs) as (bb & -> & Hbs).
  destruct (computeBoundingBox_points cvs) as (cb & -> & Hcs).
  rewrite !computeApproxVolume_triangles by assumption.
  unfold geometry_of at 1 2. rewrite !computeTriangleCount_position, !length_map.
  eexists. split; [ reflexivity | ].
  cbn [triangleCounts volumes dimensions fst snd]. rewrite Hbs, Hcs.
  cbn [vnum x y z].
  repeat split; apply measure_real.
Qed.

Lemma score_same (b : R) : score b b = Num 0.
Proof.
  unfold score. destruct (decide (b = 0)) as [Hb | Hb].
  - reflexivity.
  - f_equal. field. assumption.
Qed.

Lemma score_bounded (b c : R) :
  0 <= b -> 0 <= c ->
  score b c = Infinity \/ exists q : R, score b c = Num q /\ -100 <= q.
Proof.
  intros Hb Hc. unfold score.
  destruct (decide (b = 0)) as [Hz | Hz].
  - destruct (decide (c = 0)); [ right; exists 0; split; [ reflexivity | lra ] | left; reflexivity ].
  - right. eexists. split; [ reflexivity | ].
    assert (Hpos : 0 < b) by lra.
    assert (Hq : 0 <= c / b) by (apply Rmult_le_pos; [ lra | left; apply Rinv_0_lt_compat, Hpos ]).
    replace ((c - b) / b) with (c / b - 1) by (field; lra). lra.
Qed.

(** X1.  On two meshes of real points, each a whole number of triangles,
    [compareModels] returns a report whose five percent differences are each
    [Infinity] or a real number not below [-100]: never [NaN]. *)
Theorem compareModels_scores_meaningful (bvs cvs : list point) :
  (length bvs mod 3 = 0)%nat ->
  (length cvs mod 3 = 0)%nat ->
  exists r : Report,
    compareModels (geometry_of bvs) (geometry_of cvs) = Return r /\
    Forall (fun s => s = Infinity \/ exists q : R, s = Num q /\ -100 <= q) (scores r).
Proof.
  intros Hb Hc.
  destruct (compareModels_points bvs cvs Hb Hc) as (r & Hr & Ht & Hv & Hx & Hy & Hz).
  exists r. split; [ exact Hr | ].
  unfold scores. rewrite Ht, Hv, Hx, Hy, Hz. cbn [m_percentDifference].
  destruct (box_size_nonneg bvs) as (? & ? & ?).
  destruct (box_size_nonneg cvs) as (? & ? & ?).
  assert (Hn : forall n : nat, 0 <= INR n / 3)
    by (intros n; pose proof (pos_INR n); lra).
  repeat (apply List.Forall_cons; [ apply score_bounded; auto using Rabs_pos | ]).
  apply List.Forall_nil.
Qed.

Lemma compareModels_scores_meaningful_witness :
  exists r : Report,
    compareModels (geometry_of sample_baseline) (geometry_of sample_student) = Return r /\
    Forall (fun s => s = Infinity \/ exists q : R, s = Num q /\ -100 <= q) (scores r).
Proof.
  apply (compareModels_scores_meaningful sample_baseline sample_student); reflexivity.
Defined.

(** X2.  Comparing a mesh of real points with itself gives a report whose
    five percent differences are all [0]. *)
Theorem compareModels_same_mesh (vs : list point) :
  (length vs mod 3 = 0)%nat ->
  exists r : Report,
    compareModels (geometry_of vs) (geometry_of vs) = Return r /\
    Forall (fun s => s = Num 0) (scores r).
Proof.
  intros Hmod.
  destruct (compareModels_points vs vs Hmod Hmod) as (r & Hr & Ht & Hv & Hx & Hy & Hz).
  exists r. split; [ exact Hr | ].
  unfold scores. rewrite Ht, Hv, Hx, Hy, Hz. cbn [m_percentDifference].
  repeat (apply List.Forall_cons; [ apply score_same | ]).
  apply List.Forall_nil.
Qed.

Lemma compareModels_same_mesh_witness :
  exists r : Report,
    compareModels (geometry_of sample_student) (geometry_of sample_student) = Return r /\
    Forall (fun s => s = Num 0) (scores r).
Proof. apply (compareModels_same_mesh sample_student). reflexivity. Defined.

(** X3.  [compareModels] returns a report exactly when both geometries have
    a position attribute; when one is missing it throws a [TypeError], the
    baseline being examined first. *)
Theorem compareModels_needs_positions (b s : BufferGeometry) :
  match position b, position s with
  | Some _, Some _ => exists r : Report, compareModels b s = Return r
  | _, _ => compareModels b s = Throw TypeError
  end.
Proof.
  unfold compareModels, computeBoundingBox, box_of_attribute, getAttribute_position.
  destruct (position b); [ | reflexivity ].
  destruct (position s); [ eexists; reflexivity | reflexivity ].
Qed.

(** X6.  The percent difference of two triangle counts depends on the vertex
    counts only: for [n > 0] baseline vertices and [m] student vertices it is
    [(m - n) / n * 100], so twice as many triangles score [100]. *)
Theorem triangle_count_difference (a b : BufferAttribute) :
  (0 < length a)%nat ->
  percentDifference (computeTriangleCount {| position := Some a |})
                    (computeTriangleCount {| position := Some b |}) =
    Num ((INR (length b) - INR (length a)) / INR (length a) * 100) /\
  (length b = (2 * length a)%nat ->
   percentDifference (computeTriangleCount {| position := Some a |})
                     (computeTriangleCount {| position := Some b |}) = Num 100).
Proof.
  intros Hpos.
  assert (Hn : 0 < INR (length a)) by (apply lt_0_INR; lia).
  rewrite !computeTriangleCount_position.
  rewrite (proj2 (proj2 (percentDifference_real_cases _ _))) by lra.
  split.
  - f_equal. field. lra.
  - intros ->. rewrite mult_INR. cbn [INR]. f_equal. field. lra.
Qed.

Lemma triangle_count_difference_witness :
  percentDifference (computeTriangleCount {| position := Some (map vnum sample_baseline) |})
                    (computeTriangleCount {| position := Some six_vertices |}) = Num 100.
Proof.
  apply (triangle_count_difference (map vnum sample_baseline) six_vertices).
  - cbn. lia.
  - reflexivity.
Defined.

(** X7.  For a positive baseline measure and a non-negative student
    measure the percent difference is a real number, at least [-100]; it is
    positive exactly when the student measure is the larger one, zero exactly
    when the two are equal, and [-100] exactly when the student measure is
    zero. *)
Theorem percentDifference_sign (b c : R) :
  0 < b -> 0 <= c ->
  exists q : R,
    percentDifference (Num b) (Num c) = Num q /\
    -100 <= q /\
    (0 < q <-> b < c) /\ (q = 0 <-> c = b) /\ (q = -100 <-> c = 0).
Proof.
  intros Hb Hc.
  rewrite (proj2 (proj2 (percentDifference_real_cases b c))) by lra.
  eexists. split; [ reflexivity | ].
  assert (Hinv : 0 < / b) by (apply Rinv_0_lt_compat, Hb).
  assert (Heq : (c - b) / b * 100 = (c - b) * (100 * / b)) by (field; lra).
  rewrite Heq.
  assert (Hk : 0 < 100 * / b) by lra.
  assert (Hkb : 100 * / b * b = 100) by (field; lra).
  repeat split; try intros H; nra.
Qed.

Lemma percentDifference_sign_witness :
  exists q : R,
    percentDifference (Num 4) (Num 5) = Num q /\
    -100 <= q /\
    (0 < q <-> 4 < 5) /\ (q = 0 <-> 5 = 4) /\ (q = -100 <-> 5 = 0).
Proof. apply (percentDifference_sign 4 5); lra. Defined.

End Report.

(* ================================================================== *)
(** * compare.js: the volume off the mesh invariant and under scaling *)
(* ================================================================== *)

Section VolumeEdges.

Import Compare.

Lemma add_NaN (a : number) : (a + NaN)%js = NaN.
Proof. destruct a; reflexivity. Qed.

(** A triangle whose last vertex is read past the end has no volume. *)
Lemma tetrahedron_undefined (p1 : point) (v2 : Vector3) :
  (dot (vnum p1) (cross v2 undefined_vertex) / Num 6)%js = NaN.
Proof.
  destruct v2 as [a b c]. unfold dot, cross, undefined_vertex, vnum.
  cbn [x y z]. destruct a, b, c; reflexivity.
Qed.

(** With one or two vertices left over after the whole triangles, the loop
    ends on [NaN]. *)
Lemma volume_loop_ragged (k : nat) :
  forall (pre suf : list point) (acc : R) (fuel : nat),
    length suf = (3 * k + 1)%nat \/ length suf = (3 * k + 2)%nat ->
    (k < fuel)%nat ->
    volume_loop fuel (map vnum (pre ++ suf)) (length pre) (Num acc) = NaN.
Proof.
  induction k as [ | k IH ]; intros pre suf acc fuel Hlen Hfuel;
    (destruct fuel as [ | fuel ]; [ lia | ]).
  - assert (Hshort : exists p1 tl, suf = p1 :: tl /\ (length tl <= 1)%nat).
    { destruct suf as [ | p1 [ | p2 [ | p3 rest ] ] ]; cbn in Hlen; try lia;
        eexists _, _; (split; [ reflexivity | cbn; lia ]). }
    destruct Hshort as (p1 & tl & -> & Htl).
    cbn [volume_loop].
    assert (Hi : (length pre <? count (map vnum (pre ++ p1 :: tl)))%nat = true).
    { apply Nat.ltb_lt. unfold count. rewrite length_map, length_app. simpl. lia. }
    rewrite Hi, !fromBufferAttribute_app, fromBufferAttribute_app_0.
    assert (H3 : fromBufferAttribute (map vnum (p1 :: tl)) 2 = undefined_vertex).
    { destruct tl as [ | p2 [ | p3 rest ] ]; cbn in Htl; try lia; reflexivity. }
    rewrite H3. cbn [fromBufferAttribute map nth].
    rewrite tetrahedron_undefined, add_NaN.
    apply volume_loop_done. unfold count. rewrite length_map, length_app. cbn. lia.
  - destruct suf as [ | p1 [ | p2 [ | p3 rest ] ] ]; try (simpl in Hlen; lia).
    cbn [volume_loop].
    assert (Hi : (length pre <? count (map vnum (pre ++ p1 :: p2 :: p3 :: rest)))%nat = true).
    { apply Nat.ltb_lt. unfold count. rewrite length_map, length_app. simpl. lia. }
    rewrite Hi, !fromBufferAttribute_app, fromBufferAttribute_app_0.
    cbn [fromBufferAttribute map nth].
    rewrite tetrahedron_vnum. cbn [add].
    replace (pre ++ p1 :: p2 :: p3 :: rest) with ((pre ++ [p1; p2; p3]) ++ rest)
      by (rewrite <- app_assoc; reflexivity).
    replace (length pre + 3)%nat with (length (pre ++ [p1; p2; p3]))
      by (rewrite length_app; reflexivity).
    apply IH; [ simpl in Hlen; lia | lia ].
Qed.

(** X4.  On real points whose count is at least three and not a multiple of
    three, [computeApproxVolume] reads past the end of the position attribute
    and returns [NaN]. *)
Theorem computeApproxVolume_ragged (vs : list point) :
  (3 <= length vs)%nat ->
  (length vs mod 3 <> 0)%nat ->
  computeApproxVolume (geometry_of vs) = NaN.
Proof.
  intros Hlong Hmod.
  unfold computeApproxVolume, geometry_of, getAttribute_position.
  cbn [position]. unfold count at 1. rewrite length_map.
  destruct (Nat.ltb_spec (length vs) 3) as [ | _ ]; [ lia | ].
  pose proof (Nat.div_mod_eq (length vs) 3) as Hdm.
  pose proof (Nat.mod_upper_bound (length vs) 3 ltac:(lia)) as Hub.
  pose proof (volume_loop_ragged (length vs / 3) [] vs 0 (count (map vnum vs))) as Hloop.
  cbn [app length] in Hloop. rewrite Hloop; [ reflexivity | lia | ].
  unfold count. rewrite length_map. lia.
Qed.

Lemma computeApproxVolume_ragged_witness :
  computeApproxVolume (geometry_of (sample_baseline ++ [pt 1 1 1])) = NaN.
Proof.
  apply (computeApproxVolume_ragged (sample_baseline ++ [pt 1 1 1])).
  - cbn. lia.
  - cbn. lia.
Defined.

Lemma signed_volume_scale (s : R) (k : nat) :
  forall vs : list point, length vs = (3 * k)%nat ->
    signed_volume (map (scale_point s) vs) = s * s * s * signed_volume vs.
Proof.
  induction k as [ | k IH ]; intros vs Hlen.
  - destruct vs; [ simpl; lra | discriminate ].
  - destruct vs as [ | p1 [ | p2 [ | p3 rest ] ] ]; try (simpl in Hlen; lia).
    cbn [map signed_volume].
    rewrite IH by (simpl in Hlen; lia).
    unfold tetrahedron, rdot, rcross, scale_point. cbn [px py pz]. field.
Qed.

(** X5.  Scaling every vertex of a mesh of real points by [s] multiplies
    its approximate volume by [|s|] cubed. *)
Theorem computeApproxVolume_scaled (s : R) (vs : list point) :
  (length vs mod 3 = 0)%nat ->
  computeApproxVolume (geometry_of (map (scale_point s) vs)) =
  Num (Rabs s * Rabs s * Rabs s * Rabs (signed_volume vs)) /\
  computeApproxVolume (geometry_of vs) = Num (Rabs (signed_volume vs)).
Proof.
  intros Hmod. pose proof Hmod as Hdiv. apply Nat.Div0.div_exact in Hdiv.
  split; [ | apply computeApproxVolume_triangles, Hmod ].
  rewrite computeApproxVolume_triangles by (rewrite length_map; exact Hmod).
  rewrite (signed_volume_scale s _ vs Hdiv), !Rabs_mult. reflexivity.
Qed.

Lemma computeApproxVolume_scaled_witness :
  computeApproxVolume (geometry_of (map (scale_point 2) sample_baseline)) =
  Num (Rabs 2 * Rabs 2 * Rabs 2 * Rabs (signed_volume sample_baseline)).
Proof.
  apply (computeApproxVolume_scaled 2 sample_baseline). reflexivity.
Defined.

End VolumeEdges.

(* ================================================================== *)
(** * viewer.js: how the variables hang together *)
(* ================================================================== *)

Section WellFormed.

Lemma store_extends_refl (h : gmap loc BufferGeometry) : store_extends h h.
Proof. intros l g H. exact H. Qed.

Lemma store_extends_fresh (h : gmap loc BufferGeometry) (g : BufferGeometry) :
  store_extends h (<[fresh (dom h) := g]> h).
Proof.
  intros l g' Hl. rewrite lookup_insert_ne; [ exact Hl | ].
  symmetry. eapply fresh_not_allocated, Hl.
Qed.

Lemma computeMaxDimension_position (g : BufferGeometry) (m : number) :
  computeMaxDimension g = Return m -> is_Some (position g).
Proof.
  unfold computeMaxDimension, Compare.box_of_attribute, getAttribute_position.
  destruct (position g); [ eauto | discriminate ].
Qed.

Lemma scale_position (g : BufferGeometry) (s : number) :
  is_Some (position g) -> is_Some (position (scale g s s s)).
Proof.
  unfold scale, geometry_applyMatrix4. intros [a Ha]. rewrite Ha. cbn. eauto.
Qed.

Lemma well_formed_initial : well_formed initial.
Proof.
  split; cbn; try discriminate; try reflexivity.
  - intros [? H]. discriminate.
  - intros [? H]. discriminate.
Qed.

(** Changing the scene's children keeps the variables together. *)
Lemma well_formed_set_scene (st : state) (children : list slot) :
  well_formed st -> well_formed (set_scene (Some children) st).
Proof.
  intros [H1 H2 H3 H4 H5 H6 H7]. split; cbn; eauto.
Qed.

(** So does a new object in the store. *)
Lemma well_formed_alloc (st : state) (g : BufferGeometry) :
  well_formed st ->
  well_formed (set_heap (<[fresh (dom (heap st)) := g]> (heap st)) st).
Proof.
  intros [H1 H2 H3 H4 H5 H6 H7]. split; cbn; eauto.
  - intros b Hb. destruct (H1 b Hb) as [g' Hg'].
    exists g'. apply store_extends_fresh, Hg'.
  - intros s Hs. destruct (H2 s Hs) as (g' & Hg' & Hp).
    exists g'. split; [ apply store_extends_fresh, Hg' | exact Hp ].
Qed.

Lemma well_formed_oriented (st : state) (t : Matrix4) (mesh : Viewer.Mesh) :
  studentMesh st = Some mesh -> well_formed st -> well_formed (oriented t mesh st).
Proof.
  intros Hmesh [H1 H2 H3 H4 H5 H6 H7]. rewrite Hmesh in H3. destruct H3 as [H3 _].
  split; cbn; eauto.
Qed.

Lemma well_formed_loadBaseline (source : completion BufferGeometry) (st : state) :
  well_formed st -> well_formed (snd (loadBaseline source st)).
Proof.
  intros Hwf. rewrite loadBaseline_unfold.
  destruct (scene st) as [ children | ] eqn:Hscene; [ | exact Hwf ].
  cbv zeta.
  assert (Hst1 : well_formed
            match baselineMesh st with
            | Some _ => set_scene (Some (filter (fun c => c <> Baseline) children)) st
            | None => st
            end).
  { destruct (baselineMesh st); [ apply well_formed_set_scene | ]; exact Hwf. }
  destruct source as [ g0 | e ]; [ | exact Hst1 ].
  destruct Hwf as [H1 H2 H3 H4 H5 H6 H7].
  split; cbn [snd heap scene baselineMesh studentMesh baselineGeometry studentGeometry
              studentTransform buildMesh geometry].
  - intros b Hb. injection Hb as <-. rewrite lookup_insert_eq. eauto.
  - intros s Hs. destruct (H2 s Hs) as (g' & Hg' & Hp).
    exists g'. split; [ apply store_extends_fresh, Hg' | exact Hp ].
  - exact H3.
  - reflexivity.
  - eauto.
  - intros _. destruct (baselineMesh st); cbn; rewrite ?Hscene; cbn; eauto.
  - intros b s Hb Hs. injection Hb as <-.
    destruct (H2 s Hs) as (g' & Hg' & _).
    intros Heq. eapply fresh_not_allocated; [ exact Hg' | ]. congruence.
Qed.

Lemma well_formed_loadStudent (source : completion BufferGeometry) (st : state) :
  well_formed st -> well_formed (snd (loadStudent source st)).
Proof.
  intros Hwf. rewrite loadStudent_unfold.
  destruct (scene st) as [ children | ] eqn:Hscene; [ | exact Hwf ].
  destruct (baselineGeometry st) as [ bl | ] eqn:Hbl; [ | exact Hwf ].
  cbv zeta.
  destruct source as [ g0 | e ];
    [ | destruct (studentMesh st); [ apply well_formed_set_scene | ]; exact Hwf ].
  assert (Hst2 : forall g,
            well_formed
              (set_heap (<[fresh (dom (heap st)) := g]> (heap st))
                 match studentMesh st with
                 | Some _ => set_scene (Some (filter (fun c => c <> Student) children)) st
                 | None => st
                 end)).
  { intros g. destruct (studentMesh st).
    - apply (well_formed_alloc (set_scene _ st)), well_formed_set_scene, Hwf.
    - apply well_formed_alloc, Hwf. }
  destruct (_ !! bl) as [ b | ]; [ | apply Hst2 ].
  destruct (computeMaxDimension b); [ | apply Hst2 ].
  destruct (computeMaxDimension (centerGeometry g0)) as [ studentMax | ] eqn:Hmax;
    [ | apply Hst2 ].
  destruct Hwf as [H1 H2 H3 H4 H5 H6 H7].
  split; cbn [snd heap scene baselineMesh studentMesh baselineGeometry studentGeometry
              studentTransform geometry matrix].
  - intros b' Hb'. destruct (H1 bl Hbl) as [g' Hg'].
    injection Hb' as <-. exists g'. apply store_extends_fresh, Hg'.
  - intros s Hs. injection Hs as <-. rewrite lookup_insert_eq.
    eexists. split; [ reflexivity | ].
    apply scale_position. eapply computeMaxDimension_position, Hmax.
  - split; reflexivity.
  - rewrite <- Hbl. exact H4.
  - eauto.
  - intros _. destruct (studentMesh st); cbn; rewrite ?Hscene; cbn; eauto.
  - intros b' s Hb' Hs. injection Hb' as <-. injection Hs as <-.
    destruct (H1 bl Hbl) as [g' Hg'].
    eapply fresh_not_allocated, Hg'.
Qed.

Lemma well_formed_getNormalizedGeometries (st : state) :
  well_formed st -> well_formed (snd (getNormalizedGeometries st)).
Proof.
  intros Hwf. rewrite getNormalizedGeometries_unfold.
  destruct (baselineGeometry st); [ | exact Hwf ].
  destruct (studentGeometry st) as [ s | ]; [ | exact Hwf ].
  destruct (heap st !! s); [ | exact Hwf ].
  apply well_formed_alloc, Hwf.
Qed.

(** Preserve: every call keeps the variables together. *)
Lemma exec_well_formed (c : call) (st : state) :
  well_formed st -> well_formed (exec c st).
Proof.
  intros Hwf. destruct c as [ | source | source | axis direction | | ]; cbn [exec].
  - apply well_formed_set_scene, Hwf.
  - apply well_formed_loadBaseline, Hwf.
  - apply well_formed_loadStudent, Hwf.
  - rewrite rotateStudent_unfold.
    destruct (studentMesh st) as [ mesh | ] eqn:Hmesh; [ | exact Hwf ].
    destruct (studentGeometry st); [ | exact Hwf ].
    destruct (rotation_for axis (quarter_angle direction)); [ | exact Hwf ].
    apply well_formed_oriented; assumption.
  - rewrite resetStudentOrientation_unfold.
    destruct (studentMesh st) as [ mesh | ] eqn:Hmesh; [ | exact Hwf ].
    apply well_formed_oriented; assumption.
  - apply well_formed_getNormalizedGeometries, Hwf.
Qed.

Lemma run_well_formed (cs : list call) :
  forall st : state, well_formed st -> well_formed (run cs st).
Proof.
  induction cs as [ | c cs IH ]; intros st Hwf; [ exact Hwf | ].
  cbn [run fold_left]. apply IH, exec_well_formed, Hwf.
Qed.

Lemma reachable_well_formed (st : state) : reachable st -> well_formed st.
Proof. intros [cs ->]. apply run_well_formed, well_formed_initial. Qed.

(** X8.  In every state the program reaches: the geometry variables refer
    to objects in the store, and the student's has a position attribute; a
    mesh variable is set exactly when its geometry variable is and holds
    that geometry; the student mesh's matrix is the orientation transform; a
    student is loaded only with a baseline, a baseline only on an initialised
    viewer; baseline and student are different objects. *)
Theorem reachable_variables_hang_together (st : state) :
  reachable st -> well_formed st.
Proof. apply reachable_well_formed. Qed.

Lemma reachable_variables_hang_together_witness :
  well_formed (run student_session initial).
Proof.
  apply (reachable_variables_hang_together (run student_session initial)).
  exists student_session. reflexivity.
Defined.



End WellFormed.

(* ================================================================== *)
(** * viewer.js: centring *)
(* ================================================================== *)

Section Centring.

Lemma box_centre_centred (vs : list point) : box_centre (centred vs) = pt 0 0 0.
Proof.
  destruct vs as [ | v vs ]; [ reflexivity | ].
  unfold centred. set (c := box_centre (v :: vs)).
  assert (Hc : c = box_centre (v :: vs)) by reflexivity.
  cbn [map box_centre lower_corner upper_corner px py pz psub].
  rewrite (least_psub px), (least_psub py), (least_psub pz),
    (greatest_psub px), (greatest_psub py), (greatest_psub pz) by reflexivity.
  rewrite Hc. cbn [box_centre lower_corner upper_corner px py pz].
  f_equal; lra.
Qed.

Lemma psub_origin (vs : list point) : map (fun p => psub p (pt 0 0 0)) vs = vs.
Proof.
  rewrite <- (map_id vs) at 2. apply map_ext.
  intros [a b c]. unfold psub. cbn. f_equal; lra.
Qed.

Lemma centred_centred (vs : list point) : centred (centred vs) = centred vs.
Proof.
  unfold centred at 1. rewrite box_centre_centred. apply psub_origin.
Qed.

(** X12.  Centring a geometry of real points puts the centre of its box at
    the origin, keeps its largest box dimension, and is idempotent; a
    geometry without a position attribute is left as it is. *)
Theorem centerGeometry_centres (vs : list point) :
  getCenter (geometry_boundingBox (centerGeometry (geometry_of vs))) =
    {| x := Num 0; y := Num 0; z := Num 0 |} /\
  computeMaxDimension (centerGeometry (geometry_of vs)) =
    computeMaxDimension (geometry_of vs) /\
  centerGeometry (centerGeometry (geometry_of vs)) = centerGeometry (geometry_of vs) /\
  centerGeometry {| position := None |} = {| position := None |}.
Proof.
  rewrite !centerGeometry_points, getCenter_points, box_centre_centred,
    !computeMaxDimension_points, max_extent_centred, centred_centred.
  repeat split.
Qed.

End Centring.

(* ================================================================== *)
(** * viewer.js: what the loaders leave behind *)
(* ================================================================== *)

Section LoaderEffects.

(** X10.  When [loadStudent] fails, for whatever reason, the baseline, the
    student, its mesh and its orientation are the ones from before, and every
    stored geometry is unchanged.  If the failure comes after the two guards
    and a student mesh was loaded, that mesh has nevertheless been removed
    from the scene. *)
Theorem loadStudent_failure (source : completion BufferGeometry) (st st' : state) (e : error) :
  loadStudent source st = (Throw e, st') ->
  baselineGeometry st' = baselineGeometry st /\
  baselineMesh st' = baselineMesh st /\
  studentGeometry st' = studentGeometry st /\
  studentMesh st' = studentMesh st /\
  studentTransform st' = studentTransform st /\
  store_extends (heap st) (heap st') /\
  (forall children b m,
     scene st = Some children -> baselineGeometry st = Some b -> studentMesh st = Some m ->
     scene st' = Some (filter (fun c => c <> Student) children)).
Proof.
  rewrite loadStudent_unfold.
  destruct (scene st) as [ children | ] eqn:Hscene.
  2:{ intros H. injection H as _ <-. rewrite Hscene.
      repeat split; try discriminate. apply store_extends_refl. }
  destruct (baselineGeometry st) as [ bl | ] eqn:Hbl.
  2:{ intros H. injection H as _ <-. rewrite Hbl.
      repeat split; try discriminate. apply store_extends_refl. }
  cbv zeta.
  assert (Hfail : forall h (err : error),
    store_extends (heap st) h ->
    (Throw (A := loc) err,
     set_heap h
       match studentMesh st with
       | Some _ => set_scene (Some (filter (fun c => c <> Student) children)) st
       | None => st
       end) = (Throw e, st') ->
    baselineGeometry st' = Some bl /\
    baselineMesh st' = baselineMesh st /\
    studentGeometry st' = studentGeometry st /\
    studentMesh st' = studentMesh st /\
    studentTransform st' = studentTransform st /\
    store_extends (heap st) (heap st') /\
    (forall children0 b m,
       Some children = Some children0 -> Some bl = Some b -> studentMesh st = Some m ->
       scene st' = Some (filter (fun c => c <> Student) children0))).
  { intros h err Hext H. injection H as _ <-.
    destruct (studentMesh st) eqn:Hm; cbn; rewrite ?Hbl, ?Hm;
      repeat split; try assumption; try discriminate.
    intros ? ? ? [= <-] _ _. reflexivity. }
  destruct source as [ g0 | err ].
  - destruct (_ !! bl) as [ b | ]; [ | apply Hfail, store_extends_fresh ].
    destruct (computeMaxDimension b); [ | apply Hfail, store_extends_fresh ].
    destruct (computeMaxDimension (centerGeometry g0));
      [ discriminate | apply Hfail, store_extends_fresh ].
  - intros H. injection H as _ <-.
    destruct (studentMesh st) eqn:Hm; cbn; rewrite ?Hbl, ?Hm;
      repeat split; try discriminate; try apply store_extends_refl.
    intros ? ? ? [= <-] _ _. reflexivity.
Qed.

Lemma loadStudent_failure_witness :
  studentGeometry
    (snd (loadStudent (Throw (Error "unreadable")) (run baseline_session initial))) =
  studentGeometry (run baseline_session initial).
Proof.
  destruct baseline_session_state as (Hscene & Hbl & _).
  revert Hscene Hbl. generalize (run baseline_session initial). intros st Hscene Hbl.
  assert (Hload : loadStudent (Throw (Error "unreadable")) st =
                  (Throw (Error "unreadable"),
                   snd (loadStudent (Throw (Error "unreadable")) st)))
    by (rewrite loadStudent_unfold, Hscene, Hbl; reflexivity).
  exact (proj1 (proj2 (proj2 (loadStudent_failure _ _ _ _ Hload)))).
Defined.

End LoaderEffects.

Section BaselineLoad.

(** X11.  On an initialised viewer, loading a baseline of real points
    succeeds: the new object holds the centred points, with the largest box
    dimension they had; nothing is scaled.  The student, its mesh, its
    orientation and every stored geometry are left as they were, so a student
    loaded earlier keeps the scale it was given then. *)
Theorem loadBaseline_centres_only (st : state) (children : list slot) (vs : list point) :
  scene st = Some children ->
  exists (l : loc) (st' : state),
    loadBaseline (Return (geometry_of vs)) st = (Return l, st') /\
    heap st !! l = None /\
    baselineGeometry st' = Some l /\
    heap st' !! l = Some (geometry_of (centred vs)) /\
    computeMaxDimension (geometry_of (centred vs)) = Return (Num (max_extent vs)) /\
    studentGeometry st' = studentGeometry st /\
    studentMesh st' = studentMesh st /\
    studentTransform st' = studentTransform st /\
    store_extends (heap st) (heap st').
Proof.
  intros Hscene. rewrite loadBaseline_unfold, Hscene. cbv zeta.
  eexists _, _. split; [ reflexivity | ].
  cbn [heap baselineGeometry studentGeometry studentMesh studentTransform].
  split; [ apply not_elem_of_dom, is_fresh | ].
  split; [ reflexivity | ].
  split; [ rewrite lookup_insert_eq, centerGeometry_points; reflexivity | ].
  split; [ rewrite computeMaxDimension_points, max_extent_centred; reflexivity | ].
  repeat split. apply store_extends_fresh.
Qed.

Lemma loadBaseline_centres_only_witness :
  exists (l : loc) (st' : state),
    loadBaseline (Return (geometry_of sample_student)) (run student_session initial) =
      (Return l, st') /\
    baselineGeometry st' = Some l /\
    studentGeometry st' = studentGeometry (run student_session initial).
Proof.
  assert (Hscene : exists children, scene (run student_session initial) = Some children).
  { pose proof (reachable_well_formed _ student_session_reachable) as Hwf.
    destruct student_session_state as (mesh & g & _ & Hg).
    destruct (wf_baseline_after_init _ Hwf) as [children Hc]; [ | eauto ].
    apply (wf_student_after_baseline _ Hwf). eauto. }
  destruct Hscene as [children Hscene]. revert Hscene.
  generalize (run student_session initial). intros st Hscene.
  destruct (loadBaseline_centres_only st children sample_student Hscene)
    as (l & st' & Hload & _ & Hb & _ & _ & Hs & _).
  exists l, st'. repeat split; assumption.
Defined.

End BaselineLoad.

(* ================================================================== *)
(** * viewer.js: the orientation as turns in a row *)
(* ================================================================== *)

Section Turns.

Lemma homogeneous_identity : homogeneous identity3 = identity.
Proof. reflexivity. Qed.

Lemma homogeneous_finite (a : matrix3) : finite_matrix (homogeneous a).
Proof. repeat split. Qed.

(** Multiplying by the matrix of a quarter turn exchanges and negates
    rows. *)
Lemma multiply_quarter (t : turn) (a : matrix3) :
  multiply (quarter_matrix t) (homogeneous a) = homogeneous (turn_rows t a).
Proof.
  destruct a, t;
    unfold multiply, multiplyMatrices, homogeneous, quarter_matrix,
      quarter_x_pos, quarter_x_neg, quarter_y_pos, quarter_y_neg, turn_rows;
    cbn [n11 n12 n13 n14 n21 n22 n23 n24 n31 n32 n33 n34 n41 n42 n43 n44
         a11 a12 a13 a21 a22 a23 a31 a32 a33 add mul];
    f_equal; f_equal; lra.
Qed.

(** The rotation [rotateStudent] builds is one of the four quarter
    turns, whatever the direction passed. *)
Lemma rotation_for_quarter (axis : string) (direction : number) (rotation : Matrix4) :
  rotation_for axis (quarter_angle direction) = Some rotation ->
  exists t : turn, rotation = quarter_matrix t.
Proof.
  unfold rotation_for. intros H.
  destruct (quarter_angle_cases direction) as [Ha | Ha]; rewrite Ha in H;
    repeat case_decide; inversion H; subst.
  - exists TurnXPos. apply makeRotationX_quarter_pos.
  - exists TurnYPos. apply makeRotationY_quarter_pos.
  - exists TurnXNeg. apply makeRotationX_quarter_neg.
  - exists TurnYNeg. apply makeRotationY_quarter_neg.
Qed.

Lemma apply3_turn_rows (t : turn) (a : matrix3) (p : point) :
  apply3 (turn_rows t a) p = turn_point t (apply3 a p).
Proof.
  destruct t; unfold apply3, turn_rows, turn_point;
    cbn [a11 a12 a13 a21 a22 a23 a31 a32 a33 px py pz]; f_equal; lra.
Qed.

Lemma apply3_identity (p : point) : apply3 identity3 p = p.
Proof. destruct p. unfold apply3, identity3. cbn. f_equal; lra. Qed.

Lemma apply3_turns (ts : list turn) (p : point) :
  apply3 (turns_matrix ts) p = turns ts p.
Proof.
  induction ts as [ | t ts IH ]; cbn [turns_matrix turns fold_right].
  - apply apply3_identity.
  - rewrite apply3_turn_rows. f_equal. exact IH.
Qed.

Lemma applyMatrix4_homogeneous (a : matrix3) (p : point) :
  applyMatrix4 (vnum p) (homogeneous a) = vnum (apply3 a p).
Proof.
  unfold applyMatrix4, homogeneous, vnum, apply3.
  cbn [n11 n12 n13 n14 n21 n22 n23 n24 n31 n32 n33 n34 n41 n42 n43 n44 x y z
       px py pz add mul].
  rewrite div_num by lra. cbn [mul]. f_equal; f_equal; field; lra.
Qed.

Lemma geometry_applyMatrix4_turns (ts : list turn) (vs : list point) :
  geometry_applyMatrix4 (geometry_of vs) (homogeneous (turns_matrix ts)) =
  geometry_of (map (turns ts) vs).
Proof.
  unfold geometry_applyMatrix4, geometry_of. cbn [position].
  rewrite !map_map. do 2 f_equal. apply map_ext. intros p.
  rewrite applyMatrix4_homogeneous, apply3_turns. reflexivity.
Qed.

Lemma turned_oriented_identity (st : state) (mesh : Viewer.Mesh) :
  turned (oriented identity mesh st).
Proof. exists []. reflexivity. Qed.

Lemma exec_turned (c : call) (st : state) : turned st -> turned (exec c st).
Proof.
  intros Hturned. pose proof Hturned as [ts Hts].
  destruct c as [ | source | source | axis direction | | ]; cbn [exec].
  - exact Hturned.
  - destruct (loadBaseline_orientation source st) as [_ Ht].
    unfold turned. rewrite Ht. exact Hturned.
  - destruct (loadStudent_orientation source st) as [[_ Ht] | Ht];
      unfold turned; rewrite Ht; [ exact Hturned | exists []; reflexivity ].
  - rewrite rotateStudent_unfold.
    destruct (studentMesh st) as [ mesh | ]; [ | exact Hturned ].
    destruct (studentGeometry st); [ | exact Hturned ].
    destruct (rotation_for axis (quarter_angle direction)) as [ rotation | ] eqn:Hrot;
      [ | exact Hturned ].
    destruct (rotation_for_quarter _ _ _ Hrot) as [t ->].
    exists (t :: ts). cbn [snd oriented studentTransform set_studentMesh set_studentTransform].
    rewrite Hts. apply multiply_quarter.
  - rewrite resetStudentOrientation_unfold.
    destruct (studentMesh st) as [ mesh | ]; [ | exact Hturned ].
    apply turned_oriented_identity.
  - destruct (getNormalizedGeometries_orientation st) as [_ Ht].
    unfold turned. rewrite Ht. exact Hturned.
Qed.

Lemma reachable_turned (st : state) : reachable st -> turned st.
Proof.
  intros [cs ->]. unfold run.
  assert (H : forall s, turned s -> turned (fold_left (fun s c => exec c s) cs s)).
  { induction cs as [ | c cs IH ]; intros s Hs; [ exact Hs | ].
    cbn [fold_left]. apply IH, exec_turned, Hs. }
  apply H. exists []. reflexivity.
Qed.

Lemma turn_rows_orthonormal (t : turn) (a : matrix3) :
  orthonormal a -> orthonormal (turn_rows t a).
Proof.
  unfold orthonormal. intros (H1 & H2 & H3 & H4 & H5 & H6).
  destruct t; cbn [turn_rows a11 a12 a13 a21 a22 a23 a31 a32 a33];
    repeat split; nra.
Qed.

Lemma turn_rows_determinant (t : turn) (a : matrix3) :
  determinant (turn_rows t a) = determinant a.
Proof.
  destruct t; unfold determinant;
    cbn [turn_rows a11 a12 a13 a21 a22 a23 a31 a32 a33]; ring.
Qed.

Lemma turn_rows_axis_aligned (t : turn) (a : matrix3) :
  axis_aligned a -> axis_aligned (turn_rows t a).
Proof.
  unfold axis_aligned. intros H.
  repeat match goal with
  | H : List.Forall _ (_ :: _) |- _ => inversion H; subst; clear H
  end.
  assert (Hneg : forall e, e = -1 \/ e = 0 \/ e = 1 -> - e = -1 \/ - e = 0 \/ - e = 1)
    by (intros e [-> | [-> | ->]]; lra).
  destruct t; cbn [turn_rows a11 a12 a13 a21 a22 a23 a31 a32 a33];
    repeat (apply List.Forall_cons; [ auto | ]); apply List.Forall_nil.
Qed.

Lemma turns_matrix_rotation (ts : list turn) :
  orthonormal (turns_matrix ts) /\ determinant (turns_matrix ts) = 1 /\
  axis_aligned (turns_matrix ts).
Proof.
  induction ts as [ | t ts (Ho & Hd & Ha) ]; cbn [turns_matrix fold_right].
  - split; [ | split ].
    + unfold orthonormal, identity3. cbn. repeat split; lra.
    + unfold determinant, identity3. cbn. lra.
    + unfold axis_aligned, identity3. cbn.
      repeat (apply List.Forall_cons; [ lra | ]). apply List.Forall_nil.
  - split; [ apply turn_rows_orthonormal, Ho | ].
    split; [ rewrite turn_rows_determinant; exact Hd | ].
    apply turn_rows_axis_aligned, Ha.
Qed.

(** X13.  In every state the program reaches, the orientation transform
    is a pure rotation that maps the axes onto each other: a linear map
    without translation whose 3 by 3 part has entries in [-1, 0, 1],
    orthonormal rows and determinant [1]. *)
Theorem studentTransform_pure_rotation (st : state) :
  reachable st ->
  exists a : matrix3,
    studentTransform st = homogeneous a /\
    orthonormal a /\ determinant a = 1 /\ axis_aligned a.
Proof.
  intros Hreach. destruct (reachable_turned st Hreach) as [ts Hts].
  exists (turns_matrix ts). split; [ exact Hts | apply turns_matrix_rotation ].
Qed.

Lemma studentTransform_pure_rotation_witness :
  exists a : matrix3,
    studentTransform (run sample_turns (run student_session initial)) = homogeneous a /\
    orthonormal a /\ determinant a = 1 /\ axis_aligned a.
Proof.
  apply (studentTransform_pure_rotation (run sample_turns (run student_session initial))).
  exists (student_session ++ sample_turns). unfold run. rewrite fold_left_app. reflexivity.
Defined.

End Turns.

(* ================================================================== *)
(** * Quarter turns and the metrics *)
(* ================================================================== *)

Section TurnsAndMetrics.

Import Compare.

Lemma Rmin_opp (a b : R) : Rmin (- a) (- b) = - Rmax a b.
Proof. unfold Rmin, Rmax. repeat destruct (Rle_dec _ _); lra. Qed.

Lemma Rmax_opp (a b : R) : Rmax (- a) (- b) = - Rmin a b.
Proof. unfold Rmin, Rmax. repeat destruct (Rle_dec _ _); lra. Qed.

Section Via.

Variables f g : point -> R.
Variable move : point -> point.

Lemma least_via (vs : list point) (a : R) :
  (forall p, f (move p) = g p) -> least f a (map move vs) = least g a vs.
Proof.
  intros H. revert a. induction vs as [ | p vs IH ]; intros a; cbn; [ reflexivity | ].
  rewrite H. apply IH.
Qed.

Lemma greatest_via (vs : list point) (a : R) :
  (forall p, f (move p) = g p) -> greatest f a (map move vs) = greatest g a vs.
Proof.
  intros H. revert a. induction vs as [ | p vs IH ]; intros a; cbn; [ reflexivity | ].
  rewrite H. apply IH.
Qed.

Lemma least_via_opp (vs : list point) (a : R) :
  (forall p, f (move p) = - g p) -> least f (- a) (map move vs) = - greatest g a vs.
Proof.
  intros H. revert a. induction vs as [ | p vs IH ]; intros a; cbn; [ reflexivity | ].
  rewrite H, Rmin_opp. apply IH.
Qed.

Lemma greatest_via_opp (vs : list point) (a : R) :
  (forall p, f (move p) = - g p) -> greatest f (- a) (map move vs) = - least g a vs.
Proof.
  intros H. revert a. induction vs as [ | p vs IH ]; intros a; cbn; [ reflexivity | ].
  rewrite H, Rmax_opp. apply IH.
Qed.

End Via.

(** A quarter turn exchanges two sides of the box and keeps the third. *)
Lemma box_size_turn (t : turn) (vs : list point) :
  box_size (map (turn_point t) vs) = turn_size t (box_size vs).
Proof.
  destruct vs as [ | v vs ]; [ destruct t; reflexivity | ].
  destruct t;
    cbn [map box_size turn_size turn_point];
    unfold psub, upper_corner, lower_corner; cbn [px py pz].
  - rewrite (least_via px px), (greatest_via px px),
      (least_via_opp py pz), (greatest_via_opp py pz),
      (least_via pz py), (greatest_via pz py) by reflexivity.
    f_equal; lra.
  - rewrite (least_via px px), (greatest_via px px),
      (least_via py pz), (greatest_via py pz),
      (least_via_opp pz py), (greatest_via_opp pz py) by reflexivity.
    f_equal; lra.
  - rewrite (least_via px pz), (greatest_via px pz),
      (least_via py py), (greatest_via py py),
      (least_via_opp pz px), (greatest_via_opp pz px) by reflexivity.
    f_equal; lra.
  - rewrite (least_via_opp px pz), (greatest_via_opp px pz),
      (least_via py py), (greatest_via py py),
      (least_via pz px), (greatest_via pz px) by reflexivity.
    f_equal; lra.
Qed.

Lemma max_extent_box_size (vs : list point) :
  max_extent vs = Rmax (Rmax (px (box_size vs)) (py (box_size vs))) (pz (box_size vs)).
Proof.
  destruct vs as [ | v vs ]; [ | reflexivity ].
  cbn. unfold Rmax. repeat destruct (Rle_dec _ _); lra.
Qed.

Lemma max_extent_turn (t : turn) (vs : list point) :
  max_extent (map (turn_point t) vs) = max_extent vs.
Proof.
  rewrite !max_extent_box_size, box_size_turn.
  destruct t; cbn [turn_size px py pz];
    unfold Rmax; repeat destruct (Rle_dec _ _); lra.
Qed.

Lemma signed_volume_turn (t : turn) (k : nat) :
  forall vs : list point, length vs = (3 * k)%nat ->
    signed_volume (map (turn_point t) vs) = signed_volume vs.
Proof.
  induction k as [ | k IH ]; intros vs Hlen.
  - destruct vs; [ reflexivity | discriminate ].
  - destruct vs as [ | p1 [ | p2 [ | p3 rest ] ] ]; try (simpl in Hlen; lia).
    cbn [map signed_volume].
    rewrite IH by (simpl in Hlen; lia).
    f_equal. destruct t; unfold tetrahedron, rdot, rcross, turn_point;
      cbn [px py pz]; field.
Qed.

Lemma map_turns_cons (t : turn) (ts : list turn) (vs : list point) :
  map (turns (t :: ts)) vs = map (turn_point t) (map (turns ts) vs).
Proof. rewrite map_map. reflexivity. Qed.

Lemma max_extent_turns (ts : list turn) (vs : list point) :
  max_extent (map (turns ts) vs) = max_extent vs.
Proof.
  induction ts as [ | t ts IH ].
  - cbn [turns fold_right]. rewrite map_id. reflexivity.
  - rewrite map_turns_cons, max_extent_turn. exact IH.
Qed.

Lemma signed_volume_turns (ts : list turn) (vs : list point) :
  (length vs mod 3 = 0)%nat ->
  signed_volume (map (turns ts) vs) = signed_volume vs.
Proof.
  intros Hmod. apply Nat.Div0.div_exact in Hmod.
  induction ts as [ | t ts IH ].
  - cbn [turns fold_right]. rewrite map_id. reflexivity.
  - rewrite map_turns_cons, (signed_volume_turn t (length vs / 3)); [ exact IH | ].
    rewrite length_map. exact Hmod.
Qed.

Lemma quarter_matrix_homogeneous (t : turn) :
  quarter_matrix t = homogeneous (turns_matrix [t]).
Proof.
  destruct t; unfold quarter_matrix, homogeneous, turns_matrix, quarter_x_pos,
    quarter_x_neg, quarter_y_pos, quarter_y_neg;
    cbn [fold_right turn_rows identity3 a11 a12 a13 a21 a22 a23 a31 a32 a33];
    f_equal; f_equal; lra.
Qed.

Lemma box_size_is_points (vs : list point) : box_size_is (geometry_of vs) (box_size vs).
Proof. apply computeBoundingBox_points. Qed.

Lemma rotation_for_x_quarter (direction : number) :
  exists t : turn,
    rotation_for "x" (quarter_angle direction) = Some (quarter_matrix t) /\
    (t = TurnXPos \/ t = TurnXNeg).
Proof.
  rewrite rotation_for_x.
  destruct (quarter_angle_cases direction) as [-> | ->].
  - exists TurnXPos. rewrite makeRotationX_quarter_pos. auto.
  - exists TurnXNeg. rewrite makeRotationX_quarter_neg. auto.
Qed.

Lemma rotation_for_y_quarter (direction : number) :
  exists t : turn,
    rotation_for "y" (quarter_angle direction) = Some (quarter_matrix t) /\
    (t = TurnYPos \/ t = TurnYNeg).
Proof.
  rewrite rotation_for_y.
  destruct (quarter_angle_cases direction) as [-> | ->].
  - exists TurnYPos. rewrite makeRotationY_quarter_pos. auto.
  - exists TurnYNeg. rewrite makeRotationY_quarter_neg. auto.
Qed.

Lemma box_size_is_turned (t : turn) (vs : list point) :
  box_size_is (geometry_applyMatrix4 (geometry_of vs) (quarter_matrix t))
              (turn_size t (box_size vs)).
Proof.
  rewrite quarter_matrix_homogeneous, geometry_applyMatrix4_turns.
  cbn [turns fold_right]. rewrite <- box_size_turn.
  apply box_size_is_points.
Qed.

(** X17.  Whatever direction is passed, the matrix [rotateStudent] builds
    for axis [x] exchanges the Y and Z sizes of the bounding box of a geometry
    of real points and keeps the X size; the matrix for axis [y] exchanges X
    and Z and keeps Y. *)
Theorem quarter_turn_exchanges_sizes (direction : number) (vs : list point) :
  exists (s : point) (rx ry : Matrix4),
    box_size_is (geometry_of vs) s /\
    rotation_for "x" (quarter_angle direction) = Some rx /\
    box_size_is (geometry_applyMatrix4 (geometry_of vs) rx) (pt (px s) (pz s) (py s)) /\
    rotation_for "y" (quarter_angle direction) = Some ry /\
    box_size_is (geometry_applyMatrix4 (geometry_of vs) ry) (pt (pz s) (py s) (px s)).
Proof.
  destruct (rotation_for_x_quarter direction) as (tx & Hx & Htx).
  destruct (rotation_for_y_quarter direction) as (ty & Hy & Hty).
  exists (box_size vs), (quarter_matrix tx), (quarter_matrix ty).
  split; [ apply box_size_is_points | ].
  split; [ exact Hx | ].
  split; [ pose proof (box_size_is_turned tx vs) as H; destruct Htx; subst; exact H | ].
  split; [ exact Hy | ].
  pose proof (box_size_is_turned ty vs) as H; destruct Hty; subst; exact H.
Qed.

End TurnsAndMetrics.

(* ================================================================== *)
(** * viewer.js: the effective student *)
(* ================================================================== *)

Section EffectiveStudent.

Import Compare.

(** The student session stores a student of three real points. *)
Lemma student_session_points :
  exists (s : loc) (vs : list point),
    studentGeometry (run student_session initial) = Some s /\
    heap (run student_session initial) !! s = Some (geometry_of vs) /\
    length vs = 3%nat.
Proof.
  destruct baseline_session_state as (Hscene & Hbl & Hheap).
  unfold student_session, run. rewrite fold_left_app. cbn [fold_left exec].
  fold (run baseline_session initial).
  rewrite (loadStudent_points _ _ _ _ sample_student Hscene Hbl Hheap).
  cbn [snd studentGeometry heap].
  eexists _, _. split; [ reflexivity | ].
  split; [ apply lookup_insert_eq | ].
  unfold centred. rewrite !length_map. reflexivity.
Qed.

Lemma geometry_applyMatrix4_identity (vs : list point) :
  geometry_applyMatrix4 (geometry_of vs) identity = geometry_of vs.
Proof.
  rewrite <- homogeneous_identity.
  change identity3 with (turns_matrix []).
  rewrite geometry_applyMatrix4_turns. cbn [turns fold_right].
  rewrite map_id. reflexivity.
Qed.

(** X14.  In every state the program reaches, with a student of real
    points (a whole number of triangles) in the store,
    [getNormalizedGeometries] hands out a copy with the same triangle count,
    the same approximate volume and the same largest box dimension as the
    stored student, whatever turns were made. *)
Theorem effective_student_metrics (st : state) (s : loc) (vs : list point) :
  reachable st ->
  studentGeometry st = Some s ->
  heap st !! s = Some (geometry_of vs) ->
  (length vs mod 3 = 0)%nat ->
  exists (b c : loc) (st' : state) (g' : BufferGeometry),
    getNormalizedGeometries st = (Return (Some {| baseline := b; student := c |}), st') /\
    heap st' !! c = Some g' /\
    computeTriangleCount g' = computeTriangleCount (geometry_of vs) /\
    computeApproxVolume g' = computeApproxVolume (geometry_of vs) /\
    computeMaxDimension g' = computeMaxDimension (geometry_of vs).
Proof.
  intros Hreach Hs Hheap Hmod.
  pose proof (reachable_well_formed st Hreach) as Hwf.
  destruct (reachable_turned st Hreach) as [ts Hts].
  destruct (wf_student_after_baseline st Hwf) as [b Hb]; [ eauto | ].
  rewrite getNormalizedGeometries_unfold, Hb, Hs, Hheap. cbv zeta.
  eexists b, _, _, _. split; [ reflexivity | ].
  cbn [heap set_heap].
  split; [ apply lookup_insert_eq | ].
  rewrite Hts, geometry_applyMatrix4_turns.
  split; [ | split ].
  - unfold geometry_of. rewrite !computeTriangleCount_position, !length_map. reflexivity.
  - rewrite !computeApproxVolume_triangles by (rewrite ?length_map; exact Hmod).
    rewrite signed_volume_turns by exact Hmod. reflexivity.
  - rewrite !computeMaxDimension_points, max_extent_turns. reflexivity.
Qed.

Lemma effective_student_metrics_witness :
  exists (s : loc) (vs : list point) (b c : loc) (st' : state) (g' : BufferGeometry),
    heap (run sample_turns (run student_session initial)) !! s = Some (geometry_of vs) /\
    getNormalizedGeometries (run sample_turns (run student_session initial)) =
      (Return (Some {| baseline := b; student := c |}), st') /\
    heap st' !! c = Some g' /\
    computeApproxVolume g' = computeApproxVolume (geometry_of vs).
Proof.
  destruct student_session_points as (s & vs & Hs & Hheap & Hlen).
  assert (Hcs : Forall orientation_call sample_turns) by (repeat constructor).
  destruct (run_orientation_frame sample_turns (run student_session initial) Hcs)
    as (Hh & Hg & _).
  assert (Hreach : reachable (run sample_turns (run student_session initial))).
  { exists (student_session ++ sample_turns). unfold run. rewrite fold_left_app. reflexivity. }
  rewrite <- Hh in Hheap. rewrite <- Hg in Hs.
  revert Hreach Hs Hheap. generalize (run sample_turns (run student_session initial)).
  intros st Hreach Hs Hheap.
  destruct (effective_student_metrics st s vs Hreach Hs Hheap)
    as (b & c & st' & g' & Hget & Hc & _ & Hvol & _).
  { rewrite Hlen. reflexivity. }
  exists s, vs, b, c, st', g'. repeat split; assumption.
Defined.

(** X16.  After [resetStudentOrientation], the copy of a student of real
    points that [getNormalizedGeometries] hands out has exactly the stored
    vertex positions. *)
Theorem reset_restores_stored_positions (st : state) (s : loc) (vs : list point) :
  reachable st ->
  studentGeometry st = Some s ->
  heap st !! s = Some (geometry_of vs) ->
  exists (b c : loc) (st' : state),
    getNormalizedGeometries (exec CallResetStudentOrientation st) =
      (Return (Some {| baseline := b; student := c |}), st') /\
    c <> s /\
    heap st' !! c = Some (geometry_of vs) /\
    heap st' !! s = Some (geometry_of vs).
Proof.
  intros Hreach Hs Hheap.
  pose proof (reachable_well_formed st Hreach) as Hwf.
  destruct (wf_student_after_baseline st Hwf) as [b Hb]; [ eauto | ].
  pose proof (wf_student_mesh st Hwf) as Hmesh.
  destruct (studentMesh st) as [ mesh | ] eqn:Hm; [ | congruence ].
  cbn [exec]. rewrite resetStudentOrientation_unfold, Hm. cbn [snd].
  rewrite getNormalizedGeometries_unfold.
  cbn [oriented baselineGeometry studentGeometry heap studentTransform
       set_studentMesh set_studentTransform].
  rewrite Hb, Hs, Hheap. cbv zeta.
  pose proof (fresh_not_allocated _ _ _ Hheap) as Hfresh.
  eexists b, _, _. split; [ reflexivity | ].
  cbn [heap set_heap].
  split; [ congruence | ].
  split; [ rewrite lookup_insert_eq, geometry_applyMatrix4_identity; reflexivity | ].
  rewrite lookup_insert_ne by congruence. exact Hheap.
Qed.

Lemma reset_restores_stored_positions_witness :
  exists (s : loc) (vs : list point) (b c : loc) (st' : state),
    getNormalizedGeometries
      (exec CallResetStudentOrientation (run sample_turns (run student_session initial))) =
      (Return (Some {| baseline := b; student := c |}), st') /\
    heap st' !! c = Some (geometry_of vs) /\
    heap st' !! s = Some (geometry_of vs).
Proof.
  destruct student_session_points as (s & vs & Hs & Hheap & _).
  assert (Hcs : Forall orientation_call sample_turns) by (repeat constructor).
  destruct (run_orientation_frame sample_turns (run student_session initial) Hcs)
    as (Hh & Hg & _).
  assert (Hreach : reachable (run sample_turns (run student_session initial))).
  { exists (student_session ++ sample_turns). unfold run. rewrite fold_left_app. reflexivity. }
  rewrite <- Hh in Hheap. rewrite <- Hg in Hs.
  revert Hreach Hs Hheap. generalize (run sample_turns (run student_session initial)).
  intros st Hreach Hs Hheap.
  destruct (reset_restores_stored_positions st s vs Hreach Hs Hheap)
    as (b & c & st' & Hget & _ & Hc & Hstored).
  exists s, vs, b, c, st'. repeat split; assumption.
Defined.

Lemma turn_rows_four (t : turn) (a : matrix3) :
  turn_rows t (turn_rows t (turn_rows t (turn_rows t a))) = a.
Proof.
  destruct a, t; cbn [turn_rows a11 a12 a13 a21 a22 a23 a31 a32 a33]; f_equal; lra.
Qed.

Lemma four_turns_orientation : forall axis, Forall orientation_call (four_turns axis).
Proof. intros axis. repeat constructor. Qed.

Lemma four_turns_transform (st : state) (axis : string) (t : turn) :
  turned st ->
  rotation_for axis (quarter_angle (Num 1)) = Some (quarter_matrix t) ->
  studentTransform (run (four_turns axis) st) = studentTransform st.
Proof.
  intros [ts Hts] Hrot. cbn [four_turns run fold_left].
  destruct (studentMesh st) as [ mesh | ] eqn:Hmesh.
  - destruct (studentGeometry st) as [ g | ] eqn:Hgeom.
    + destruct (exec_rotate_step st mesh g axis (Num 1) _ Hmesh Hgeom Hrot)
        as (Hm1 & Hg1 & Ht1).
      destruct (exec_rotate_step _ _ g axis (Num 1) _ Hm1 Hg1 Hrot) as (Hm2 & Hg2 & Ht2).
      destruct (exec_rotate_step _ _ g axis (Num 1) _ Hm2 Hg2 Hrot) as (Hm3 & Hg3 & Ht3).
      destruct (exec_rotate_step _ _ g axis (Num 1) _ Hm3 Hg3 Hrot) as (_ & _ & Ht4).
      rewrite Ht4, Ht3, Ht2, Ht1, Hts, !multiply_quarter, turn_rows_four. reflexivity.
    + rewrite !(exec_rotate_not_loaded st) by (right; exact Hgeom). reflexivity.
  - rewrite !(exec_rotate_not_loaded st) by (left; exact Hmesh). reflexivity.
Qed.

(** X18.  In every state the program reaches, four calls of
    [rotateStudent] with direction [+1] about the same axis, [x] or [y],
    bring back the orientation transform; the store and the geometry
    variables are untouched, so [getNormalizedGeometries] hands out what it
    handed out before the four turns. *)
Theorem four_turns_restore (st : state) (axis : string) :
  reachable st ->
  axis = "x"%string \/ axis = "y"%string ->
  studentTransform (run (four_turns axis) st) = studentTransform st /\
  heap (run (four_turns axis) st) = heap st /\
  fst (getNormalizedGeometries (run (four_turns axis) st)) =
    fst (getNormalizedGeometries st) /\
  heap (snd (getNormalizedGeometries (run (four_turns axis) st))) =
    heap (snd (getNormalizedGeometries st)).
Proof.
  intros Hreach Haxis.
  pose proof (reachable_turned st Hreach) as Hturned.
  assert (Ht : studentTransform (run (four_turns axis) st) = studentTransform st).
  { destruct Haxis as [-> | ->].
    - apply (four_turns_transform st "x" TurnXPos Hturned rotation_x_pos).
    - apply (four_turns_transform st "y" TurnYPos Hturned rotation_y_pos). }
  destruct (run_orientation_frame (four_turns axis) st (four_turns_orientation axis))
    as (Hh & Hs & Hb).
  split; [ exact Ht | ]. split; [ exact Hh | ].
  rewrite !getNormalizedGeometries_unfold, Hb, Hs, Hh, Ht.
  destruct (baselineGeometry st);
    [ | split; [ reflexivity | cbn [snd]; exact Hh ] ].
  destruct (studentGeometry st) as [ s | ];
    [ | split; [ reflexivity | cbn [snd]; exact Hh ] ].
  destruct (heap st !! s);
    [ | split; [ reflexivity | cbn [snd]; exact Hh ] ].
  split; reflexivity.
Qed.

Lemma four_turns_restore_witness :
  studentTransform (run (four_turns "y") (run sample_turns (run student_session initial))) =
  studentTransform (run sample_turns (run student_session initial)).
Proof.
  assert (Hreach : reachable (run sample_turns (run student_session initial))).
  { exists (student_session ++ sample_turns). unfold run. rewrite fold_left_app. reflexivity. }
  revert Hreach. generalize (run sample_turns (run student_session initial)).
  intros st Hreach.
  exact (proj1 (four_turns_restore st "y" Hreach (or_intror eq_refl))).
Defined.

End EffectiveStudent.

(* ================================================================== *)
(** * viewer.js: a student that is the baseline at another size and place *)
(* ================================================================== *)

Section ScaledCopy.

Lemma Rmin_affine (a b k d : R) : 0 <= k -> Rmin (k * a + d) (k * b + d) = k * Rmin a b + d.
Proof. intros Hk. unfold Rmin. repeat destruct (Rle_dec _ _); nra. Qed.

Lemma Rmax_affine (a b k d : R) : 0 <= k -> Rmax (k * a + d) (k * b + d) = k * Rmax a b + d.
Proof. intros Hk. unfold Rmax. repeat destruct (Rle_dec _ _); nra. Qed.

Lemma least_affine (f : point -> R) (move : point -> point) (k d : R)
    (vs : list point) (a : R) :
  0 <= k -> (forall p, f (move p) = k * f p + d) ->
  least f (k * a + d) (map move vs) = k * least f a vs + d.
Proof.
  intros Hk Hmove. revert a. induction vs as [ | p vs IH ]; intros a; cbn; [ reflexivity | ].
  rewrite Hmove, Rmin_affine by assumption. apply IH.
Qed.

Lemma greatest_affine (f : point -> R) (move : point -> point) (k d : R)
    (vs : list point) (a : R) :
  0 <= k -> (forall p, f (move p) = k * f p + d) ->
  greatest f (k * a + d) (map move vs) = k * greatest f a vs + d.
Proof.
  intros Hk Hmove. revert a. induction vs as [ | p vs IH ]; intros a; cbn; [ reflexivity | ].
  rewrite Hmove, Rmax_affine by assumption. apply IH.
Qed.

(** Centring a copy forgets where it was: what is left is the centred
    original, scaled. *)
Lemma centred_affine (k : R) (d : point) (vs : list point) :
  0 <= k ->
  centred (map (affine_point k d) vs) = map (scale_point k) (centred vs).
Proof.
  intros Hk. destruct vs as [ | v vs ]; [ reflexivity | ].
  unfold centred. rewrite !map_map. apply map_ext. intros p.
  cbn [map box_centre]. unfold lower_corner, upper_corner.
  cbn [px py pz affine_point].
  rewrite (least_affine px (affine_point k d) k (px d)),
    (least_affine py (affine_point k d) k (py d)),
    (least_affine pz (affine_point k d) k (pz d)),
    (greatest_affine px (affine_point k d) k (px d)),
    (greatest_affine py (affine_point k d) k (py d)),
    (greatest_affine pz (affine_point k d) k (pz d)) by (assumption || reflexivity).
  unfold psub, scale_point, affine_point. cbn [px py pz]. f_equal; lra.
Qed.

(** With no extent, every centred point is the origin. *)
Lemma centred_degenerate (vs : list point) :
  max_extent vs = 0 -> centred vs = map (fun _ => pt 0 0 0) vs.
Proof.
  intros Hzero. destruct vs as [ | v vs ]; [ reflexivity | ].
  unfold centred. apply map_ext_in. intros p Hp.
  destruct (lower_corner_bound v vs p Hp) as (Hlx & Hly & Hlz).
  destruct (upper_corner_bound v vs p Hp) as (Hux & Huy & Huz).
  cbn [max_extent] in Hzero. cbv zeta in Hzero.
  set (lo := lower_corner v vs) in *. set (hi := upper_corner v vs) in *.
  assert (Hx : px (psub hi lo) <= 0)
    by (rewrite <- Hzero; etransitivity; [ apply Rmax_l | apply Rmax_l ]).
  assert (Hy : py (psub hi lo) <= 0)
    by (rewrite <- Hzero; etransitivity; [ apply Rmax_r | apply Rmax_l ]).
  assert (Hz : pz (psub hi lo) <= 0) by (rewrite <- Hzero; apply Rmax_r).
  cbn [psub px py pz] in Hx, Hy, Hz.
  cbn [box_centre]. fold lo hi. unfold psub. cbn [px py pz].
  f_equal; lra.
Qed.

(** The student stored for a copy of the baseline is the stored baseline. *)
Lemma normalised_copy (k : R) (d : point) (vs : list point) :
  0 < k ->
  map (scale_point (scale_factor (max_extent (centred vs))
                      (max_extent (map (affine_point k d) vs))))
      (centred (map (affine_point k d) vs)) = centred vs.
Proof.
  intros Hk.
  assert (Hext : max_extent (map (affine_point k d) vs) = k * max_extent vs).
  { rewrite <- max_extent_centred, centred_affine by lra.
    rewrite max_extent_scale by lra. rewrite max_extent_centred. reflexivity. }
  rewrite Hext, max_extent_centred, centred_affine by lra.
  pose proof (max_extent_nonneg vs) as Hnn.
  unfold scale_factor. destruct (decide (0 < k * max_extent vs)) as [Hpos | Hnpos].
  - assert (Hm : 0 < max_extent vs) by nra.
    rewrite map_map. rewrite <- (map_id (centred vs)) at 2.
    apply map_ext. intros [a b c]. unfold scale_point. cbn [px py pz].
    f_equal; field; lra.
  - assert (Hm : max_extent vs = 0) by nra.
    rewrite scale_point_one, (centred_degenerate vs Hm), map_map.
    apply map_ext. intros _. unfold scale_point. cbn [px py pz]. f_equal; lra.
Qed.

(** X15.  With a baseline stored as the centred real points [vs],
    loading as student the same points scaled by any [k > 0] and moved by
    any offset stores exactly the baseline's vertex positions. *)
Theorem loadStudent_scaled_copy (st : state) (children : list slot) (bl : loc)
    (vs : list point) (k : R) (d : point) :
  scene st = Some children ->
  baselineGeometry st = Some bl ->
  heap st !! bl = Some (geometry_of (centred vs)) ->
  0 < k ->
  exists (l : loc) (st' : state),
    loadStudent (Return (geometry_of (map (affine_point k d) vs))) st = (Return l, st') /\
    l <> bl /\
    studentGeometry st' = Some l /\
    heap st' !! l = Some (geometry_of (centred vs)) /\
    heap st' !! bl = Some (geometry_of (centred vs)) /\
    studentTransform st' = identity.
Proof.
  intros Hscene Hbl Hheap Hk.
  pose proof (fresh_not_allocated _ _ _ Hheap) as Hfresh.
  rewrite (loadStudent_points st children bl (centred vs) _ Hscene Hbl Hheap).
  cbv zeta. rewrite normalised_copy by exact Hk.
  eexists _, _. split; [ reflexivity | ].
  cbn [studentGeometry heap studentTransform].
  split; [ congruence | ].
  split; [ reflexivity | ].
  split; [ apply lookup_insert_eq | ].
  split; [ rewrite lookup_insert_ne by congruence; exact Hheap | reflexivity ].
Qed.

Lemma loadStudent_scaled_copy_witness :
  exists (l : loc) (st' : state),
    loadStudent (Return (geometry_of (map (affine_point 2 (pt 1 1 1)) sample_baseline)))
      (run baseline_session initial) = (Return l, st') /\
    studentGeometry st' = Some l /\
    heap st' !! l = Some (geometry_of (centred sample_baseline)).
Proof.
  destruct baseline_session_state as (Hscene & Hbl & Hheap).
  revert Hscene Hbl Hheap. generalize (run baseline_session initial).
  intros st Hscene Hbl Hheap.
  destruct (loadStudent_scaled_copy st [Baseline] _ sample_baseline 2 (pt 1 1 1)
              Hscene Hbl Hheap) as (l & st' & Hload & _ & Hs & Hl & _); [ lra | ].
  exists l, st'. repeat split; assumption.
Defined.

End ScaledCopy.

(* ================================================================== *)
(** * The page script: the event log *)
(* ================================================================== *)

Import Page.

Section EventLog.

Lemma trimLog_drop (children : list LogItem) :
  trimLog children = drop (length children - LOG_LIMIT) children.
Proof.
  induction children as [ | item rest IH ]; [ reflexivity | ].
  cbn [trimLog].
  destruct (Nat.ltb_spec LOG_LIMIT (length (item :: rest))) as [Hlong | Hshort].
  - rewrite IH. cbn [length] in *.
    replace (S (length rest) - LOG_LIMIT)%nat with (S (length rest - LOG_LIMIT))
      by (unfold LOG_LIMIT in *; lia).
    reflexivity.
  - replace (length (item :: rest) - LOG_LIMIT)%nat with 0%nat by lia.
    reflexivity.
Qed.

(** X19.  [appendEventLog] keeps the log at [LOG_LIMIT] = 30 items at most:
    the new item is the last one, the log is the end of the old log followed
    by the new item, and nothing is dropped while there is room. *)
Theorem appendEventLog_bounded (now message level : string) (eventLog : list LogItem) :
  let item := {| Page.level := level; time := now; Page.message := message |} in
  let log' := appendEventLog now message level eventLog in
  length log' = Nat.min (S (length eventLog)) 30 /\
  last log' = Some item /\
  log' `suffix_of` (eventLog ++ [item]) /\
  ((length eventLog < 30)%nat -> log' = eventLog ++ [item]).
Proof.
  intros item log'. unfold log', appendEventLog. fold item.
  rewrite trimLog_drop, length_app. cbn [length]. unfold LOG_LIMIT.
  split; [ rewrite length_drop, length_app; cbn [length]; lia | ].
  split.
  - rewrite drop_app_le by lia. apply last_snoc.
  - split; [ apply suffix_drop | ].
    intros Hroom.
    replace (length eventLog + 1 - 30)%nat with 0%nat by lia. reflexivity.
Qed.

End EventLog.

(* ================================================================== *)
(** * The page script: loading and reporting *)
(* ================================================================== *)

Section PageReport.

Import Compare.

(** [updateMetrics] on a baseline and a student of real points: the table is
    rendered from the report on the baseline and the turned student. *)
Lemma updateMetrics_points (pg : page) (b s : loc) (bvs svs : list point) (ts : list turn) :
  baselineGeometry (viewer pg) = Some b ->
  studentGeometry (viewer pg) = Some s ->
  heap (viewer pg) !! b = Some (geometry_of bvs) ->
  heap (viewer pg) !! s = Some (geometry_of svs) ->
  studentTransform (viewer pg) = homogeneous (turns_matrix ts) ->
  (length bvs mod 3 = 0)%nat ->
  (length svs mod 3 = 0)%nat ->
  exists (r : Report) (v' : Viewer.state),
    updateMetrics pg = (Return tt, mkPage v' (status pg) (Rendered r)) /\
    compareModels (geometry_of bvs) (geometry_of (map (turns ts) svs)) = Return r /\
    store_extends (heap (viewer pg)) (heap v') /\
    baselineGeometry v' = Some b /\ studentGeometry v' = Some s /\
    studentTransform v' = studentTransform (viewer pg) /\
    studentMesh v' = studentMesh (viewer pg) /\
    scene v' = scene (viewer pg).
Proof.
  intros Hb Hs Hhb Hhs Ht Hmb Hms.
  destruct (compareModels_points bvs (map (turns ts) svs)) as (r & Hr & _);
    [ exact Hmb | rewrite length_map; exact Hms | ].
  unfold updateMetrics. rewrite getNormalizedGeometries_unfold, Hb, Hs, Hhs. cbv zeta.
  cbn [baseline student heap set_heap].
  rewrite lookup_insert_eq.
  rewrite lookup_insert_ne by (symmetry; eapply fresh_not_allocated, Hhb).
  rewrite Hhb, Ht, geometry_applyMatrix4_turns, Hr.
  eexists r, _. split; [ reflexivity | ].
  split; [ reflexivity | ].
  cbn [viewer set_viewer heap set_heap baselineGeometry studentGeometry
       studentTransform studentMesh scene].
  split; [ apply store_extends_fresh | ].
  repeat split; assumption.
Qed.

(** On an initialised viewer, a baseline of real points loads. *)
Lemma loadBaseline_points (st : Viewer.state) (children : list slot) (vs : list point) :
  scene st = Some children ->
  exists (l : loc) (st' : Viewer.state) (children' : list slot),
    loadBaseline (Return (geometry_of vs)) st = (Return l, st') /\
    scene st' = Some children' /\
    baselineGeometry st' = Some l /\
    heap st' !! l = Some (geometry_of (centred vs)).
Proof.
  intros Hscene. rewrite loadBaseline_unfold, Hscene. cbv zeta.
  destruct (baselineMesh st); cbn [scene set_scene option_map]; rewrite ?Hscene;
    cbn [option_map];
    (eexists _, _, _; split; [ reflexivity | ];
     cbn [scene baselineGeometry heap];
     split; [ reflexivity | ];
     split; [ reflexivity | ];
     rewrite lookup_insert_eq, centerGeometry_points; reflexivity).
Qed.

(** [handleLoadModels] on two sources that decode to real points. *)
Lemma handleLoadModels_points (pg : page) (children : list slot) (bvs svs : list point) :
  scene (viewer pg) = Some children ->
  (length bvs mod 3 = 0)%nat ->
  (length svs mod 3 = 0)%nat ->
  exists (r : Report) (v' : Viewer.state),
    handleLoadModels (Return (geometry_of bvs)) (Return (geometry_of svs)) pg =
      mkPage v' (Text "Models loaded. Use the orientation controls if needed.", false)
             (Rendered r) /\
    compareModels
      (geometry_of (centred bvs))
      (geometry_of (map (scale_point (scale_factor (max_extent (centred bvs)) (max_extent svs)))
                        (centred svs))) = Return r.
Proof.
  intros Hscene Hmb Hms. unfold handleLoadModels. cbv zeta.
  cbn [viewer setStatus].
  destruct (loadBaseline_points (viewer pg) children bvs Hscene)
    as (l1 & st1 & children1 & -> & Hscene1 & Hbl1 & Hheap1).
  cbn [viewer set_viewer setStatus].
  rewrite (loadStudent_points st1 children1 l1 (centred bvs) svs Hscene1 Hbl1 Hheap1).
  cbv zeta.
  pose proof (fresh_not_allocated _ _ _ Hheap1) as Hfresh.
  match goal with
  | |- context [ updateMetrics ?p ] =>
      destruct (updateMetrics_points p l1 (fresh (dom (heap st1))) (centred bvs)
                  (map (scale_point (scale_factor (max_extent (centred bvs)) (max_extent svs)))
                       (centred svs)) [])
        as (r & v' & -> & Hr & _)
  end.
  - reflexivity.
  - reflexivity.
  - cbn [viewer set_viewer heap].
    rewrite lookup_insert_ne by (symmetry; exact Hfresh). exact Hheap1.
  - cbn [viewer set_viewer heap]. apply lookup_insert_eq.
  - reflexivity.
  - unfold centred. rewrite length_map. exact Hmb.
  - unfold centred. rewrite !length_map. exact Hms.
  - exists r, v'. split; [ reflexivity | ].
    cbn [turns fold_right] in Hr. rewrite map_id in Hr. exact Hr.
Qed.

(** X20.  On an initialised viewer, [handleLoadModels] with two sources
    that decode to meshes of real points ends on the status 'Models loaded.
    Use the orientation controls if needed.', not marked as an error, and
    renders the report that compares the centred baseline with the centred
    student scaled by [max_extent baseline / max_extent student] (by 1 for a
    student without extent). *)
Theorem handleLoadModels_renders_comparison (pg : page) (children : list slot)
    (bvs svs : list point) :
  scene (viewer pg) = Some children ->
  (length bvs mod 3 = 0)%nat ->
  (length svs mod 3 = 0)%nat ->
  exists r : Report,
    status (handleLoadModels (Return (geometry_of bvs)) (Return (geometry_of svs)) pg) =
      (Text "Models loaded. Use the orientation controls if needed.", false) /\
    metricsTable (handleLoadModels (Return (geometry_of bvs)) (Return (geometry_of svs)) pg) =
      Rendered r /\
    compareModels
      (geometry_of (centred bvs))
      (geometry_of (map (scale_point (scale_factor (max_extent bvs) (max_extent svs)))
                        (centred svs))) = Return r.
Proof.
  intros Hscene Hmb Hms.
  destruct (handleLoadModels_points pg children bvs svs Hscene Hmb Hms)
    as (r & v' & -> & Hr).
  exists r. rewrite max_extent_centred in Hr. repeat split. exact Hr.
Qed.

Lemma handleLoadModels_renders_comparison_witness :
  exists r : Report,
    status (handleLoadModels (Return (geometry_of sample_baseline))
              (Return (geometry_of sample_student)) main) =
      (Text "Models loaded. Use the orientation controls if needed.", false) /\
    metricsTable (handleLoadModels (Return (geometry_of sample_baseline))
                    (Return (geometry_of sample_student)) main) = Rendered r.
Proof.
  assert (Hscene : scene (viewer main) = Some []) by reflexivity.
  revert Hscene. generalize main. intros pg Hscene.
  destruct (handleLoadModels_renders_comparison pg [] sample_baseline sample_student Hscene)
    as (r & Hstatus & Htable & _); [ reflexivity | reflexivity | ].
  exists r. split; assumption.
Defined.

(** X21.  On an initialised viewer, a student that is the baseline scaled
    by any [k > 0] and moved by any offset is reported with all five percent
    differences equal to [0]. *)
Theorem handleLoadModels_scaled_copy (pg : page) (children : list slot)
    (vs : list point) (k : R) (d : point) :
  scene (viewer pg) = Some children ->
  (length vs mod 3 = 0)%nat ->
  0 < k ->
  exists r : Report,
    status (handleLoadModels (Return (geometry_of vs))
              (Return (geometry_of (map (affine_point k d) vs))) pg) =
      (Text "Models loaded. Use the orientation controls if needed.", false) /\
    metricsTable (handleLoadModels (Return (geometry_of vs))
                    (Return (geometry_of (map (affine_point k d) vs))) pg) = Rendered r /\
    Forall (fun s => s = Num 0) (scores r).
Proof.
  intros Hscene Hmod Hk.
  destruct (handleLoadModels_points pg children vs (map (affine_point k d) vs) Hscene Hmod)
    as (r & v' & -> & Hr); [ rewrite length_map; exact Hmod | ].
  exists r. split; [ reflexivity | ]. split; [ reflexivity | ].
  rewrite normalised_copy in Hr by exact Hk.
  destruct (compareModels_points (centred vs) (centred vs))
    as (r' & Hr' & Ht & Hv & Hx & Hy & Hz);
    try (unfold centred; rewrite length_map; exact Hmod).
  assert (r' = r) by congruence. subst r'.
  unfold scores. rewrite Ht, Hv, Hx, Hy, Hz. cbn [m_percentDifference].
  repeat (apply List.Forall_cons; [ apply score_same | ]).
  apply List.Forall_nil.
Qed.

Lemma handleLoadModels_scaled_copy_witness :
  exists r : Report,
    metricsTable (handleLoadModels (Return (geometry_of sample_baseline))
                    (Return (geometry_of (map (affine_point 2 (pt 1 1 1)) sample_baseline)))
                    main) = Rendered r /\
    Forall (fun s => s = Num 0) (scores r).
Proof.
  assert (Hscene : scene (viewer main) = Some []) by reflexivity.
  revert Hscene. generalize main. intros pg Hscene.
  destruct (handleLoadModels_scaled_copy pg [] sample_baseline 2 (pt 1 1 1) Hscene)
    as (r & _ & Htable & Hzero); [ reflexivity | lra | ].
  exists r. split; assumption.
Defined.

End PageReport.

Section PageHandlers.

Import Compare.

(** A failing [updateMetrics] leaves the table and the status as they
    were. *)
Lemma updateMetrics_throw (pg pg' : page) (e : error) :
  updateMetrics pg = (Throw e, pg') ->
  metricsTable pg' = metricsTable pg /\ status pg' = status pg.
Proof.
  unfold updateMetrics.
  destruct (getNormalizedGeometries (viewer pg)) as [ [ [ geometries | ] | e' ] v ].
  - destruct (heap v !! baseline geometries) as [ b | ];
      [ | intros [= _ <-]; split; reflexivity ].
    destruct (heap v !! student geometries) as [ s | ];
      [ | intros [= _ <-]; split; reflexivity ].
    destruct (compareModels b s); [ discriminate | ].
    intros [= _ <-]. split; reflexivity.
  - discriminate.
  - intros [= _ <-]. split; reflexivity.
Qed.

(** X22.  [handleLoadModels] lets no failure escape.  It ends either on
    the status 'Models loaded. ...', not marked as an error, or on the status
    'Failed to load STL: ...' for the error caught, marked as an error, with
    the metrics table left as it was.  When the baseline source fails on an
    initialised viewer, that failure is the one reported and the student and
    baseline variables are untouched; on a viewer that was never initialised
    nothing changes but the status. *)
Theorem handleLoadModels_catches (baselineSource studentSource : completion BufferGeometry)
    (pg : page) :
  (status (handleLoadModels baselineSource studentSource pg) =
     (Text "Models loaded. Use the orientation controls if needed.", false) \/
   exists e : error,
     status (handleLoadModels baselineSource studentSource pg) = (FailedToLoad e, true) /\
     metricsTable (handleLoadModels baselineSource studentSource pg) = metricsTable pg) /\
  (forall e : error,
     baselineSource = Throw e -> is_Some (scene (viewer pg)) ->
     status (handleLoadModels baselineSource studentSource pg) = (FailedToLoad e, true) /\
     studentGeometry (viewer (handleLoadModels baselineSource studentSource pg)) =
       studentGeometry (viewer pg) /\
     baselineGeometry (viewer (handleLoadModels baselineSource studentSource pg)) =
       baselineGeometry (viewer pg)) /\
  (scene (viewer pg) = None ->
   handleLoadModels baselineSource studentSource pg =
   mkPage (viewer pg) (FailedToLoad (Error "Viewer not initialized."), true)
          (metricsTable pg)).
Proof.
  split; [ | split ].
  - unfold handleLoadModels. cbv zeta. cbn [viewer setStatus].
    destruct (loadBaseline baselineSource (viewer pg)) as [ [ l | e ] v ];
      [ | right; exists e; split; reflexivity ].
    cbn [viewer set_viewer setStatus].
    destruct (loadStudent studentSource v) as [ [ l' | e ] v' ];
      [ | right; exists e; split; reflexivity ].
    destruct (updateMetrics _) as [ [ [] | e ] pg3 ] eqn:Hupdate.
    + left. reflexivity.
    + right. exists e. destruct (updateMetrics_throw _ _ _ Hupdate) as [Htable _].
      split; [ reflexivity | exact Htable ].
  - intros e -> [children Hscene]. unfold handleLoadModels. cbv zeta.
    cbn [viewer setStatus]. rewrite loadBaseline_unfold, Hscene. cbv zeta.
    cbn [status viewer setStatus set_viewer].
    destruct (baselineMesh (viewer pg)); repeat split.
  - intros Hscene. unfold handleLoadModels. cbv zeta.
    cbn [viewer setStatus]. rewrite loadBaseline_unfold, Hscene. reflexivity.
Qed.

(** X23.  With a baseline and a student of real points (whole numbers of
    triangles) loaded in a state the program reaches, the click handler
    [rotateAndReport] returns normally for any axis and direction, sets the
    status 'Student orientation adjusted. Metrics refreshed.' and renders a
    report whose triangle-count and volume lines are those of the stored
    meshes: turning the student changes neither. *)
Theorem rotateAndReport_keeps_volume (pg : page) (b s : loc) (bvs svs : list point)
    (axis : string) (direction : number) :
  reachable (viewer pg) ->
  baselineGeometry (viewer pg) = Some b ->
  studentGeometry (viewer pg) = Some s ->
  heap (viewer pg) !! b = Some (geometry_of bvs) ->
  heap (viewer pg) !! s = Some (geometry_of svs) ->
  (length bvs mod 3 = 0)%nat ->
  (length svs mod 3 = 0)%nat ->
  exists (r : Report) (pg' : page),
    rotateAndReport axis direction pg = (Return tt, pg') /\
    status pg' = (Text "Student orientation adjusted. Metrics refreshed.", false) /\
    metricsTable pg' = Rendered r /\
    real_measure (triangleCounts r) (INR (length bvs) / 3) (INR (length svs) / 3) /\
    real_measure (volumes r) (Rabs (signed_volume bvs)) (Rabs (signed_volume svs)) /\
    heap (viewer pg') !! s = Some (geometry_of svs).
Proof.
  intros Hreach Hb Hs Hhb Hhs Hmb Hms.
  pose proof (reachable_exec (CallRotateStudent axis direction) _ Hreach) as Hreach'.
  destruct (exec_orientation_frame (CallRotateStudent axis direction) (viewer pg) I)
    as (Hh & Hsg & Hbg).
  destruct (reachable_turned _ Hreach') as [ts Hts].
  cbn [exec] in Hh, Hsg, Hbg, Hts.
  unfold rotateAndReport. cbv zeta.
  destruct (updateMetrics_points
              (set_viewer (snd (rotateStudent axis direction (viewer pg))) pg)
              b s bvs svs ts) as (r & v' & -> & Hr & Hext & _);
    cbn [viewer set_viewer]; rewrite ?Hh, ?Hsg, ?Hbg; try assumption.
  destruct (compareModels_points bvs (map (turns ts) svs))
    as (r' & Hr' & Ht & Hv & _); [ exact Hmb | rewrite length_map; exact Hms | ].
  assert (r' = r) by congruence. subst r'.
  rewrite length_map in Ht. rewrite signed_volume_turns in Hv by exact Hms.
  eexists r, _. split; [ reflexivity | ].
  cbn [status metricsTable viewer setStatus].
  repeat split; try assumption.
  apply Hext. cbn [viewer set_viewer]. rewrite Hh. exact Hhs.
Qed.

Lemma rotateAndReport_keeps_volume_witness :
  exists (r : Report) (pg' : page),
    rotateAndReport "x" (Num 1)
      (mkPage (run student_session initial)
              (Text "Models loaded. Use the orientation controls if needed.", false)
              Untouched) = (Return tt, pg') /\
    metricsTable pg' = Rendered r.
Proof.
  destruct student_session_points as (s & svs & Hs & Hhs & Hlen).
  pose proof (reachable_well_formed _ student_session_reachable) as Hwf.
  destruct baseline_session_state as (_ & Hbl0 & Hheap0).
  assert (Hbase : exists b bvs,
             baselineGeometry (run student_session initial) = Some b /\
             heap (run student_session initial) !! b = Some (geometry_of bvs) /\
             length bvs = 3%nat).
  { destruct baseline_session_state as (Hscene & Hbl & Hheap).
    unfold student_session, run. rewrite fold_left_app. cbn [fold_left exec].
    fold (run baseline_session initial).
    rewrite (loadStudent_points _ _ _ _ sample_student Hscene Hbl Hheap).
    cbn [snd baselineGeometry heap].
    eexists _, _. split; [ reflexivity | ].
    split.
    - rewrite lookup_insert_ne; [ exact Hheap | ].
      symmetry. eapply fresh_not_allocated, Hheap.
    - unfold centred. rewrite length_map. reflexivity. }
  destruct Hbase as (b & bvs & Hb & Hhb & Hlenb).
  pose proof student_session_reachable as Hreach.
  revert Hreach Hb Hs Hhb Hhs. generalize (run student_session initial).
  intros st Hreach Hb Hs Hhb Hhs.
  destruct (rotateAndReport_keeps_volume
              (mkPage st (Text "Models loaded. Use the orientation controls if needed.", false)
                      Untouched)
              b s bvs svs "x" (Num 1) Hreach Hb Hs Hhb Hhs)
    as (r & pg' & Hrot & _ & Htable & _).
  - rewrite Hlenb. reflexivity.
  - rewrite Hlen. reflexivity.
  - exists r, pg'. split; assumption.
Defined.

End PageHandlers.
